(** * ardb: the Lua scripting bridge (src/lua_scripting.cpp)

    A shallow embedding of the value marshaler, the command bridge, the
    EVAL/EVALSHA engine, the script cache and the cancellation hook of
    [LUAInterpreter], with the properties the specification states about
    them.

    Conventions.
    - The Lua stack is a list of values with the top of the stack at the head:
      index [-1] is the head, index [1] the last element.
    - A Lua value is a finite tree: tables are finite maps with no metatable and
      no sharing.  The marshaler only reads the tables it is given and builds
      fresh ones, so no aliasing is observable in the code modelled.
    - [lua_Number] is the IEEE-754 binary64 format ([spec_float] with
      precision 53 and maximal exponent 1024).
    - Undefined behaviour of C++ (a conversion of a double outside the range of
      the integer type, overflow of a signed counter, a null pointer handed to
      [std::string]) and Lua errors raised through the C API outside a
      protected call are the outcome [Undef].
    - The interpreter itself is not part of the source: a script is the tree of
      what it does to the bridge ([Script]), and the compiler is a component of
      the host ([Host]).

    Layout: the values and the stack API; the data model of the
    specification; the state; the host; the source, function by function
    (section [Bridge]); the properties (section [Properties]); the
    properties on a small host. *)

From Stdlib Require Import ZArith String Ascii Lia.
From Stdlib Require Import Floats.SpecFloat.
From stdpp Require Import base gmap list strings pretty.

Open Scope string_scope.
Open Scope list_scope.
Open Scope Z_scope.

(** ** Outcomes *)

Inductive res (A : Type) : Type :=
| Ok (a : A)
| Undef
| OutOfFuel.
Arguments Ok {A} a.
Arguments Undef {A}.
Arguments OutOfFuel {A}.

Definition res_bind {A B : Type} (f : A -> res B) (x : res A) : res B :=
  match x with
  | Ok a => f a
  | Undef => Undef
  | OutOfFuel => OutOfFuel
  end.

#[global] Instance res_ret : MRet res := fun _ a => Ok a.
#[global] Instance res_mbind : MBind res := fun _ _ f x => res_bind f x.

Definition of_option {A : Type} (o : option A) : res A :=
  match o with
  | Some a => Ok a
  | None => Undef
  end.

(** ** Strings *)

(** [std::string(const char* )] and [lua_pushstring] read a C string: the bytes
    before the first NUL. *)
Fixpoint c_str (s : string) : string :=
  match s with
  | EmptyString => EmptyString
  | String c s' => if Ascii.eqb c "000"%char then EmptyString else String c (c_str s')
  end.

(** Modelled from the spec: [string_replace] of util/string_helper, which is not
    under src/ ("newline sequences in the message replaced with a single
    space"): every occurrence of [from], scanning left to right, is replaced
    by [to]. *)
Fixpoint string_replace_from (skip : nat) (from to s : string) : string :=
  match s with
  | EmptyString => EmptyString
  | String c s' =>
      match skip with
      | S k => string_replace_from k from to s'
      | O =>
          if (negb (String.eqb from EmptyString) && String.prefix from s)%bool
          then to +:+ string_replace_from ((String.length from - 1)%nat) from to s'
          else String c (string_replace_from O from to s')
      end
  end.

Definition string_replace (s from to : string) : string :=
  string_replace_from O from to s.

Definition CRLF : string := String "013" (String "010" EmptyString).

(** ** Numbers *)

Definition lua_Number : Type := spec_float.

Definition LLONG_MAX : Z := 2 ^ 63 - 1.
Definition LLONG_MIN : Z := - 2 ^ 63.
Definition INT_MAX : Z := 2 ^ 31 - 1.

(** [(lua_Number) i]: conversion of an integer to the nearest double. *)
Definition lua_Number_of_Z (i : Z) : lua_Number :=
  binary_normalize 53 1024 i 0 false.

(** The integer part of a double, rounding toward zero. *)
Definition lua_Number_trunc (d : lua_Number) : option Z :=
  match d with
  | S754_zero _ => Some 0
  | S754_finite s m e => Some (cond_Zopp s (Z.shiftl (Zpos m) e))
  | S754_infinity _ | S754_nan => None
  end.

(** [(long long) d]: defined when the truncated value fits in 64 bits. *)
Definition lua_Number_to_longlong (d : lua_Number) : option Z :=
  match lua_Number_trunc d with
  | Some z => if ((LLONG_MIN <=? z) && (z <=? LLONG_MAX))%bool then Some z else None
  | None => None
  end.

(** ** Lua values *)

(** Table keys: strings and integer-valued numbers, the only keys the bridge
    reads or writes. *)
Inductive LuaKey : Type :=
| KStr (s : string)
| KInt (n : Z).

#[global] Instance LuaKey_eq_dec : EqDecision LuaKey.
Proof. solve_decision. Defined.

#[global] Instance LuaKey_countable : Countable LuaKey.
Proof.
  refine (inj_countable'
            (fun k => match k with KStr s => inl s | KInt n => inr n end)
            (fun x => match x with inl s => KStr s | inr n => KInt n end) _).
  intros []; reflexivity.
Defined.

(** The native functions that [Init] registers. *)
Inductive lua_CFunction : Type :=
| FnCall | FnPCall | FnLog | FnSHA1Hex | FnErrorReplyCommand | FnStatusReplyCommand
| FnMathRandom | FnMathRandomSeed.

#[global] Instance lua_CFunction_eq_dec : EqDecision lua_CFunction.
Proof. solve_decision. Defined.

(** [LFunction name] is a function written in Lua, known by the name it was
    defined under; [LCFunction f] is a native function. *)
#[warnings="-register-all"]
Inductive LuaValue : Type :=
| LNil
| LBoolean (b : bool)
| LNumber (n : lua_Number)
| LString (s : string)
| LTable (t : gmap LuaKey LuaValue)
| LFunction (name : string)
| LCFunction (f : lua_CFunction).

Inductive lua_type_tag : Type :=
| LUA_TNONE | LUA_TNIL | LUA_TBOOLEAN | LUA_TNUMBER | LUA_TSTRING
| LUA_TTABLE | LUA_TFUNCTION.

#[global] Instance lua_type_tag_eq_dec : EqDecision lua_type_tag.
Proof. solve_decision. Defined.

Definition type_of (v : LuaValue) : lua_type_tag :=
  match v with
  | LNil => LUA_TNIL
  | LBoolean _ => LUA_TBOOLEAN
  | LNumber _ => LUA_TNUMBER
  | LString _ => LUA_TSTRING
  | LTable _ => LUA_TTABLE
  | LFunction _ | LCFunction _ => LUA_TFUNCTION
  end.

(** The key a number denotes: its integer value when it has one. *)
Definition key_of_number (d : lua_Number) : option LuaKey :=
  match d with
  | S754_zero _ => Some (KInt 0)
  | S754_finite s m e =>
      let z := Z.shiftl (Zpos m) e in
      if Z.shiftl z (- e) =? Zpos m then Some (KInt (cond_Zopp s z)) else None
  | S754_infinity _ | S754_nan => None
  end.

Definition key_of_value (v : LuaValue) : option LuaKey :=
  match v with
  | LString s => Some (KStr s)
  | LNumber d => key_of_number d
  | _ => None
  end.

(** Reading a field: an absent key and a key bound to nil both read as nil. *)
Definition table_get (t : gmap LuaKey LuaValue) (k : LuaValue) : LuaValue :=
  match key_of_value k with
  | Some key => default LNil (t !! key)
  | None => LNil
  end.

(** ** Wire replies *)

Inductive reply_type_tag : Type :=
| REDIS_REPLY_STRING | REDIS_REPLY_ARRAY | REDIS_REPLY_INTEGER
| REDIS_REPLY_NIL | REDIS_REPLY_STATUS | REDIS_REPLY_ERROR.

#[global] Instance reply_type_tag_eq_dec : EqDecision reply_type_tag.
Proof. solve_decision. Defined.

(** [struct RedisReply]: a type tag and one field per kind of payload. *)
#[warnings="-register-all"]
Inductive RedisReply : Type :=
  Build_RedisReply {
      reply_type : reply_type_tag;
      integer : Z;
      str : string;
      elements : list RedisReply
    }.

Definition set_type (ty : reply_type_tag) (r : RedisReply) : RedisReply :=
  Build_RedisReply ty (integer r) (str r) (elements r).
Definition set_integer (i : Z) (r : RedisReply) : RedisReply :=
  Build_RedisReply (reply_type r) i (str r) (elements r).
Definition set_str (s : string) (r : RedisReply) : RedisReply :=
  Build_RedisReply (reply_type r) (integer r) s (elements r).
Definition push_back (e : RedisReply) (r : RedisReply) : RedisReply :=
  Build_RedisReply (reply_type r) (integer r) (str r) (elements r ++ [e]).

(** ** The Lua C API on the stack *)

Definition lua_Stack : Type := list LuaValue.

Definition index2adr (L : lua_Stack) (idx : Z) : option nat :=
  let n := Z.of_nat (length L) in
  if idx <? 0 then (if - idx <=? n then Some (Z.to_nat (- idx - 1)) else None)
  else if ((0 <? idx) && (idx <=? n))%bool then Some (Z.to_nat (n - idx))
  else None.

Definition lua_at (L : lua_Stack) (idx : Z) : option LuaValue :=
  match index2adr L idx with
  | Some i => L !! i
  | None => None
  end.

Definition lua_type (L : lua_Stack) (idx : Z) : lua_type_tag :=
  match lua_at L idx with
  | Some v => type_of v
  | None => LUA_TNONE
  end.

Definition lua_gettop (L : lua_Stack) : Z := Z.of_nat (length L).

Definition lua_toboolean (L : lua_Stack) (idx : Z) : bool :=
  match lua_at L idx with
  | Some (LBoolean b) => b
  | Some LNil | None => false
  | Some _ => true
  end.

Definition lua_pushnumber (L : lua_Stack) (n : lua_Number) : lua_Stack := LNumber n :: L.
Definition lua_pushboolean (L : lua_Stack) (b : bool) : lua_Stack := LBoolean b :: L.
Definition lua_pushlstring (L : lua_Stack) (s : string) : lua_Stack := LString s :: L.
Definition lua_pushstring (L : lua_Stack) (s : string) : lua_Stack := LString (c_str s) :: L.
Definition lua_newtable (L : lua_Stack) : lua_Stack := LTable ∅ :: L.

Definition lua_pop (L : lua_Stack) (n : nat) : res lua_Stack :=
  if (n <=? length L)%nat then Ok (drop n L) else Undef.

(** [lua_gettable(L, idx)]: the key on top of the stack is replaced by the
    field it names in the table at [idx]. *)
Definition lua_gettable (L : lua_Stack) (idx : Z) : res lua_Stack :=
  match L, lua_at L idx with
  | k :: rest, Some (LTable t) => Ok (table_get t k :: rest)
  | _, _ => Undef
  end.

(** [lua_settable(L, idx)]: [t[k] = v] for the value [v] on top of the stack
    and the key [k] below it; both are popped.  Storing nil removes the key. *)
Definition lua_settable (L : lua_Stack) (idx : Z) : res lua_Stack :=
  match L, index2adr L idx with
  | v :: k :: _, Some i =>
      match L !! i, key_of_value k with
      | Some (LTable t), Some key =>
          let t' := match v with LNil => delete key t | _ => <[key := v]> t end in
          Ok (drop 2 (<[i := LTable t']> L))
      | _, _ => Undef
      end
  | _, _ => Undef
  end.


(** ** The specification's data model (spec section 3 and 4.1) *)

(** [WireReply]: the tagged variant of the specification. *)
#[warnings="-register-all"]
Inductive WireReply : Type :=
| Integer (i : Z)
| Nil
| BulkString (s : string)
| Status (s : string)
| Error (s : string)
| Array (l : list WireReply).

(** The kind and payload of a [RedisReply]: the field its type tag selects. *)
Fixpoint wire_view (r : RedisReply) : WireReply :=
  match r with
  | Build_RedisReply ty i s elems =>
      match ty with
      | REDIS_REPLY_INTEGER => Integer i
      | REDIS_REPLY_NIL => Nil
      | REDIS_REPLY_STRING => BulkString s
      | REDIS_REPLY_STATUS => Status s
      | REDIS_REPLY_ERROR => Error s
      | REDIS_REPLY_ARRAY => Array (wire_view <$> elems)
      end
  end.

(** The [RedisReply] that carries a wire reply and nothing else. *)
Fixpoint reply_of_wire (w : WireReply) : RedisReply :=
  match w with
  | Integer i => Build_RedisReply REDIS_REPLY_INTEGER i "" []
  | Nil => Build_RedisReply REDIS_REPLY_NIL 0 "" []
  | BulkString s => Build_RedisReply REDIS_REPLY_STRING 0 s []
  | Status s => Build_RedisReply REDIS_REPLY_STATUS 0 s []
  | Error s => Build_RedisReply REDIS_REPLY_ERROR 0 s []
  | Array l => Build_RedisReply REDIS_REPLY_ARRAY 0 "" (reply_of_wire <$> l)
  end.

Definition is_nil (v : LuaValue) : bool :=
  match v with
  | LNil => true
  | _ => false
  end.

(** Reading the converted entries at [j], [j+1], ... up to the first missing
    one; [None] when an entry that is read has no conversion. *)
Fixpoint read_sequence (c : gmap LuaKey (option (option WireReply))) (j : Z) (n : nat)
  : option (list WireReply) :=
  match n with
  | O => Some []
  | S n' =>
      match c !! KInt j with
      | Some (Some (Some w)) => cons w <$> read_sequence c (j + 1) n'
      | Some (Some None) => None
      | Some None | None => Some []
      end
  end.

Section Reference.

(** The reference map of the specification, [toWireReply], written from its
    words; [sanitize] is what it does to the message of an error or status.
    [None] where the words give no reply: a number whose integer part is not a
    64-bit integer. *)
Variable sanitize : string -> string.

Fixpoint toWireReply (v : LuaValue) : option WireReply :=
  match v with
  | LString s => Some (BulkString s)
  | LBoolean false => Some Nil
  | LBoolean true => Some (Integer 1)
  | LNumber n => Integer <$> lua_Number_to_longlong n
  | LTable t =>
      match t !! KStr "err" with
      | Some (LString e) => Some (Error (sanitize e))
      | _ =>
          match t !! KStr "ok" with
          | Some (LString o) => Some (Status (sanitize o))
          | _ =>
              let c := (fun x => if is_nil x then None else Some (toWireReply x)) <$> t in
              Array <$> read_sequence c 1 (S (size t))
          end
      end
  | LNil | LFunction _ | LCFunction _ => Some Nil
  end.

End Reference.

(** "newline sequences in the message replaced with a single space". *)
Definition spec_sanitize (s : string) : string := string_replace s CRLF " ".

(** What the source does to the message: it first reads it as a C string. *)
Definition code_sanitize (s : string) : string := string_replace (c_str s) CRLF " ".

(** The keys [1 .. n] of a table built from a list of [n] elements. *)
Definition array_keys (n : nat) : list LuaKey := KInt <$> seqZ 1 (Z.of_nat n).

(** [toScriptValue] of the specification. *)
Fixpoint toScriptValue (w : WireReply) : LuaValue :=
  match w with
  | Integer i => LNumber (lua_Number_of_Z i)
  | Nil => LBoolean false
  | BulkString s => LString s
  | Status s => LTable {[ KStr "ok" := LString s ]}
  | Error s => LTable {[ KStr "err" := LString s ]}
  | Array l =>
      LTable (list_to_map (zip (array_keys (length l)) (toScriptValue <$> l)))
  end.

(** ** Bounds

    [tables_fit_int v]: every table in [v] has fewer than [INT_MAX - 1]
    entries, so the [int] index of the array loop never overflows.  (Lua 5.1
    cannot build a larger table: its array and hash parts hold at most 2^26
    entries each.) *)
Fixpoint tables_fit_int (v : LuaValue) : bool :=
  match v with
  | LTable t =>
      (Z.of_nat (size t) <? INT_MAX - 1)
      && map_fold (fun _ x acc => tables_fit_int x && acc) true t
  | _ => true
  end.

(** Fuel that suffices to convert [v]. *)
Fixpoint fuel_of (v : LuaValue) : nat :=
  match v with
  | LTable t => size t + 3 + map_fold (fun _ x acc => Nat.max (fuel_of x) acc) O t
  | _ => 1
  end.

(** ** Replies that the two conversions carry unchanged *)

Fixpoint has_nul (s : string) : bool :=
  match s with
  | EmptyString => false
  | String c s' => Ascii.eqb c "000"%char || has_nul s'
  end.

Fixpoint has_crlf (s : string) : bool :=
  match s with
  | EmptyString => false
  | String c s' => String.prefix CRLF s || has_crlf s'
  end.

(** A message with no NUL byte and no line terminator. *)
Definition plain_line (s : string) : bool := negb (has_nul s) && negb (has_crlf s).

(** [preserved w]: the status and error messages of [w] are plain lines, its
    integers are below 2^53 in magnitude (a double holds them exactly) and its
    arrays have fewer than [INT_MAX - 1] elements, at every depth. *)
Fixpoint preserved (w : WireReply) : bool :=
  match w with
  | Integer i => Z.abs i <? 2 ^ 53
  | Nil | BulkString _ => true
  | Status s | Error s => plain_line s
  | Array l => (Z.of_nat (length l) <? INT_MAX - 1) && forallb preserved l
  end.


(** ** Host helpers outside src/ *)

Definition lower_char (c : ascii) : ascii :=
  let n := N_of_ascii c in
  if ((65 <=? n) && (n <=? 90))%N then ascii_of_N (n + 32) else c.

(** Modelled from the spec: [lower_string] of util/string_helper, which is not
    under src/ ("lowercase the first argument as the command name"). *)
Fixpoint lower_string (s : string) : string :=
  match s with
  | EmptyString => EmptyString
  | String c s' => String (lower_char c) (lower_string s')
  end.

(** [strcasecmp] of the C library on two C strings: the difference of the first
    pair of bytes that differ after lowercasing, 0 when there is none. *)
Fixpoint strcasecmp_bytes (a b : string) : Z :=
  match a, b with
  | EmptyString, EmptyString => 0
  | EmptyString, String cb _ => - Z.of_N (N_of_ascii (lower_char cb))
  | String ca _, EmptyString => Z.of_N (N_of_ascii (lower_char ca))
  | String ca a', String cb b' =>
      if Ascii.eqb (lower_char ca) (lower_char cb) then strcasecmp_bytes a' b'
      else Z.of_N (N_of_ascii (lower_char ca)) - Z.of_N (N_of_ascii (lower_char cb))
  end.

Definition strcasecmp (a b : string) : Z := strcasecmp_bytes (c_str a) (c_str b).

(** Modelled from the spec: the shared generator of util/rand.h, which is not
    under src/ ("a global linear-congruential generator shared with the rest of
    the store", whose "seed is explicitly reset"): the 48-bit generator of
    [lrand48], its state one integer below 2^48. *)
Definition REDIS_LRAND48_MAX : Z := 2 ^ 31 - 1.

Definition redisSrand48 (seedval : Z) : Z :=
  Z.lor (Z.shiftl (seedval mod 2 ^ 32) 16) 13070.

Definition redisLrand48 (x : Z) : Z * Z :=
  let x' := (25214903917 * x + 11) mod 2 ^ 48 in
  (Z.shiftr x' 17, x').

(** [snprintf(tmp, size, ...)]: at most [size - 1] bytes are kept. *)
Definition snprintf (size : nat) (s : string) : string :=
  String.substring 0 (size - 1) s.

Definition MAX_LUA_STR_SIZE : nat := 1024.

(** ** Doubles: the operations of [MathRandom] *)

Definition lua_Number_div (x y : lua_Number) : lua_Number := SFdiv 53 1024 x y.
Definition lua_Number_mul (x y : lua_Number) : lua_Number := SFmul 53 1024 x y.
Definition lua_Number_add (x y : lua_Number) : lua_Number := SFadd 53 1024 x y.

(** [floor]: a double with a negative exponent has magnitude below 2^53, so
    the integer below it is a double. *)
Definition lua_Number_floor (x : lua_Number) : lua_Number :=
  match x with
  | S754_finite s m e =>
      if 0 <=? e then x
      else
        let q := Z.shiftl (Zpos m) e in
        let exact := Z.shiftl q (- e) =? Zpos m in
        let z := if s then (if exact then - q else - q - 1) else q in
        binary_normalize 53 1024 z 0 s
  | _ => x
  end.

Definition wrap_int32 (z : Z) : Z := (z + 2 ^ 31) mod 2 ^ 32 - 2 ^ 31.

Definition in_int_range (z : Z) : bool := (- 2 ^ 31 <=? z) && (z <=? INT_MAX).

(** ** State *)

(** The per-connection run context, [ctx->GetLua()]. *)
Record LuaRunContext : Type := {
  lua_time_start : Z;
  lua_executing_func : option string;
  lua_timeout : bool;
  lua_kill : bool
}.

Inductive user_event : Type := SCRIPT_FLUSH_EVENT | SCRIPT_KILL_EVENT.

(** What another thread does while a script runs. *)
Inductive admin_action : Type :=
| AdminKill (funcname : string)
| AdminFlush.

(** [debug.getinfo(level, "S").what] of a frame. *)
Inductive frame_what : Type := WhatLua | WhatMain | WhatC | WhatTail.

#[global] Instance frame_what_eq_dec : EqDecision frame_what.
Proof. solve_decision. Defined.

(** A script, as the interpreter runs it: what it returns or raises and, on
    the way, its reads and writes of globals, its function definitions, its
    calls of native functions through a field of a global table (results are
    handed to the continuation) and the points at which the instruction
    counter reaches the hook's period.  A count point records what the
    environment has done by then: the clock reading and the administrative
    calls of other threads.  [line] is the current line of the running
    function, for messages. *)
Inductive Script : Type :=
| SReturn (vs : list LuaValue)
| SError (line : Z) (msg : string)
| SGetGlobal (line : Z) (what : frame_what) (name : string) (k : LuaValue -> Script)
| SSetGlobal (line : Z) (what : frame_what) (name : string) (v : LuaValue) (k : Script)
| SDefine (line : Z) (what : frame_what) (name : string) (body : Script) (k : Script)
| SCallField (line : Z) (what : frame_what) (table field : string) (args : list LuaValue)
    (k : list LuaValue -> Script)
| SCount (line : Z) (now : Z) (actions : list admin_action) (k : Script).

(** The interpreter, [m_lua]: the stack, the table of globals, the bodies of
    the Lua functions by name, whether [_G] carries the protecting metatable,
    the installed count hook, and the collector steps taken. *)
Record lua_State : Type := {
  stack : lua_Stack;
  globals : gmap string LuaValue;
  code : gmap string Script;
  strict : bool;
  hook : option Z;
  gc_steps : nat
}.


(** ** The host

    What the bridge takes from outside src/: the number formatting and
    parsing macros of the interpreter's configuration; the type tag that
    [RedisReply]'s constructor and [Clear()] leave; the store the executor
    works on and the executor; the command table and the no-script flag; the
    digest function; the compiler of the interpreter; the globals its
    libraries define; the argument-error message of its auxiliary library;
    the log levels. *)
Class Host : Type := {
  lua_number2str : lua_Number -> string;
  lua_str2number : string -> option lua_Number;
  reply_type0 : reply_type_tag;
  Db : Type;
  ProcessRedisCommand : Db -> string -> list string -> Db * RedisReply;
  FindRedisCommandHandlerSetting : string -> option Z;
  ARDB_CMD_NOSCRIPT : Z;
  sha1_sum : string -> string;
  lua_compile : string -> string + Script;
  library_globals : gmap string LuaValue;
  luaL_argerror : Z -> string -> string;
  FATAL_LOG_LEVEL : Z;
  TRACE_LOG_LEVEL : Z;
  DEBUG_LOG_LEVEL : Z;
  INFO_LOG_LEVEL : Z;
  WARN_LOG_LEVEL : Z
}.

(** ** A small host, to run the bridge on

    A key-value store with the commands [set], [get] and [fail] (which always
    answers with an error), a command [eval] flagged no-script, and a compiler
    that knows the text of a few scripts. *)
Module Demo.

Definition Db : Type := gmap string string.

Definition reply_status (s : string) : RedisReply := Build_RedisReply REDIS_REPLY_STATUS 0 s [].
Definition reply_error (s : string) : RedisReply := Build_RedisReply REDIS_REPLY_ERROR 0 s [].
Definition reply_bulk (s : string) : RedisReply := Build_RedisReply REDIS_REPLY_STRING 0 s [].
Definition reply_nil : RedisReply := Build_RedisReply REDIS_REPLY_NIL 0 "" [].

Definition ProcessRedisCommand (db : Db) (cmd : string) (args : list string)
  : Db * RedisReply :=
  if String.eqb cmd "set" then
    match args with
    | [k; v] => (<[k := v]> db, reply_status "OK")
    | _ => (db, reply_error "ERR wrong number of arguments")
    end
  else if String.eqb cmd "get" then
    match args with
    | [k] => (db, match db !! k with Some v => reply_bulk v | None => reply_nil end)
    | _ => (db, reply_error "ERR wrong number of arguments")
    end
  else (db, reply_error "ERR failed").

Definition ARDB_CMD_NOSCRIPT : Z := 1.

Definition FindRedisCommandHandlerSetting (cmd : string) : option Z :=
  if String.eqb cmd "set" then Some 0
  else if String.eqb cmd "get" then Some 0
  else if String.eqb cmd "fail" then Some 0
  else if String.eqb cmd "eval" then Some 1
  else None.

(** A stand-in for the digest: 40 characters taken from the body. *)
Definition sha1_sum (s : string) : string :=
  String.substring 0 40 (s +:+ "0000000000000000000000000000000000000000").

Definition lua_number2str (n : lua_Number) : string := "".
Definition lua_str2number (s : string) : option lua_Number := None.
Definition luaL_argerror (narg : Z) (extramsg : string) : string :=
  "bad argument #" +:+ pretty narg +:+ " (" +:+ extramsg +:+ ")".

Definition library_globals : gmap string LuaValue :=
  {[ "math" := LTable ∅; "loadfile" := LFunction "loadfile";
     "loadstring" := LFunction "loadstring" ]}.

Definition one : LuaValue := LNumber (lua_Number_of_Z 1).

(** The first element of a table, as [t[1]] reads it. *)
Definition first_of (v : LuaValue) : LuaValue :=
  match v with
  | LTable t => default LNil (t !! KInt 1)
  | _ => LNil
  end.

(** The scripts the compiler knows, each with the chunk that the text
    [function NAME() BODY end] compiles to. *)
Definition plain (body : Script) (name : string) : Script :=
  SDefine 1 WhatMain name body (SReturn []).

Definition known_scripts : list (string * (string -> Script)) :=
  [ ("", plain (SReturn []));
    ("return {1,2,'three'}",
      plain (SReturn [LTable {[ KInt 1 := one; KInt 2 := LNumber (lua_Number_of_Z 2);
                                KInt 3 := LString "three" ]}]));
    ("return redis.call('set', KEYS[1], ARGV[1])",
      plain (SGetGlobal 1 WhatLua "KEYS" (fun ks =>
             SGetGlobal 1 WhatLua "ARGV" (fun av =>
             SCallField 1 WhatLua "redis" "call" [LString "set"; first_of ks; first_of av]
               SReturn))));
    ("return math.random(10)",
      plain (SCallField 1 WhatLua "math" "random" [LNumber (lua_Number_of_Z 10)] SReturn));
    ("return redis.call('fail')",
      plain (SCallField 1 WhatLua "redis" "call" [LString "fail"] SReturn));
    ("return redis.pcall('fail')",
      plain (SCallField 1 WhatLua "redis" "pcall" [LString "fail"] SReturn));
    ("return redis.call('nosuch')",
      plain (SCallField 1 WhatLua "redis" "call" [LString "nosuch"] SReturn));
    ("foo = 1", plain (SSetGlobal 1 WhatLua "foo" one (SReturn [])));
    ("return foo", plain (SGetGlobal 1 WhatLua "foo" (fun v => SReturn [v])));
    ("end x = 1 function y()",
      fun name =>
        SDefine 1 WhatMain name (SReturn [])
          (SSetGlobal 1 WhatMain "x" one (SDefine 1 WhatMain "y" (SReturn []) (SReturn []))));
    ("end if redis.call('get','k') then error('again') end redis.call('set','k','1') function g()",
      fun name =>
        SDefine 1 WhatMain name (SReturn [])
          (SCallField 1 WhatMain "redis" "call" [LString "get"; LString "k"] (fun rs =>
             match rs with
             | [LBoolean false] =>
                 SCallField 1 WhatMain "redis" "call" [LString "set"; LString "k"; LString "1"]
                   (fun _ => SDefine 1 WhatMain "g" (SReturn []) (SReturn []))
             | _ => SError 1 "user_script:1: again"
             end)));
    ("for i = 1, 200000 do end",
      plain (SCount 1 6000 [AdminKill "ALL"] (SCount 1 6001 [] (SReturn []))));
    ("return math.random(1000000) end math.random() function g()",
      fun name =>
        SDefine 1 WhatMain name
          (SCallField 1 WhatLua "math" "random" [LNumber (lua_Number_of_Z 1000000)] SReturn)
          (SCallField 1 WhatMain "math" "random" [] (fun _ =>
             SDefine 1 WhatMain "g" (SReturn []) (SReturn []))))
  ].

Fixpoint lookup_script (body : string) (l : list (string * (string -> Script)))
  : option (string -> Script) :=
  match l with
  | [] => None
  | (b, c) :: l' => if String.eqb b body then Some c else lookup_script body l'
  end.

Definition lua_compile (funcdef : string) : string + Script :=
  let name := String.substring 9 42 funcdef in
  let body := String.substring 54 (String.length funcdef - 58) funcdef in
  match lookup_script body known_scripts with
  | Some chunk => inr (chunk name)
  | None => inl "user_script:1: syntax error"
  end.

Definition host : Host :=
  Build_Host lua_number2str lua_str2number REDIS_REPLY_NIL Db ProcessRedisCommand
    FindRedisCommandHandlerSetting ARDB_CMD_NOSCRIPT sha1_sum lua_compile library_globals
    luaL_argerror 0 6 5 4 2.
End Demo.
Section Bridge.

Context {host : Host}.

(** [lua_tolstring]: the string it returns, for a string and for a number. *)
Definition lua_tolstring (L : lua_Stack) (idx : Z) : option string :=
  match lua_at L idx with
  | Some (LString s) => Some s
  | Some (LNumber n) => Some (lua_number2str n)
  | _ => None
  end.

(** [lua_tolstring] turns a number into a string where it stands: the stack
    after [lua_tolstring(L, idx)]. *)
Definition lua_tolstring_stack (L : lua_Stack) (idx : Z) : lua_Stack :=
  match index2adr L idx with
  | Some i =>
      match L !! i with
      | Some (LNumber n) => <[i := LString (lua_number2str n)]> L
      | _ => L
      end
  | None => L
  end.

Definition lua_isstring (L : lua_Stack) (idx : Z) : bool :=
  match lua_type L idx with
  | LUA_TSTRING | LUA_TNUMBER => true
  | _ => false
  end.

Definition lua_tonumber (L : lua_Stack) (idx : Z) : lua_Number :=
  match lua_at L idx with
  | Some (LNumber n) => n
  | Some (LString s) => default (S754_zero false) (lua_str2number s)
  | _ => S754_zero false
  end.

Definition RedisReply_new : RedisReply := Build_RedisReply reply_type0 0 "" [].
Definition RedisReply_Clear (r : RedisReply) : RedisReply := RedisReply_new.

(** *** redisProtocolToLuaType (lines 44-100) *)

Definition UINT32_MOD : Z := 2 ^ 32.

(** The [for] loop of the array case: [j] is the [uint32] index, [es] the
    elements from [elements[j]] on. *)
Definition push_elements (convert : lua_Stack -> RedisReply -> res lua_Stack)
  : list RedisReply -> Z -> lua_Stack -> res lua_Stack :=
  fix loop (es : list RedisReply) (j : Z) (L : lua_Stack) : res lua_Stack :=
    match es with
    | [] => Ok L
    | e :: es' =>
        let L := lua_pushnumber L (lua_Number_of_Z ((j + 1) mod UINT32_MOD)) in
        L ← convert L e;
        L ← lua_settable L (-3);
        loop es' ((j + 1) mod UINT32_MOD) L
    end.

Fixpoint redisProtocolToLuaType (L : lua_Stack) (reply : RedisReply) : res lua_Stack :=
  match reply with
  | Build_RedisReply ty i s elems =>
      match ty with
      | REDIS_REPLY_INTEGER => Ok (lua_pushnumber L (lua_Number_of_Z i))
      | REDIS_REPLY_NIL => Ok (lua_pushboolean L false)
      | REDIS_REPLY_STRING => Ok (lua_pushlstring L s)
      | REDIS_REPLY_STATUS =>
          let L := lua_newtable L in
          let L := lua_pushstring L "ok" in
          let L := lua_pushlstring L s in
          lua_settable L (-3)
      | REDIS_REPLY_ERROR =>
          let L := lua_newtable L in
          let L := lua_pushstring L "err" in
          let L := lua_pushlstring L s in
          lua_settable L (-3)
      | REDIS_REPLY_ARRAY =>
          let L := lua_newtable L in
          push_elements redisProtocolToLuaType elems 0 L
      end
  end.

(** *** luaReplyToRedisReply (lines 184-273)

    [fuel] bounds the number of calls and loop iterations.  The counter
    [mbulklen] of the source is written and never read; it is left out. *)

Fixpoint luaReplyToRedisReply (fuel : nat) (L : lua_Stack) (reply : RedisReply)
  : res (lua_Stack * RedisReply) :=
  match fuel with
  | O => OutOfFuel
  | S fuel' =>
      match lua_type L (-1) with
      | LUA_TSTRING =>
          s ← of_option (lua_tolstring L (-1));
          let reply := set_str (str reply +:+ s) (set_type REDIS_REPLY_STRING reply) in
          L ← lua_pop L 1;
          Ok (L, reply)
      | LUA_TBOOLEAN =>
          let reply :=
            if lua_toboolean L (-1)
            then set_integer 1 (set_type REDIS_REPLY_INTEGER reply)
            else set_type REDIS_REPLY_NIL reply in
          L ← lua_pop L 1;
          Ok (L, reply)
      | LUA_TNUMBER =>
          i ← of_option (lua_Number_to_longlong (lua_tonumber L (-1)));
          let reply := set_integer i (set_type REDIS_REPLY_INTEGER reply) in
          L ← lua_pop L 1;
          Ok (L, reply)
      | LUA_TTABLE =>
          let L := lua_pushstring L "err" in
          L ← lua_gettable L (-2);
          if decide (lua_type L (-1) = LUA_TSTRING) then
            s ← of_option (lua_tolstring L (-1));
            let err := string_replace (c_str s) CRLF " " in
            let reply := set_str err (set_type REDIS_REPLY_ERROR reply) in
            L ← lua_pop L 2;
            Ok (L, reply)
          else
            L ← lua_pop L 1;
            let L := lua_pushstring L "ok" in
            L ← lua_gettable L (-2);
            if decide (lua_type L (-1) = LUA_TSTRING) then
              s ← of_option (lua_tolstring L (-1));
              let ok := string_replace (c_str s) CRLF " " in
              let reply := set_type REDIS_REPLY_STATUS (set_str ok reply) in
              L ← lua_pop L 1;
              L ← lua_pop L 1;
              Ok (L, reply)
            else
              L ← lua_pop L 1;
              let reply := set_type REDIS_REPLY_ARRAY reply in
              '(L, reply) ← reply_elements fuel' L reply 1;
              L ← lua_pop L 1;
              Ok (L, reply)
      | _ =>
          let reply := set_type REDIS_REPLY_NIL reply in
          L ← lua_pop L 1;
          Ok (L, reply)
      end
  end
with reply_elements (fuel : nat) (L : lua_Stack) (reply : RedisReply) (j : Z)
  : res (lua_Stack * RedisReply) :=
  match fuel with
  | O => OutOfFuel
  | S fuel' =>
      (* [j++] on an [int] *)
      if INT_MAX <=? j then Undef else
      let L := lua_pushnumber L (lua_Number_of_Z j) in
      L ← lua_gettable L (-2);
      if decide (lua_type L (-1) = LUA_TNIL) then
        L ← lua_pop L 1;
        Ok (L, reply)
      else
        '(L, r) ← luaReplyToRedisReply fuel' L RedisReply_new;
        reply_elements fuel' L (push_back r reply) (j + 1)
  end.

Inductive log_entry : Type :=
| LogSlowScript (func : option string) (elapsed : Z)
| LogScriptKilled
| LogMathMissing
| LogUser (level : Z) (msg : string).

(** What the bridge reads and writes of [ArdbServer] and of the connection:
    the interpreter of the connection, the store, the saved scripts, the time
    limit, the run context and reply of the connection, the static
    [m_killing_func], the user events fired and not delivered yet, the state of
    the shared generator, the clock, and what has been observed from
    outside: the commands handed to the executor, the log, the number of turns
    given to the I/O service. *)
Record ArdbServer : Type := {
  m_lua : lua_State;
  m_db : Db;
  m_scripts : gmap string string;
  lua_time_limit : Z;
  m_ctx : LuaRunContext;
  m_ctx_reply : RedisReply;
  m_killing_func : string;
  m_pending : list user_event;
  m_rand : Z;
  m_clock : Z;
  m_dispatched : list (string * list string);
  m_log : list log_entry;
  m_continues : nat
}.

Definition set_lua (f : lua_State -> lua_State) (s : ArdbServer) : ArdbServer :=
  Build_ArdbServer (f (m_lua s)) (m_db s) (m_scripts s) (lua_time_limit s) (m_ctx s)
    (m_ctx_reply s) (m_killing_func s) (m_pending s) (m_rand s) (m_clock s)
    (m_dispatched s) (m_log s) (m_continues s).
Definition set_db (db : Db) (s : ArdbServer) : ArdbServer :=
  Build_ArdbServer (m_lua s) db (m_scripts s) (lua_time_limit s) (m_ctx s)
    (m_ctx_reply s) (m_killing_func s) (m_pending s) (m_rand s) (m_clock s)
    (m_dispatched s) (m_log s) (m_continues s).
Definition set_scripts (f : gmap string string -> gmap string string) (s : ArdbServer)
  : ArdbServer :=
  Build_ArdbServer (m_lua s) (m_db s) (f (m_scripts s)) (lua_time_limit s) (m_ctx s)
    (m_ctx_reply s) (m_killing_func s) (m_pending s) (m_rand s) (m_clock s)
    (m_dispatched s) (m_log s) (m_continues s).
Definition set_ctx (f : LuaRunContext -> LuaRunContext) (s : ArdbServer) : ArdbServer :=
  Build_ArdbServer (m_lua s) (m_db s) (m_scripts s) (lua_time_limit s) (f (m_ctx s))
    (m_ctx_reply s) (m_killing_func s) (m_pending s) (m_rand s) (m_clock s)
    (m_dispatched s) (m_log s) (m_continues s).
Definition set_ctx_reply (r : RedisReply) (s : ArdbServer) : ArdbServer :=
  Build_ArdbServer (m_lua s) (m_db s) (m_scripts s) (lua_time_limit s) (m_ctx s)
    r (m_killing_func s) (m_pending s) (m_rand s) (m_clock s)
    (m_dispatched s) (m_log s) (m_continues s).
Definition set_killing_func (n : string) (s : ArdbServer) : ArdbServer :=
  Build_ArdbServer (m_lua s) (m_db s) (m_scripts s) (lua_time_limit s) (m_ctx s)
    (m_ctx_reply s) n (m_pending s) (m_rand s) (m_clock s)
    (m_dispatched s) (m_log s) (m_continues s).
Definition set_pending (p : list user_event) (s : ArdbServer) : ArdbServer :=
  Build_ArdbServer (m_lua s) (m_db s) (m_scripts s) (lua_time_limit s) (m_ctx s)
    (m_ctx_reply s) (m_killing_func s) p (m_rand s) (m_clock s)
    (m_dispatched s) (m_log s) (m_continues s).
Definition set_rand (x : Z) (s : ArdbServer) : ArdbServer :=
  Build_ArdbServer (m_lua s) (m_db s) (m_scripts s) (lua_time_limit s) (m_ctx s)
    (m_ctx_reply s) (m_killing_func s) (m_pending s) x (m_clock s)
    (m_dispatched s) (m_log s) (m_continues s).
Definition set_clock (t : Z) (s : ArdbServer) : ArdbServer :=
  Build_ArdbServer (m_lua s) (m_db s) (m_scripts s) (lua_time_limit s) (m_ctx s)
    (m_ctx_reply s) (m_killing_func s) (m_pending s) (m_rand s) t
    (m_dispatched s) (m_log s) (m_continues s).
Definition add_dispatched (c : string * list string) (s : ArdbServer) : ArdbServer :=
  Build_ArdbServer (m_lua s) (m_db s) (m_scripts s) (lua_time_limit s) (m_ctx s)
    (m_ctx_reply s) (m_killing_func s) (m_pending s) (m_rand s) (m_clock s)
    (m_dispatched s ++ [c]) (m_log s) (m_continues s).
Definition add_log (e : log_entry) (s : ArdbServer) : ArdbServer :=
  Build_ArdbServer (m_lua s) (m_db s) (m_scripts s) (lua_time_limit s) (m_ctx s)
    (m_ctx_reply s) (m_killing_func s) (m_pending s) (m_rand s) (m_clock s)
    (m_dispatched s) (m_log s ++ [e]) (m_continues s).
Definition add_continue (s : ArdbServer) : ArdbServer :=
  Build_ArdbServer (m_lua s) (m_db s) (m_scripts s) (lua_time_limit s) (m_ctx s)
    (m_ctx_reply s) (m_killing_func s) (m_pending s) (m_rand s) (m_clock s)
    (m_dispatched s) (m_log s) (S (m_continues s)).

Definition set_stack (L : lua_Stack) (l : lua_State) : lua_State :=
  Build_lua_State L (globals l) (code l) (strict l) (hook l) (gc_steps l).
Definition set_globals (g : gmap string LuaValue) (l : lua_State) : lua_State :=
  Build_lua_State (stack l) g (code l) (strict l) (hook l) (gc_steps l).
Definition set_code (c : gmap string Script) (l : lua_State) : lua_State :=
  Build_lua_State (stack l) (globals l) c (strict l) (hook l) (gc_steps l).
Definition set_strict (b : bool) (l : lua_State) : lua_State :=
  Build_lua_State (stack l) (globals l) (code l) b (hook l) (gc_steps l).
Definition set_hook (h : option Z) (l : lua_State) : lua_State :=
  Build_lua_State (stack l) (globals l) (code l) (strict l) h (gc_steps l).
Definition gc_step (l : lua_State) : lua_State :=
  Build_lua_State (stack l) (globals l) (code l) (strict l) (hook l) (S (gc_steps l)).

Definition set_time_start (t : Z) (c : LuaRunContext) : LuaRunContext :=
  Build_LuaRunContext t (lua_executing_func c) (lua_timeout c) (lua_kill c).
Definition set_executing_func (f : option string) (c : LuaRunContext) : LuaRunContext :=
  Build_LuaRunContext (lua_time_start c) f (lua_timeout c) (lua_kill c).
Definition set_timeout (b : bool) (c : LuaRunContext) : LuaRunContext :=
  Build_LuaRunContext (lua_time_start c) (lua_executing_func c) b (lua_kill c).
Definition set_kill (b : bool) (c : LuaRunContext) : LuaRunContext :=
  Build_LuaRunContext (lua_time_start c) (lua_executing_func c) (lua_timeout c) b.

(** ** The native functions *)

(** [lua_Debug] of the function that called a native function: what
    [lua_getstack(lua, 1, &dbg) && lua_getinfo(lua, "nSl", &dbg)] finds. *)
Record lua_Debug : Type := { source : string; currentline : Z }.

(** What a native function hands back to the interpreter: the [int] it
    returns, or the error it raises with [lua_error]. *)
Inductive native_result : Type :=
| NReturn (n : Z)
| NRaise (msg : string).

Definition native : Type :=
  option lua_Debug -> lua_Stack -> ArdbServer -> res (native_result * lua_Stack * ArdbServer).

Definition lua_pushvalue (L : lua_Stack) (idx : Z) : res lua_Stack :=
  v ← of_option (lua_at L idx); Ok (v :: L).

Definition lua_typename (t : lua_type_tag) : string :=
  match t with
  | LUA_TNONE => "no value"
  | LUA_TNIL => "nil"
  | LUA_TBOOLEAN => "boolean"
  | LUA_TNUMBER => "number"
  | LUA_TSTRING => "string"
  | LUA_TTABLE => "table"
  | LUA_TFUNCTION => "function"
  end.

Definition lua_isnumber (L : lua_Stack) (idx : Z) : bool :=
  match lua_at L idx with
  | Some (LNumber _) => true
  | Some (LString s) => bool_decide (is_Some (lua_str2number s))
  | _ => false
  end.

(** luaPushError (lines 163-182) *)
Definition luaPushError (L : lua_Stack) (ar : option lua_Debug) (error : string)
  : res lua_Stack :=
  let L := lua_newtable L in
  let L := lua_pushstring L "err" in
  let L :=
    match ar with
    | Some dbg =>
        let tmp :=
          snprintf (MAX_LUA_STR_SIZE - 1)
            (c_str (source dbg) +:+ ": " +:+ pretty (currentline dbg) +:+ ": " +:+ c_str error) in
        lua_pushstring L tmp
    | None => lua_pushstring L error
    end in
  lua_settable L (-3).

(** The loop that builds the arguments vector (lines 354-361): [n] iterations
    remain, [j] is the index reached.  It hands back the index at which it
    stops, the vector, and the stack, in which [lua_tostring] has turned the
    numbers it has read into strings. *)
Fixpoint build_cmdargs_loop (L : lua_Stack) (n : nat) (j : Z) (cmdargs : list string)
  : Z * list string * lua_Stack :=
  match n with
  | O => (j, cmdargs, L)
  | S n' =>
      if lua_isstring L (j + 1) then
        match lua_tolstring L (j + 1) with
        | Some arg =>
            build_cmdargs_loop (lua_tolstring_stack L (j + 1)) n' (j + 1) (cmdargs ++ [arg])
        | None => (j, cmdargs, L)
        end
      else (j, cmdargs, L)
  end.

(** The index at which the loop stops and the vector it has built. *)
Definition build_cmdargs (L : lua_Stack) (n : nat) (j : Z) (cmdargs : list string)
  : Z * list string :=
  fst (build_cmdargs_loop L n j cmdargs).

(** Modelled from the spec: [RedisCommandFrame], declared outside src/: the
    first argument is the command name, the others its arguments. *)
Definition RedisCommandFrame (cmdargs : list string) : string * list string :=
  match cmdargs with
  | [] => (EmptyString, [])
  | c :: rest => (c, rest)
  end.

(** CallArdb (lines 341-415) *)
Definition CallArdb (raise_error : bool) : native := fun ar L srv =>
  let argc := lua_gettop L in
  if argc =? 0 then
    L ← luaPushError L ar "Please specify at least one argument for redis.call()";
    Ok (NReturn 1, L, srv)
  else
    let '(j, cmdargs, L) := build_cmdargs_loop L (Z.to_nat argc) 0 [] in
    if negb (j =? argc) then
      L ← luaPushError L ar "Lua redis() command arguments must be strings or integers";
      Ok (NReturn 1, L, srv)
    else
      let '(name, args) := RedisCommandFrame cmdargs in
      let cmd := lower_string name in
      match FindRedisCommandHandlerSetting cmd with
      | None =>
          L ← luaPushError L ar "Unknown Redis command called from Lua script";
          Ok (NReturn (-1), L, srv)
      | Some flags =>
          if negb (Z.land flags ARDB_CMD_NOSCRIPT =? 0) then
            L ← luaPushError L ar "This Redis command is not allowed from scripts";
            Ok (NReturn (-1), L, srv)
          else
            let '(db, reply) := ProcessRedisCommand (m_db srv) cmd args in
            let srv := set_ctx_reply reply (add_dispatched (cmd, args) (set_db db srv)) in
            let raise_error :=
              if (raise_error && negb (bool_decide (reply_type reply = REDIS_REPLY_ERROR)))%bool
              then false else raise_error in
            L ← redisProtocolToLuaType L reply;
            if raise_error then
              let L := lua_pushstring L "err" in
              L ← lua_gettable L (-2);
              match L with
              | LString msg :: _ => Ok (NRaise msg, L, srv)
              | _ => Undef
              end
            else Ok (NReturn 1, L, srv)
      end.

(** PCall and Call (lines 417-425) *)
Definition PCall : native := CallArdb true.
Definition Call : native := CallArdb false.

(** ReturnSingleFieldTable, ErrorReplyCommand, StatusReplyCommand (lines 487-509) *)
Definition ReturnSingleFieldTable (field : string) : native := fun ar L srv =>
  if (negb (lua_gettop L =? 1) || negb (bool_decide (lua_type L (-1) = LUA_TSTRING)))%bool
  then
    L ← luaPushError L ar "wrong number or type of arguments";
    Ok (NReturn 1, L, srv)
  else
    let L := lua_newtable L in
    let L := lua_pushstring L field in
    L ← lua_pushvalue L (-3);
    L ← lua_settable L (-3);
    Ok (NReturn 1, L, srv).

Definition ErrorReplyCommand : native := ReturnSingleFieldTable "err".
Definition StatusReplyCommand : native := ReturnSingleFieldTable "ok".

(** SHA1Hex (lines 469-485) *)
Definition SHA1Hex : native := fun ar L srv =>
  if negb (lua_gettop L =? 1) then
    L ← luaPushError L ar "wrong number of arguments";
    Ok (NReturn 1, L, srv)
  else
    s ← of_option (lua_tolstring L 1);
    let L := lua_tolstring_stack L 1 in
    Ok (NReturn 1, lua_pushstring L (sha1_sum s), srv).

(** [luaL_where]: the position of the calling function, as messages show
    it: the chunk name without its leading [@], and the line. *)
Definition chunkid (source : string) : string :=
  match source with
  | String "@" rest => rest
  | _ => source
  end.

Definition luaL_where (ar : option lua_Debug) : string :=
  match ar with
  | Some dbg => chunkid (source dbg) +:+ ":" +:+ pretty (currentline dbg) +:+ ": "
  | None => EmptyString
  end.

(** [luaL_checkint(L, narg)]: the message of the error it raises, or the [int]. *)
Definition luaL_checkint (L : lua_Stack) (narg : Z) : res (string + Z) :=
  if lua_isnumber L narg then
    z ← of_option (lua_Number_to_longlong (lua_tonumber L narg));
    Ok (inr (wrap_int32 z))
  else
    Ok (inl (luaL_argerror narg
               ("number expected, got " +:+ lua_typename (lua_type L narg)))).

(** MathRandom and MathRandomSeed (lines 510-546) *)
Definition MathRandom : native := fun ar L srv =>
  let '(x, seed) := redisLrand48 (m_rand srv) in
  let srv := set_rand seed srv in
  let r := lua_Number_div (lua_Number_of_Z (x mod REDIS_LRAND48_MAX))
             (lua_Number_of_Z REDIS_LRAND48_MAX) in
  match lua_gettop L with
  | 0 => Ok (NReturn 1, lua_pushnumber L r, srv)
  | 1 =>
      c ← luaL_checkint L 1;
      match c with
      | inl msg => Ok (NRaise msg, L, srv)
      | inr u =>
          if 1 <=? u then
            let v := lua_Number_add
                       (lua_Number_floor (lua_Number_mul r (lua_Number_of_Z u)))
                       (lua_Number_of_Z 1) in
            Ok (NReturn 1, lua_pushnumber L v, srv)
          else Ok (NRaise (luaL_argerror 1 "interval is empty"), L, srv)
      end
  | 2 =>
      c1 ← luaL_checkint L 1;
      match c1 with
      | inl msg => Ok (NRaise msg, L, srv)
      | inr l =>
          c2 ← luaL_checkint L 2;
          match c2 with
          | inl msg => Ok (NRaise msg, L, srv)
          | inr u =>
              if l <=? u then
                if (in_int_range (u - l) && in_int_range (u - l + 1))%bool then
                  let v := lua_Number_add
                             (lua_Number_floor
                                (lua_Number_mul r (lua_Number_of_Z (u - l + 1))))
                             (lua_Number_of_Z l) in
                  Ok (NReturn 1, lua_pushnumber L v, srv)
                else Undef
              else Ok (NRaise (luaL_argerror 2 "interval is empty"), L, srv)
          end
      end
  | _ => Ok (NRaise (luaL_where ar +:+ "wrong number of arguments"), L, srv)
  end.

Definition MathRandomSeed : native := fun ar L srv =>
  c ← luaL_checkint L 1;
  match c with
  | inl msg => Ok (NRaise msg, L, srv)
  | inr seed => Ok (NReturn 0, L, set_rand (redisSrand48 seed) srv)
  end.

(** Log (lines 427-467).  The loop that glues the arguments hands back the
    text and the stack, in which [lua_tolstring] has turned the numbers it has
    read into strings. *)
Fixpoint glue_log (L : lua_Stack) (argc : Z) (n : nat) (j : Z) (log : string)
  : string * lua_Stack :=
  match n with
  | O => (log, L)
  | S n' =>
      let log :=
        match lua_tolstring L (- argc + j) with
        | Some s => (if j =? 1 then log else log +:+ " ") +:+ s
        | None => log
        end in
      glue_log (lua_tolstring_stack L (- argc + j)) argc n' (j + 1) log
  end.

Definition Log : native := fun ar L srv =>
  let argc := lua_gettop L in
  if argc <? 2 then
    L ← luaPushError L ar "redis.log() requires two arguments or more.";
    Ok (NReturn 1, L, srv)
  else if negb (lua_isnumber L (- argc)) then
    L ← luaPushError L ar "First argument must be a number (log level).";
    Ok (NReturn 1, L, srv)
  else
    match lua_Number_trunc (lua_tonumber L (- argc)) with
    | Some level =>
        if in_int_range level then
          if ((level <? FATAL_LOG_LEVEL) || (TRACE_LOG_LEVEL <? level))%bool then
            L ← luaPushError L ar "Invalid debug level.";
            Ok (NReturn 1, L, srv)
          else
            let '(log, L) := glue_log L argc (Z.to_nat (argc - 1)) 1 EmptyString in
            Ok (NReturn 0, L, add_log (LogUser level (c_str log)) srv)
        else Undef
    | None => Undef
    end.

(** The function a [lua_CFunction] value runs. *)
Definition run_native (f : lua_CFunction) : native :=
  match f with
  | FnCall => Call
  | FnPCall => PCall
  | FnLog => Log
  | FnSHA1Hex => SHA1Hex
  | FnErrorReplyCommand => ErrorReplyCommand
  | FnStatusReplyCommand => StatusReplyCommand
  | FnMathRandom => MathRandom
  | FnMathRandomSeed => MathRandomSeed
  end.

(** ** Globals and their protection *)

Definition rawget (g : gmap string LuaValue) (n : string) : LuaValue :=
  default LNil (g !! n).

Definition rawset (g : gmap string LuaValue) (n : string) (v : LuaValue)
  : gmap string LuaValue :=
  match v with
  | LNil => delete n g
  | _ => <[n := v]> g
  end.

(** The metamethods that scriptingEnableGlobalsProtection (lines 122-155)
    installs on [_G].  [caller] is [debug.getinfo(2)]: the kind of the frame
    that touches the global, or nothing when the host does;
    [where_] is the position that [error(..., 2)] puts before the message. *)
Definition mt__newindex (caller : option frame_what) (where_ : string)
    (g : gmap string LuaValue) (n : string) (v : LuaValue)
  : string + gmap string LuaValue :=
  match caller with
  | Some w =>
      if (negb (bool_decide (w = WhatMain)) && negb (bool_decide (w = WhatC)))%bool
      then inl (where_ +:+ "Script attempted to create global variable '" +:+ n +:+ "'")
      else inr (rawset g n v)
  | None => inr (rawset g n v)
  end.

Definition mt__index (caller : option frame_what) (where_ : string)
    (g : gmap string LuaValue) (n : string) : string + LuaValue :=
  match caller with
  | Some w =>
      if negb (bool_decide (w = WhatC))
      then inl (where_ +:+ "Script attempted to access unexisting global variable '"
                +:+ n +:+ "'")
      else inr (rawget g n)
  | None => inr (rawget g n)
  end.

(** A read and a write of a global by a frame of kind [caller]: the
    metamethods run for a name that is not bound, once [_G] is protected. *)
Definition global_get (l : lua_State) (caller : option frame_what) (where_ : string)
    (n : string) : string + LuaValue :=
  match globals l !! n with
  | Some v => inr v
  | None => if strict l then mt__index caller where_ (globals l) n else inr LNil
  end.

Definition global_set (l : lua_State) (caller : option frame_what) (where_ : string)
    (n : string) (v : LuaValue) : string + lua_State :=
  match globals l !! n with
  | Some _ => inr (set_globals (rawset (globals l) n v) l)
  | None =>
      if strict l then
        match mt__newindex caller where_ (globals l) n v with
        | inl msg => inl msg
        | inr g => inr (set_globals g l)
        end
      else inr (set_globals (rawset (globals l) n v) l)
  end.

(** [lua_getglobal] and [lua_setglobal], called by the host. *)
Definition lua_getglobal (l : lua_State) (n : string) : res lua_State :=
  match global_get l None EmptyString n with
  | inr v => Ok (set_stack (v :: stack l) l)
  | inl _ => Undef
  end.

Definition lua_setglobal (l : lua_State) (n : string) : res lua_State :=
  match stack l with
  | v :: rest =>
      match global_set (set_stack rest l) None EmptyString n v with
      | inr l' => Ok l'
      | inl _ => Undef
      end
  | [] => Undef
  end.

(** ** Cancellation *)

Definition UINT64_MOD : Z := 2 ^ 64.

(** Kill and Flush (lines 798-809), called by another thread. *)
Definition Flush (srv : ArdbServer) : ArdbServer :=
  set_pending (m_pending srv ++ [SCRIPT_FLUSH_EVENT]) srv.

Definition Kill (funcname : string) (srv : ArdbServer) : ArdbServer :=
  set_pending (m_pending srv ++ [SCRIPT_KILL_EVENT]) (set_killing_func funcname srv).

Definition do_admin (a : admin_action) (srv : ArdbServer) : ArdbServer :=
  match a with
  | AdminKill f => Kill f srv
  | AdminFlush => Flush srv
  end.

(** The [SCRIPT_KILL_EVENT] case of ScriptEventCallback (lines 829-840). *)
Definition on_kill_event (srv : ArdbServer) : ArdbServer :=
  match lua_executing_func (m_ctx srv) with
  | Some f =>
      if ((strcasecmp (m_killing_func srv) "all" =? 0)
          || (strcasecmp (m_killing_func srv) f =? 0))%bool
      then set_ctx (set_kill true) srv
      else srv
  | None => srv
  end.

(** ** Interpreter setup: Init (lines 573-670) *)

Definition lua_pushcfunction (L : lua_Stack) (f : lua_CFunction) : lua_Stack :=
  LCFunction f :: L.

(** [lua_pushstring(name); push v; lua_settable(-3)] *)
Definition set_field (name : string) (v : LuaValue) (L : lua_Stack) : res lua_Stack :=
  lua_settable (v :: lua_pushstring L name) (-3).

Definition on_stack (f : lua_Stack -> res lua_Stack) (l : lua_State) : res lua_State :=
  L ← f (stack l); Ok (set_stack L l).

Definition lua_open : lua_State := Build_lua_State [] ∅ ∅ false None O.

(** LoadLibs (lines 320-332): the libraries define their globals. *)
Definition LoadLibs (l : lua_State) : lua_State := set_globals library_globals l.

(** RemoveUnsupportedFunctions (lines 334-339) *)
Definition RemoveUnsupportedFunctions (l : lua_State) : res lua_State :=
  lua_setglobal (set_stack (LNil :: stack l) l) "loadfile".

(** The name under which the error handler is defined, and what the handler
    (lines 653-663) returns for the error [err]; [i] is the debug record of
    the Lua function in which the error was raised. *)
Definition ERR_HANDLER : string := "__redis__err__handler".

Definition redis_err_handler (i : option lua_Debug) (err : string) : string :=
  match i with
  | Some dbg => source dbg +:+ ":" +:+ pretty (currentline dbg) +:+ ": " +:+ err
  | None => err
  end.

(** scriptingEnableGlobalsProtection (lines 122-155): from now on the
    metamethods [mt__newindex] and [mt__index] guard [_G]. *)
Definition scriptingEnableGlobalsProtection (l : lua_State) : lua_State :=
  set_strict true l.

Definition Init : res lua_State :=
  let l := LoadLibs lua_open in
  l ← RemoveUnsupportedFunctions l;
  l ← on_stack (fun L =>
         let L := lua_newtable L in
         L ← set_field "call" (LCFunction FnCall) L;
         L ← set_field "pcall" (LCFunction FnPCall) L;
         L ← set_field "log" (LCFunction FnLog) L;
         L ← set_field "LOG_DEBUG" (LNumber (lua_Number_of_Z DEBUG_LOG_LEVEL)) L;
         L ← set_field "LOG_VERBOSE" (LNumber (lua_Number_of_Z TRACE_LOG_LEVEL)) L;
         L ← set_field "LOG_NOTICE" (LNumber (lua_Number_of_Z INFO_LOG_LEVEL)) L;
         L ← set_field "LOG_WARNING" (LNumber (lua_Number_of_Z WARN_LOG_LEVEL)) L;
         L ← set_field "sha1hex" (LCFunction FnSHA1Hex) L;
         L ← set_field "error_reply" (LCFunction FnErrorReplyCommand) L;
         set_field "status_reply" (LCFunction FnStatusReplyCommand) L) l;
  l ← lua_setglobal l "redis";
  l ← lua_getglobal l "redis";
  l ← lua_setglobal l "ardb";
  l ← lua_getglobal l "math";
  l ← on_stack (fun L =>
         L ← set_field "random" (LCFunction FnMathRandom) L;
         set_field "randomseed" (LCFunction FnMathRandomSeed) L) l;
  l ← lua_setglobal l "math";
  let l := set_globals (<[ERR_HANDLER := LFunction ERR_HANDLER]> (globals l)) l in
  Ok (scriptingEnableGlobalsProtection l).

(** ** The script store

    Modelled from the spec: [SaveScript], [GetScript] and [FlushScripts] of the
    store, which are not under src/ ("Save(name, body)", "Get(name) -> body |
    NotFound", "FlushAll()").  [GetScript] returns 0 when there is a record,
    which is how Exists (line 780) reads it. *)
Definition SaveScript (name body : string) (srv : ArdbServer) : ArdbServer :=
  set_scripts (fun m => <[name := body]> m) srv.

Definition GetScript (srv : ArdbServer) (name : string) : Z * string :=
  match m_scripts srv !! name with
  | Some body => (0, body)
  | None => (-1, EmptyString)
  end.

Definition FlushScripts (srv : ArdbServer) : ArdbServer :=
  set_scripts (fun _ => ∅) srv.

(** ScriptEventCallback (lines 811-846), on the thread of the connection.
    Reset (lines 792-796) closes the interpreter: inside a run that is the
    interpreter the run is using. *)
Definition ScriptEventCallback (ev : user_event) (srv : ArdbServer) : res ArdbServer :=
  match ev with
  | SCRIPT_FLUSH_EVENT =>
      match lua_executing_func (m_ctx srv) with
      | Some _ => Undef
      | None => l ← Init; Ok (FlushScripts (set_lua (fun _ => l) srv))
      end
  | SCRIPT_KILL_EVENT => Ok (on_kill_event srv)
  end.

(** [GetService().Continue()]: one turn of the I/O service, which delivers the
    user events fired so far. *)
Fixpoint deliver (evs : list user_event) (srv : ArdbServer) : res ArdbServer :=
  match evs with
  | [] => Ok srv
  | ev :: evs' => srv ← ScriptEventCallback ev srv; deliver evs' srv
  end.

Definition Continue (srv : ArdbServer) : res ArdbServer :=
  srv' ← deliver (m_pending srv) (set_pending [] srv);
  Ok (add_continue srv').

Definition KILLED_MSG : string := "Script killed by user with SCRIPT KILL...".

(** MaskCountHook (lines 548-571): the error it raises, if any. *)
Definition MaskCountHook (srv : ArdbServer) : res (option string * ArdbServer) :=
  let elapsed := (m_clock srv - lua_time_start (m_ctx srv)) mod UINT64_MOD in
  let srv :=
    if ((lua_time_limit srv mod UINT64_MOD <=? elapsed)
        && negb (lua_timeout (m_ctx srv)))%bool
    then set_ctx (set_timeout true)
           (add_log (LogSlowScript (lua_executing_func (m_ctx srv)) elapsed) srv)
    else srv in
  srv ← (if lua_timeout (m_ctx srv) then Continue srv else Ok srv);
  if lua_kill (m_ctx srv)
  then Ok (Some KILLED_MSG, add_log LogScriptKilled srv)
  else Ok (None, srv).

(** ** Running a script *)

Definition USER_SCRIPT : string := "@user_script".

Definition script_dbg (line : Z) : lua_Debug :=
  {| source := USER_SCRIPT; currentline := line |}.

(** How a run ends: the function returns, an error is raised, or a native
    function returns a negative count (the value of [lua_yield]), on which the
    interpreter leaves the running function where it is, with the stack of the
    native function. *)
Inductive run_result : Type :=
| Returned (vs : list LuaValue)
| Raised (ar : option lua_Debug) (msg : string)
| Yielded (L : lua_Stack).

Fixpoint exec (s : Script) (srv : ArdbServer) : res (run_result * ArdbServer) :=
  match s with
  | SReturn vs => Ok (Returned vs, srv)
  | SError line msg => Ok (Raised (Some (script_dbg line)) msg, srv)
  | SGetGlobal line what n k =>
      match global_get (m_lua srv) (Some what) (luaL_where (Some (script_dbg line))) n with
      | inr v => exec (k v) srv
      | inl msg => Ok (Raised (Some (script_dbg line)) msg, srv)
      end
  | SSetGlobal line what n v k =>
      match global_set (m_lua srv) (Some what) (luaL_where (Some (script_dbg line))) n v with
      | inr l => exec k (set_lua (fun _ => l) srv)
      | inl msg => Ok (Raised (Some (script_dbg line)) msg, srv)
      end
  | SDefine line what n body k =>
      match global_set (m_lua srv) (Some what) (luaL_where (Some (script_dbg line)))
              n (LFunction n) with
      | inr l => exec k (set_lua (fun _ => set_code (<[n := body]> (code l)) l) srv)
      | inl msg => Ok (Raised (Some (script_dbg line)) msg, srv)
      end
  | SCallField line what tbl field args k =>
      match global_get (m_lua srv) (Some what) (luaL_where (Some (script_dbg line))) tbl with
      | inl msg => Ok (Raised (Some (script_dbg line)) msg, srv)
      | inr (LTable t) =>
          match t !! KStr field with
          | Some (LCFunction f) =>
              r ← run_native f (Some (script_dbg line)) (rev args) srv;
              match r with
              | (NReturn n, L, srv) =>
                  if n <? 0 then Ok (Yielded L, srv)
                  else exec (k (rev (take (Z.to_nat n) L))) srv
              | (NRaise msg, _, srv) => Ok (Raised (Some (script_dbg line)) msg, srv)
              end
          | Some (LFunction _) => Undef
          | Some v =>
              Ok (Raised (Some (script_dbg line))
                    (luaL_where (Some (script_dbg line)) +:+ "attempt to call field '"
                     +:+ field +:+ "' (a " +:+ lua_typename (type_of v) +:+ " value)"), srv)
          | None =>
              Ok (Raised (Some (script_dbg line))
                    (luaL_where (Some (script_dbg line)) +:+ "attempt to call field '"
                     +:+ field +:+ "' (a nil value)"), srv)
          end
      | inr v =>
          Ok (Raised (Some (script_dbg line))
                (luaL_where (Some (script_dbg line)) +:+ "attempt to index global '"
                 +:+ tbl +:+ "' (a " +:+ lua_typename (type_of v) +:+ " value)"), srv)
      end
  | SCount line now actions k =>
      let srv := set_clock now (fold_left (fun s a => do_admin a s) actions srv) in
      match hook (m_lua srv) with
      | Some _ =>
          r ← MaskCountHook srv;
          match r with
          | (Some msg, srv) => Ok (Raised (Some (script_dbg line)) msg, srv)
          | (None, srv) => exec k srv
          end
      | None => exec k srv
      end
  end.

(** Calling the value on top of the stack with no argument. *)
Definition call_value (f : LuaValue) (srv : ArdbServer) : res (run_result * ArdbServer) :=
  match f with
  | LFunction name =>
      match code (m_lua srv) !! name with
      | Some body => exec body srv
      | None => Undef
      end
  | LCFunction c =>
      r ← run_native c None [] srv;
      match r with
      | (NReturn n, L, srv) =>
          if n <? 0 then Ok (Yielded L, srv)
          else Ok (Returned (rev (take (Z.to_nat n) L)), srv)
      | (NRaise msg, _, srv) => Ok (Raised None msg, srv)
      end
  | v => Ok (Raised None ("attempt to call a " +:+ lua_typename (type_of v) +:+ " value"), srv)
  end.

Definition LUA_ERRRUN : Z := 2.
Definition LUA_ERRSYNTAX : Z := 3.
Definition LUA_ERRERR : Z := 5.

(** The results of a call adjusted to [nresults] values, the last on top. *)
Definition adjust_results (nresults : nat) (vs : list LuaValue) : lua_Stack :=
  rev (take nresults (vs ++ replicate nresults LNil)).

(** [lua_pcall(L, 0, nresults, errfunc)]: the function on top of the stack is
    called in protected mode; [errfunc] is 0 or the index of the handler. *)
Definition lua_pcall (nresults : nat) (errfunc : Z) (srv : ArdbServer)
  : res (Z * ArdbServer) :=
  match stack (m_lua srv) with
  | f :: rest =>
      let handler := if errfunc =? 0 then None else lua_at (stack (m_lua srv)) errfunc in
      r ← call_value f (set_lua (set_stack rest) srv);
      match r with
      | (Returned vs, srv) =>
          Ok (0, set_lua (fun l => set_stack (adjust_results nresults vs ++ stack l) l) srv)
      | (Yielded L, srv) =>
          Ok (0, set_lua (fun l => set_stack (L ++ stack l) l) srv)
      | (Raised ar msg, srv) =>
          match handler with
          | None =>
              Ok (LUA_ERRRUN, set_lua (fun l => set_stack (LString msg :: stack l) l) srv)
          | Some (LFunction h) =>
              if String.eqb h ERR_HANDLER then
                Ok (LUA_ERRRUN,
                    set_lua (fun l => set_stack (LString (redis_err_handler ar msg) :: stack l) l)
                      srv)
              else Undef
          | Some _ =>
              Ok (LUA_ERRERR,
                  set_lua (fun l => set_stack (LString "error in error handling" :: stack l) l)
                    srv)
          end
      end
  | [] => Undef
  end.

(** [luaL_loadbuffer]: the chunk, or the message of the compiler, is pushed. *)
Definition luaL_loadbuffer (l : lua_State) (buff name : string) : Z * lua_State :=
  match lua_compile buff with
  | inr chunk =>
      (0, set_stack (LFunction name :: stack l) (set_code (<[name := chunk]> (code l)) l))
  | inl msg => (LUA_ERRSYNTAX, set_stack (LString msg :: stack l) l)
  end.

Definition NEWLINE : string := String "010" EmptyString.

(** CreateLuaFunction (lines 292-318): the returned [int], [err] and the state. *)
Definition CreateLuaFunction (funcname body err : string) (srv : ArdbServer)
  : res (Z * string * ArdbServer) :=
  let funcdef := "function " +:+ funcname +:+ "() " +:+ body +:+ " end" in
  let '(st, l) := luaL_loadbuffer (m_lua srv) funcdef USER_SCRIPT in
  let srv := set_lua (fun _ => l) srv in
  if negb (st =? 0) then
    msg ← of_option (lua_tolstring (stack (m_lua srv)) (-1));
    let err := err +:+ "Error compiling script (new function): " +:+ c_str msg +:+ NEWLINE in
    L ← lua_pop (stack (m_lua srv)) 1;
    Ok (-1, err, set_lua (set_stack L) srv)
  else
    '(st, srv) ← lua_pcall 0 0 srv;
    if negb (st =? 0) then
      msg ← of_option (lua_tolstring (stack (m_lua srv)) (-1));
      let err := err +:+ "Error running script (new function): " +:+ c_str msg +:+ NEWLINE in
      L ← lua_pop (stack (m_lua srv)) 1;
      Ok (-1, err, set_lua (set_stack L) srv)
    else
      Ok (0, err, SaveScript funcname body srv).

(** ** The EVAL/EVALSHA engine *)

Definition lua_isnil (L : lua_Stack) (idx : Z) : bool :=
  bool_decide (lua_type L idx = LUA_TNIL).

(** [lua_rawseti(L, idx, n)]: [t[n] = v] for the value on top, which is popped. *)
Definition lua_rawseti (L : lua_Stack) (idx : Z) (n : Z) : res lua_Stack :=
  match L, index2adr L idx with
  | v :: _, Some i =>
      match L !! i with
      | Some (LTable t) =>
          let t' := match v with LNil => delete (KInt n) t | _ => <[KInt n := v]> t end in
          Ok (drop 1 (<[i := LTable t']> L))
      | _ => Undef
      end
  | _, _ => Undef
  end.

(** luaSetGlobalArray (lines 104-115); [j] is the [uint32] index. *)
Fixpoint set_array_elements (elev : list string) (j : Z) (L : lua_Stack) : res lua_Stack :=
  match elev with
  | [] => Ok L
  | e :: elev' =>
      let L := lua_pushlstring L e in
      L ← lua_rawseti L (-2) (wrap_int32 ((j + 1) mod UINT32_MOD));
      set_array_elements elev' ((j + 1) mod UINT32_MOD) L
  end.

Definition luaSetGlobalArray (l : lua_State) (var : string) (elev : list string)
  : res lua_State :=
  l ← on_stack (fun L => set_array_elements elev 0 (lua_newtable L)) l;
  lua_setglobal l (c_str var).

Definition NOSCRIPT_MSG : string := "-NOSCRIPT No matching script. Please use EVAL.".

Definition string_drop (n : nat) (s : string) : string :=
  String.substring n (String.length s - n) s.

(** The part of Eval that defines the function (lines 718-725): the early
    return of Eval, or the state with the function pushed. *)
Definition Eval_define (funcname body : string) (reply : RedisReply) (srv : ArdbServer)
  : res ((Z * RedisReply * ArdbServer) + ArdbServer) :=
  '(rc, err, srv) ← CreateLuaFunction funcname body EmptyString srv;
  if negb (rc =? 0) then
    let reply := set_str err (set_type REDIS_REPLY_ERROR reply) in
    L ← lua_pop (stack (m_lua srv)) 1;
    Ok (inl (-1, reply, set_lua (set_stack L) srv))
  else
    l ← lua_getglobal (m_lua srv) (c_str funcname);
    Ok (inr (set_lua (fun _ => l) srv)).

(** Eval, lines 728-743: [KEYS] and [ARGV] are bound, the hook installed, the
    run context filled and the function called.  The result is the status of
    the protected call, whether the hook was installed, and the state. *)
Definition Eval_invoke (funcname : string) (keys args : list string) (srv : ArdbServer)
  : res (Z * bool * ArdbServer) :=
  l ← luaSetGlobalArray (m_lua srv) "KEYS" keys;
  l ← luaSetGlobalArray l "ARGV" args;
  let srv := set_lua (fun _ => l) srv in
  let delhook := 0 <? lua_time_limit srv in
  let srv := if delhook then set_lua (set_hook (Some 100000)) srv else srv in
  let srv := set_ctx (set_time_start (m_clock srv)) srv in
  let srv := set_ctx (set_executing_func (Some (string_drop 2 (c_str funcname)))) srv in
  let srv := set_ctx (set_kill false) srv in
  '(errid, srv) ← lua_pcall 1 (-2) srv;
  Ok (errid, delhook, srv).

(** Eval, lines 744-753: what follows the protected call on both outcomes. *)
Definition Eval_cleanup (delhook : bool) (srv : ArdbServer) : ArdbServer :=
  let srv := set_ctx (set_executing_func None) srv in
  let srv := if delhook then set_lua (set_hook None) srv else srv in
  let srv := if lua_timeout (m_ctx srv) then set_ctx (set_timeout false) srv else srv in
  set_lua gc_step srv.

(** Eval, lines 755-772: the reply, from the error message or from the value
    the script returned. *)
Definition Eval_reply (funcname : string) (errid : Z) (reply : RedisReply)
    (srv : ArdbServer) : res (Z * RedisReply * ArdbServer) :=
  if negb (errid =? 0) then
    msg ← of_option (lua_tolstring (stack (m_lua srv)) (-1));
    let tmp :=
      snprintf 1023
        ("Error running script (call to " +:+ c_str funcname +:+ "): "
         +:+ c_str msg +:+ NEWLINE) in
    let reply := set_str tmp (set_type REDIS_REPLY_ERROR reply) in
    L ← lua_pop (stack (m_lua srv)) 2;
    Ok (0, reply, set_lua (set_stack L) srv)
  else
    let reply := RedisReply_Clear reply in
    match stack (m_lua srv) with
    | v :: _ =>
        '(L, reply) ← luaReplyToRedisReply (fuel_of v) (stack (m_lua srv)) reply;
        L ← lua_pop L 1;
        Ok (0, reply, set_lua (set_stack L) srv)
    | [] => Undef
    end.

(** Eval from the binding of [KEYS] and [ARGV] on (lines 728-772). *)
Definition Eval_run (funcname : string) (keys args : list string) (reply : RedisReply)
    (srv : ArdbServer) : res (Z * RedisReply * ArdbServer) :=
  '(errid, delhook, srv) ← Eval_invoke funcname keys args srv;
  Eval_reply funcname errid reply (Eval_cleanup delhook srv).

(** Eval (lines 672-773): the returned [int], [reply] and the state. *)
Definition Eval (func : string) (keys args : list string) (isSHA1Func : bool)
    (reply : RedisReply) (srv : ArdbServer) : res (Z * RedisReply * ArdbServer) :=
  let srv := set_rand (redisSrand48 0) srv in
  if (isSHA1Func && negb (Z.of_nat (String.length func) =? 40))%bool then
    Ok (-1, set_str NOSCRIPT_MSG (set_type REDIS_REPLY_ERROR reply), srv)
  else
    let funcname := "f_" +:+ (if isSHA1Func then func else sha1_sum func) in
    l ← lua_getglobal (m_lua srv) ERR_HANDLER;
    l ← lua_getglobal l (c_str funcname);
    let srv := set_lua (fun _ => l) srv in
    if lua_isnil (stack (m_lua srv)) (-1) then
      L ← lua_pop (stack (m_lua srv)) 1;
      let srv := set_lua (set_stack L) srv in
      if isSHA1Func then
        let '(rc, cachedfunc) := GetScript srv funcname in
        if rc =? 0 then
          L ← lua_pop (stack (m_lua srv)) 1;
          Ok (-1, set_str NOSCRIPT_MSG (set_type REDIS_REPLY_ERROR reply),
              set_lua (set_stack L) srv)
        else
          d ← Eval_define funcname cachedfunc reply srv;
          match d with
          | inl early => Ok early
          | inr srv => Eval_run funcname keys args reply srv
          end
      else
        d ← Eval_define funcname func reply srv;
        match d with
        | inl early => Ok early
        | inr srv => Eval_run funcname keys args reply srv
        end
    else Eval_run funcname keys args reply srv.

(** Exists (lines 775-781) *)
Definition Exists (sha : string) (srv : ArdbServer) : bool :=
  fst (GetScript srv ("f_" +:+ sha)) =? 0.

(** Load (lines 783-790): the returned [int], [ret] and the state. *)
Definition Load (func : string) (srv : ArdbServer) : res (Z * string * ArdbServer) :=
  let ret := sha1_sum func in
  let funcname := "f_" +:+ ret in
  '(rc, ret, srv) ← CreateLuaFunction funcname func ret srv;
  Ok ((if rc =? 0 then 1 else 0), ret, srv).

(** Reset (lines 792-796) *)
Definition Reset (srv : ArdbServer) : res ArdbServer :=
  l ← Init; Ok (set_lua (fun _ => l) srv).

(** ** Notions used to state the properties *)

(** The conversion of every entry of a table. *)
Definition converted (t : gmap LuaKey LuaValue) : gmap LuaKey (option (option WireReply)) :=
  (fun x => if is_nil x then None else Some (toWireReply code_sanitize x)) <$> t.

Definition with_elements (reply : RedisReply) (l : list WireReply) : RedisReply :=
  Build_RedisReply (reply_type reply) (integer reply) (str reply)
    (elements reply ++ (reply_of_wire <$> l)).

Definition marshals (M : nat) (x : LuaValue) : Prop :=
  forall fuel L, (M <= fuel)%nat ->
    luaReplyToRedisReply fuel (x :: L) RedisReply_new =
      match toWireReply code_sanitize x with
      | Some w => Ok (L, reply_of_wire w)
      | None => Undef
      end.


(** The table [{vs[1], ..., vs[n]}]. *)
Definition array_table (vs : list LuaValue) : gmap LuaKey LuaValue :=
  list_to_map (zip (array_keys (length vs)) vs).


(** The text that luaPushError stores for [error], and the table it pushes. *)
Definition error_text (ar : option lua_Debug) (error : string) : string :=
  match ar with
  | Some dbg =>
      c_str (snprintf (MAX_LUA_STR_SIZE - 1)
               (c_str (source dbg) +:+ ": " +:+ pretty (currentline dbg) +:+ ": "
                +:+ c_str error))
  | None => c_str error
  end.

Definition error_table (ar : option lua_Debug) (error : string) : LuaValue :=
  LTable {[ KStr "err" := LString (error_text ar error) ]}.

(** A message with a NUL byte and a message with a line terminator. *)
Definition msg_with_nul : string := String "a" (String "000" (String "b" EmptyString)).
Definition msg_with_crlf : string := "a" +:+ CRLF +:+ "b".

(** The table that Init registers as [redis] and [ardb]. *)
Definition redis_table : gmap LuaKey LuaValue :=
  <[KStr "status_reply" := LCFunction FnStatusReplyCommand]>
    (<[KStr "error_reply" := LCFunction FnErrorReplyCommand]>
       (<[KStr "sha1hex" := LCFunction FnSHA1Hex]>
          (<[KStr "LOG_WARNING" := LNumber (lua_Number_of_Z WARN_LOG_LEVEL)]>
             (<[KStr "LOG_NOTICE" := LNumber (lua_Number_of_Z INFO_LOG_LEVEL)]>
                (<[KStr "LOG_VERBOSE" := LNumber (lua_Number_of_Z TRACE_LOG_LEVEL)]>
                   (<[KStr "LOG_DEBUG" := LNumber (lua_Number_of_Z DEBUG_LOG_LEVEL)]>
                      (<[KStr "log" := LCFunction FnLog]>
                         (<[KStr "pcall" := LCFunction FnPCall]>
                            (<[KStr "call" := LCFunction FnCall]> ∅))))))))).

(** [same_name a b]: the C strings [a] and [b] are equal up to the case of
    their letters. *)
Definition same_name (a b : string) : bool :=
  bool_decide (lower_string (c_str a) = lower_string (c_str b)).

(** The kill target names the function [f], or is "all". *)
Definition kill_matches (target f : string) : bool :=
  same_name target "all" || same_name target f.


(** The elapsed time that the hook computes. *)
Definition elapsed_ms (srv : ArdbServer) : Z :=
  (m_clock srv - lua_time_start (m_ctx srv)) mod UINT64_MOD.

(** What a native function hands back, with the state of the generator it
    leaves. *)
Definition drawn (r : res (native_result * lua_Stack * ArdbServer))
  : res (native_result * lua_Stack * Z) :=
  '(a, L, s) ← r; Ok (a, L, m_rand s).

(** The string under which an argument of a bridge call is passed on: the
    string itself, or the text of the number ([lua_tolstring]). *)
Definition arg_text (v : LuaValue) : option string :=
  match v with
  | LString s => Some s
  | LNumber n => Some (lua_number2str n)
  | _ => None
  end.

(** The value that [lua_tolstring] leaves in the slot of [v]. *)
Definition arg_converted (v : LuaValue) : LuaValue :=
  match v with
  | LNumber n => LString (lua_number2str n)
  | _ => v
  end.

(** The [int] and the reply that a run hands back, without the state it
    leaves. *)
Definition outputs (r : res (Z * RedisReply * ArdbServer)) : res (Z * RedisReply) :=
  '(rc, reply, _) ← r; Ok (rc, reply).

(** A function body that only draws: all it does is read [KEYS] and [ARGV],
    call [math.random] and [math.randomseed], and return or raise. *)
Inductive draws_only : Script -> Prop :=
| draws_return (vs : list LuaValue) : draws_only (SReturn vs)
| draws_error (line : Z) (msg : string) : draws_only (SError line msg)
| draws_keys (line : Z) (what : frame_what) (k : LuaValue -> Script) :
    (forall v, draws_only (k v)) -> draws_only (SGetGlobal line what "KEYS" k)
| draws_argv (line : Z) (what : frame_what) (k : LuaValue -> Script) :
    (forall v, draws_only (k v)) -> draws_only (SGetGlobal line what "ARGV" k)
| draws_random (line : Z) (what : frame_what) (args : list LuaValue)
    (k : list LuaValue -> Script) :
    (forall rs, draws_only (k rs)) -> draws_only (SCallField line what "math" "random" args k)
| draws_randomseed (line : Z) (what : frame_what) (args : list LuaValue)
    (k : list LuaValue -> Script) :
    (forall rs, draws_only (k rs)) ->
    draws_only (SCallField line what "math" "randomseed" args k).

(** [math.random] and [math.randomseed] are the functions that Init
    installs (lines 644-651). *)
Definition math_installed (l : lua_State) : bool :=
  match globals l !! "math" with
  | Some (LTable t) =>
      match t !! KStr "random", t !! KStr "randomseed" with
      | Some (LCFunction FnMathRandom), Some (LCFunction FnMathRandomSeed) => true
      | _, _ => false
      end
  | _ => false
  end.

(** The interpreter of a connection on which the script [name], with the
    function body [body], can run: the environment of scripts is as Init leaves it, and the
    function is not defined yet or is defined with that body. *)
Definition ready (name : string) (body : Script) (srv : ArdbServer) : Prop :=
  math_installed (m_lua srv) = true
  /\ globals (m_lua srv) !! ERR_HANDLER = Some (LFunction ERR_HANDLER)
  /\ (globals (m_lua srv) !! name = None
      \/ (globals (m_lua srv) !! name = Some (LFunction name)
          /\ code (m_lua srv) !! name = Some body)).

(** Where Eval stands at line 728 on such a connection: the generator is
    reseeded, and the error handler and the function are on the stack. *)
Definition prepared (name : string) (body : Script) (srv : ArdbServer) : Prop :=
  m_rand srv = redisSrand48 0
  /\ (exists rest, stack (m_lua srv) = LFunction name :: LFunction ERR_HANDLER :: rest)
  /\ code (m_lua srv) !! name = Some body
  /\ globals (m_lua srv) !! name = Some (LFunction name)
  /\ globals (m_lua srv) !! ERR_HANDLER = Some (LFunction ERR_HANDLER)
  /\ math_installed (m_lua srv) = true.

(** How the run of a function ends, with the state of the generator it
    leaves. *)
Definition ran (r : res (run_result * ArdbServer)) : res (run_result * Z) :=
  '(x, s) ← r; Ok (x, m_rand s).

(** ** Notions used to state further properties *)

(** [arrays_fit w]: every array of [w] has fewer than [INT_MAX - 1] elements. *)
Fixpoint arrays_fit (w : WireReply) : bool :=
  match w with
  | Array l => (Z.of_nat (length l) <? INT_MAX - 1) && forallb arrays_fit l
  | _ => true
  end.

(** The texts of the arguments, each with a space before it. *)
Fixpoint spaced (ss : list string) : string :=
  match ss with
  | [] => EmptyString
  | s :: ss' => " " +:+ s +:+ spaced ss'
  end.

End Bridge.

(** ** The small host, set up *)
Module DemoState.

(** The interpreter that Init builds on the small host. *)
Definition lua0 : lua_State :=
  match @Init Demo.host with
  | Ok l => l
  | _ => lua_open
  end.

(** A connection with an empty store, no saved script, the clock at 1000 and
    a time limit of [limit] milliseconds. *)
Definition srv0 (limit : Z) : @ArdbServer Demo.host :=
  @Build_ArdbServer Demo.host lua0 ∅ ∅ limit (Build_LuaRunContext 0 None false false)
    (@RedisReply_new Demo.host) "" [] 7 1000 [] [] O.

(** EVAL and EVALSHA of [func] on that connection, the reply seen as a wire
    reply. *)
Definition eval (func : string) (keys args : list string) (isSHA1Func : bool) (limit : Z)
  : res (Z * WireReply * @ArdbServer Demo.host) :=
  '(rc, reply, srv) ← @Eval Demo.host func keys args isSHA1Func (@RedisReply_new Demo.host)
                        (srv0 limit);
  Ok (rc, wire_view reply, srv).

Definition digest_a : string := "aaaaaaaaaaaaaaaaaaaaaaaaaaaaaaaaaaaaaaaa".
End DemoState.

Section Properties.

Context {host : Host}.

(** * Properties *)

(** ** Doubles that hold integers *)

Lemma iter_xO_Z (m k : positive) : Zpos (Pos.iter xO m k) = Zpos m * 2 ^ Zpos k.
Proof.
  revert m. induction k as [|k IHk] using Pos.peano_ind; intros m.
  - simpl. lia.
  - rewrite Pos.iter_succ, Pos2Z.inj_succ, Z.pow_succ_r by lia.
    change (Zpos (Pos.iter xO m k)~0) with (2 * Zpos (Pos.iter xO m k)).
    rewrite IHk. lia.
Qed.

Lemma digits2_iter_xO (m k : positive) :
  Zpos (digits2_pos (Pos.iter xO m k)) = Zpos (digits2_pos m) + Zpos k.
Proof.
  revert m. induction k as [|k IHk] using Pos.peano_ind; intros m.
  - simpl. lia.
  - rewrite Pos.iter_succ. simpl. rewrite Pos2Z.inj_succ, IHk. lia.
Qed.

Lemma digits2_lower (m : positive) : 2 ^ (Zpos (digits2_pos m) - 1) <= Zpos m.
Proof.
  induction m as [m IH|m IH|]; simpl digits2_pos; [| |simpl; lia].
  all: rewrite Pos2Z.inj_succ;
    replace (Z.succ (Zpos (digits2_pos m)) - 1) with (Z.succ (Zpos (digits2_pos m) - 1)) by lia;
    rewrite Z.pow_succ_r by lia; lia.
Qed.

Lemma digits2_le (m : positive) (n : Z) :
  0 <= n -> Zpos m < 2 ^ n -> Zpos (digits2_pos m) <= n.
Proof.
  intros Hn H. destruct (Z_le_gt_dec (Zpos (digits2_pos m)) n) as [|Hgt]; [assumption|].
  pose proof (digits2_lower m) as Hlo.
  assert (2 ^ n <= 2 ^ (Zpos (digits2_pos m) - 1)) by (apply Z.pow_le_mono_r; lia).
  lia.
Qed.

Lemma shr_fexp_exact (m : positive) (e : Z) :
  fexp 53 1024 (Zpos (digits2_pos m) + e) <= e ->
  shr_fexp 53 1024 (Zpos m) e loc_Exact =
    ({| shr_m := Zpos m; shr_r := false; shr_s := false |}, e).
Proof.
  intros H. unfold shr_fexp. simpl Zdigits2. simpl shr_record_of_loc.
  destruct (fexp 53 1024 (Zpos (digits2_pos m) + e) - e) eqn:E; try reflexivity. lia.
Qed.

Lemma binary_round_aux_exact (s : bool) (m : positive) (e : Z) :
  fexp 53 1024 (Zpos (digits2_pos m) + e) <= e -> e <= 971 ->
  binary_round_aux 53 1024 s (Zpos m) e loc_Exact = S754_finite s m e.
Proof.
  intros H He. unfold binary_round_aux.
  rewrite shr_fexp_exact by assumption. cbn [shr_m loc_of_shr_record round_nearest_even].
  rewrite shr_fexp_exact by assumption. cbn [shr_m].
  replace (e <=? 1024 - 53) with true; [reflexivity|].
  symmetry. apply Z.leb_le. lia.
Qed.

Lemma binary_round_small (s : bool) (m : positive) :
  Zpos m < 2 ^ 53 ->
  exists m' e, binary_round 53 1024 s m 0 = S754_finite s m' e
               /\ e <= 0 /\ Zpos m' = Zpos m * 2 ^ (- e).
Proof.
  intros Hm. pose proof (digits2_le m 53 ltac:(lia) Hm) as Hd.
  assert (0 < Zpos (digits2_pos m)) by lia.
  unfold binary_round, shl_align.
  assert (Hf : fexp 53 1024 (Zpos (digits2_pos m) + 0) = Zpos (digits2_pos m) - 53)
    by (unfold fexp, emin; lia).
  rewrite Hf.
  destruct (Zpos (digits2_pos m) - 53 - 0) as [|p|p] eqn:E; try lia.
  - exists m, 0. split; [|split; [lia|simpl; lia]].
    apply binary_round_aux_exact; lia.
  - exists (Pos.iter xO m p), (Zpos (digits2_pos m) - 53). split; [|split; [lia|]].
    + apply binary_round_aux_exact; [|lia].
      rewrite digits2_iter_xO. unfold fexp, emin. lia.
    + rewrite iter_xO_Z. f_equal. f_equal. lia.
Qed.

Lemma shiftl_back (a e : Z) : e <= 0 -> Z.shiftl (a * 2 ^ (- e)) e = a.
Proof.
  intros He. rewrite <- Z.shiftl_mul_pow2 by lia.
  rewrite <- (Z.shiftr_opp_r _ e), Z.shiftr_shiftl_l by lia.
  rewrite Z.sub_diag. reflexivity.
Qed.

(** An integer below 2^53 in magnitude is a double, exactly. *)
Lemma trunc_of_Z (i : Z) : Z.abs i < 2 ^ 53 -> lua_Number_trunc (lua_Number_of_Z i) = Some i.
Proof.
  intros Hi. destruct i as [|m|m]; [reflexivity| |].
  - destruct (binary_round_small false m) as (m' & e & Hr & He & Hm'); [lia|].
    unfold lua_Number_of_Z, binary_normalize. rewrite Hr.
    simpl. f_equal. rewrite Hm'. apply shiftl_back. assumption.
  - destruct (binary_round_small true m) as (m' & e & Hr & He & Hm'); [lia|].
    unfold lua_Number_of_Z, binary_normalize. rewrite Hr.
    simpl. f_equal. rewrite Hm', shiftl_back by assumption. reflexivity.
Qed.

Lemma to_longlong_of_Z (i : Z) :
  Z.abs i < 2 ^ 53 -> lua_Number_to_longlong (lua_Number_of_Z i) = Some i.
Proof.
  intros Hi. unfold lua_Number_to_longlong. rewrite trunc_of_Z by assumption.
  unfold LLONG_MIN, LLONG_MAX.
  destruct (Z.leb_spec (- 2 ^ 63) i), (Z.leb_spec i (2 ^ 63 - 1)); try reflexivity; lia.
Qed.

Lemma key_of_number_of_Z (j : Z) :
  0 <= j < 2 ^ 53 -> key_of_number (lua_Number_of_Z j) = Some (KInt j).
Proof.
  intros Hj. destruct j as [|m|m]; [reflexivity| |lia].
  destruct (binary_round_small false m) as (m' & e & Hr & He & Hm'); [lia|].
  unfold lua_Number_of_Z, binary_normalize. rewrite Hr.
  unfold key_of_number. rewrite Hm', shiftl_back by assumption.
  rewrite Z.shiftl_mul_pow2 by lia. rewrite Z.eqb_refl. reflexivity.
Qed.

(** ** Outcomes *)

Lemma bind_Ok {A B : Type} (a : A) (f : A -> res B) : (Ok a ≫= f) = f a.
Proof. reflexivity. Qed.

Lemma bind_Undef {A B : Type} (f : A -> res B) : (Undef ≫= f) = Undef.
Proof. reflexivity. Qed.


Ltac res_step := rewrite ?bind_Ok, ?bind_Undef.

(** ** The stack API at the top of the stack *)

Lemma lua_at_top (v : LuaValue) (L : lua_Stack) : lua_at (v :: L) (-1) = Some v.
Proof.
  unfold lua_at, index2adr. cbn [length].
  destruct (Z.leb_spec (- -1) (Z.of_nat (S (length L)))); [reflexivity|lia].
Qed.

Lemma lua_at_second (v w : LuaValue) (L : lua_Stack) : lua_at (v :: w :: L) (-2) = Some w.
Proof.
  unfold lua_at, index2adr. cbn [length].
  destruct (Z.leb_spec (- -2) (Z.of_nat (S (S (length L))))); [reflexivity|lia].
Qed.

Lemma lua_at_third (u v w : LuaValue) (L : lua_Stack) :
  lua_at (u :: v :: w :: L) (-3) = Some w.
Proof.
  unfold lua_at, index2adr. cbn [length].
  destruct (Z.leb_spec (- -3) (Z.of_nat (S (S (S (length L)))))); [reflexivity|lia].
Qed.

Lemma lua_type_top (v : LuaValue) (L : lua_Stack) : lua_type (v :: L) (-1) = type_of v.
Proof. unfold lua_type. rewrite lua_at_top. reflexivity. Qed.

Lemma lua_pop_1 (v : LuaValue) (L : lua_Stack) : lua_pop (v :: L) 1 = Ok L.
Proof. reflexivity. Qed.

Lemma lua_pop_2 (v w : LuaValue) (L : lua_Stack) : lua_pop (v :: w :: L) 2 = Ok L.
Proof. reflexivity. Qed.

Lemma lua_gettable_second (k : LuaValue) (t : gmap LuaKey LuaValue) (L : lua_Stack) :
  lua_gettable (k :: LTable t :: L) (-2) = Ok (table_get t k :: LTable t :: L).
Proof. unfold lua_gettable. rewrite lua_at_second. reflexivity. Qed.

Lemma lua_settable_third (v k : LuaValue) (key : LuaKey) (t : gmap LuaKey LuaValue)
    (L : lua_Stack) :
  key_of_value k = Some key -> v <> LNil ->
  lua_settable (v :: k :: LTable t :: L) (-3) = Ok (LTable (<[key := v]> t) :: L).
Proof.
  intros Hk Hv. unfold lua_settable, index2adr. cbn [length].
  destruct (Z.leb_spec (- -3) (Z.of_nat (S (S (S (length L)))))); [|lia].
  cbn. rewrite Hk. destruct v; try reflexivity. congruence.
Qed.

Lemma lua_tolstring_top (s : string) (L : lua_Stack) :
  lua_tolstring (LString s :: L) (-1) = Some s.
Proof. unfold lua_tolstring. rewrite lua_at_top. reflexivity. Qed.

Lemma lua_tonumber_top (n : lua_Number) (L : lua_Stack) :
  lua_tonumber (LNumber n :: L) (-1) = n.
Proof. unfold lua_tonumber. rewrite lua_at_top. reflexivity. Qed.

Lemma lua_toboolean_top (b : bool) (L : lua_Stack) :
  lua_toboolean (LBoolean b :: L) (-1) = b.
Proof. unfold lua_toboolean. rewrite lua_at_top. reflexivity. Qed.



(** ** Tables: bounds on the entries *)

Lemma tables_fit_int_lookup (t : gmap LuaKey LuaValue) (k : LuaKey) (x : LuaValue) :
  tables_fit_int (LTable t) = true -> t !! k = Some x -> tables_fit_int x = true.
Proof.
  cbn [tables_fit_int]. intros [_ H]%andb_prop. revert H k x.
  apply (map_fold_weak_ind
           (fun (acc : bool) (m : gmap LuaKey LuaValue) =>
              acc = true -> forall k x, m !! k = Some x -> tables_fit_int x = true)).
  - intros _ k x Hk. rewrite lookup_empty in Hk. discriminate.
  - intros i y m r Hi IH [Hy Hr]%andb_prop k x Hk.
    destruct (decide (i = k)) as [->|Hne].
    + rewrite lookup_insert_eq in Hk. congruence.
    + rewrite lookup_insert_ne in Hk by assumption. eauto.
Qed.

Lemma tables_fit_int_size (t : gmap LuaKey LuaValue) :
  tables_fit_int (LTable t) = true -> Z.of_nat (size t) < INT_MAX - 1.
Proof. cbn [tables_fit_int]. intros [H _]%andb_prop. apply Z.ltb_lt. assumption. Qed.

Lemma fuel_of_lookup (t : gmap LuaKey LuaValue) (k : LuaKey) (x : LuaValue) :
  t !! k = Some x ->
  (fuel_of x <= map_fold (fun _ y acc => Nat.max (fuel_of y) acc) O t)%nat.
Proof.
  revert k x.
  apply (map_fold_weak_ind
           (fun (acc : nat) (m : gmap LuaKey LuaValue) =>
              forall k x, m !! k = Some x -> (fuel_of x <= acc)%nat)).
  - intros k x Hk. rewrite lookup_empty in Hk. discriminate.
  - intros i y m r Hi IH k x Hk.
    destruct (decide (i = k)) as [->|Hne].
    + rewrite lookup_insert_eq in Hk. injection Hk as ->. lia.
    + rewrite lookup_insert_ne in Hk by assumption. specialize (IH k x Hk). lia.
Qed.

(** ** luaReplyToRedisReply computes the reference map (with the message read
    as a C string) *)

Lemma table_get_int (t : gmap LuaKey LuaValue) (j : Z) :
  0 <= j < 2 ^ 53 ->
  table_get t (LNumber (lua_Number_of_Z j)) = default LNil (t !! KInt j).
Proof.
  intros Hj. unfold table_get. cbn [key_of_value].
  rewrite key_of_number_of_Z by assumption. reflexivity.
Qed.

Lemma with_elements_nil (reply : RedisReply) : with_elements reply [] = reply.
Proof. destruct reply. unfold with_elements. cbn. rewrite app_nil_r. reflexivity. Qed.

Lemma with_elements_cons (reply : RedisReply) (w : WireReply) (l : list WireReply) :
  with_elements (push_back (reply_of_wire w) reply) l = with_elements reply (w :: l).
Proof. destruct reply. unfold with_elements, push_back. cbn. rewrite <- app_assoc. reflexivity. Qed.

Lemma reply_elements_spec (t : gmap LuaKey LuaValue) (M : nat) :
  (forall k x, t !! k = Some x -> marshals M x) ->
  forall (n : nat) (d : gmap LuaKey LuaValue) (j : Z) (reply : RedisReply)
         (fuel : nat) (L : lua_Stack),
    1 <= j -> j + Z.of_nat n <= INT_MAX ->
    (forall i, j <= i -> is_Some (t !! KInt i) -> is_Some (d !! KInt i)) ->
    (size d < n)%nat ->
    (n + M <= fuel)%nat ->
    reply_elements fuel (LTable t :: L) reply j =
      match read_sequence (converted t) j n with
      | Some l => Ok (LTable t :: L, with_elements reply l)
      | None => Undef
      end.
Proof.
  intros IHt. induction n as [|n IHn]; intros d j reply fuel L Hj Hmax Hd Hsize Hfuel.
  { lia. }
  destruct fuel as [|fuel]; [lia|].
  cbn [reply_elements read_sequence].
  assert (Hlt : (INT_MAX <=? j) = false) by (apply Z.leb_gt; lia).
  rewrite Hlt. unfold lua_pushnumber.
  rewrite lua_gettable_second. res_step.
  rewrite table_get_int by (unfold INT_MAX in Hmax; lia).
  unfold converted at 1. rewrite lookup_fmap. rewrite lua_type_top.
  destruct (t !! KInt j) as [x|] eqn:Hx; cbn [from_option id fmap option_fmap option_map].
  2:{ cbn. rewrite with_elements_nil. reflexivity. }
  destruct (is_nil x) eqn:His.
  { destruct x; try discriminate His. cbn. rewrite with_elements_nil. reflexivity. }
  destruct (decide (type_of x = LUA_TNIL)) as [Hty|_].
  { destruct x; cbn in Hty, His; congruence. }
  rewrite (IHt _ _ Hx fuel (LTable t :: L)) by lia.
  destruct (toWireReply code_sanitize x) as [w|]; res_step; [|reflexivity].
  rewrite (IHn (delete (KInt j) d) (j + 1)).
  - destruct (read_sequence (converted t) (j + 1) n) as [l|]; cbn; [|reflexivity].
    rewrite with_elements_cons. reflexivity.
  - lia.
  - lia.
  - intros i Hi Hti. rewrite lookup_delete_ne by (intros Heq; injection Heq; lia). apply Hd; [lia|assumption].
  - assert (is_Some (d !! KInt j)) as Hdj by (apply Hd; [lia|eauto]).
    pose proof (map_size_ne_0_lookup_2 _ _ Hdj).
    rewrite map_size_delete_Some by assumption. lia.
  - lia.
Qed.

Lemma marshals_mono (M M' : nat) (x : LuaValue) :
  (M <= M')%nat -> marshals M x -> marshals M' x.
Proof. intros HM H fuel L Hfuel. apply H. lia. Qed.

Lemma table_get_str (t : gmap LuaKey LuaValue) (s : string) :
  table_get t (LString s) = default LNil (t !! KStr s).
Proof. reflexivity. Qed.

Lemma luaReplyToRedisReply_table (t : gmap LuaKey LuaValue) (M : nat) :
  (forall k x, t !! k = Some x -> marshals M x) ->
  Z.of_nat (size t) < INT_MAX - 1 ->
  marshals (size t + 3 + M) (LTable t).
Proof.
  intros IHt Hsize fuel L Hfuel.
  destruct fuel as [|fuel]; [lia|].
  cbn [luaReplyToRedisReply toWireReply].
  rewrite lua_type_top. cbn [type_of].
  unfold lua_pushstring. cbn [c_str Ascii.eqb Bool.eqb].
  rewrite lua_gettable_second. res_step. rewrite lua_type_top.
  rewrite !table_get_str.
  destruct (t !! KStr "err") as [e|]; cbn [from_option id].
  1: destruct e as [| | |e| | |]; cbn [type_of].
  4:{ rewrite decide_True by reflexivity. rewrite lua_tolstring_top. reflexivity. }
  all: rewrite decide_False by discriminate.
  all: rewrite lua_pop_1; res_step.
  all: rewrite lua_gettable_second; res_step; rewrite lua_type_top.
  all: rewrite !table_get_str.
  all: destruct (t !! KStr "ok") as [o|]; cbn [from_option id].
  all: try (destruct o as [| | |o| | |]; cbn [type_of]).
  all: try (rewrite decide_True by reflexivity; rewrite lua_tolstring_top; reflexivity).
  all: rewrite decide_False by discriminate.
  all: rewrite lua_pop_1; res_step.
  all: rewrite (reply_elements_spec t M IHt (S (size t)) t 1) by
      (first [lia | unfold INT_MAX in *; lia | intros; assumption]).
  all: fold (converted t).
  all: destruct (read_sequence (converted t) 1 (S (size t))) as [l|]; reflexivity.
Qed.

Lemma fuel_of_pos (v : LuaValue) : (1 <= fuel_of v)%nat.
Proof. destruct v; cbn [fuel_of]; lia. Qed.

Lemma luaReplyToRedisReply_marshals (n : nat) :
  forall v, (fuel_of v <= n)%nat -> tables_fit_int v = true -> marshals (fuel_of v) v.
Proof.
  induction n as [|n IH]; intros v Hn Hfit.
  { pose proof (fuel_of_pos v). lia. }
  destruct v as [|b|d|s|t|f|f].
  5:{ cbn [fuel_of] in *. apply luaReplyToRedisReply_table.
      - intros k x Hx. pose proof (fuel_of_lookup t k x Hx) as Hle.
        eapply marshals_mono; [exact Hle|].
        apply IH; [lia|]. eapply tables_fit_int_lookup; eassumption.
      - apply tables_fit_int_size. assumption. }
  all: intros fuel L Hfuel; cbn [fuel_of] in Hfuel.
  all: destruct fuel as [|fuel]; [lia|].
  all: cbn [luaReplyToRedisReply toWireReply]; rewrite lua_type_top; cbn [type_of].
  - reflexivity.
  - rewrite lua_toboolean_top. destruct b; reflexivity.
  - rewrite lua_tonumber_top. destruct (lua_Number_to_longlong d); reflexivity.
  - rewrite lua_tolstring_top. reflexivity.
  - reflexivity.
  - reflexivity.
Qed.

(** The conversion of the source, as a function of the value on top of the
    stack: the reference map with [code_sanitize]. *)
Lemma luaReplyToRedisReply_spec (v : LuaValue) (L : lua_Stack) (fuel : nat) :
  tables_fit_int v = true -> (fuel_of v <= fuel)%nat ->
  luaReplyToRedisReply fuel (v :: L) RedisReply_new =
    match toWireReply code_sanitize v with
    | Some w => Ok (L, reply_of_wire w)
    | None => Undef
    end.
Proof.
  intros Hfit Hfuel.
  apply (luaReplyToRedisReply_marshals (fuel_of v) v (le_n _) Hfit). assumption.
Qed.

(** ** Plain lines are left alone *)

Lemma c_str_no_nul (s : string) : has_nul s = false -> c_str s = s.
Proof.
  induction s as [|c s IH]; cbn [has_nul c_str]; [reflexivity|].
  intros [Hc Hs]%orb_false_elim. rewrite Hc, IH by assumption. reflexivity.
Qed.

Lemma string_replace_no_crlf (s : string) :
  has_crlf s = false -> string_replace s CRLF " " = s.
Proof.
  unfold string_replace. induction s as [|c s IH]; [reflexivity|].
  cbn [has_crlf]. intros [Hp Hs]%orb_false_elim.
  cbn [string_replace_from]. rewrite Hp, andb_false_r, IH by assumption. reflexivity.
Qed.

Lemma code_sanitize_plain (s : string) : plain_line s = true -> code_sanitize s = s.
Proof.
  unfold plain_line, code_sanitize.
  intros [Hn Hc]%andb_prop. apply negb_true_iff in Hn, Hc.
  rewrite c_str_no_nul by assumption. apply string_replace_no_crlf. assumption.
Qed.

(** ** Induction on wire replies *)

Lemma WireReply_nested_ind (P : WireReply -> Prop) :
  (forall i, P (Integer i)) -> P Nil -> (forall s, P (BulkString s)) ->
  (forall s, P (Status s)) -> (forall s, P (Error s)) ->
  (forall l, Forall P l -> P (Array l)) ->
  forall w, P w.
Proof.
  intros HI HN HB HS HE HA.
  fix IH 1. intros [i| |s|s|s|l]; [apply HI|apply HN|apply HB|apply HS|apply HE|].
  apply HA. induction l as [|w l IHl]; constructor; [apply IH|exact IHl].
Qed.

Lemma wire_view_reply_of_wire (w : WireReply) : wire_view (reply_of_wire w) = w.
Proof.
  induction w as [i| |s|s|s|l IHl] using WireReply_nested_ind; try reflexivity.
  cbn. f_equal. induction IHl as [|w l Hw _ IH]; [reflexivity|].
  cbn. rewrite Hw, IH. reflexivity.
Qed.

(** ** The table of an array *)

Lemma array_keys_S (n : nat) : array_keys (S n) = (array_keys n ++ [KInt (1 + Z.of_nat n)])%list.
Proof. unfold array_keys. rewrite seqZ_S, fmap_app. reflexivity. Qed.

Lemma length_array_keys (n : nat) : length (array_keys n) = n.
Proof. unfold array_keys. rewrite length_fmap, length_seqZ. lia. Qed.

Lemma elem_of_array_keys (k : LuaKey) (n : nat) :
  k ∈ array_keys n <-> exists j, k = KInt j /\ 1 <= j <= Z.of_nat n.
Proof.
  unfold array_keys. rewrite list_elem_of_fmap. split.
  - intros (j & -> & Hj%elem_of_seqZ). exists j. split; [reflexivity|lia].
  - intros (j & -> & Hj). exists j. split; [reflexivity|]. apply elem_of_seqZ. lia.
Qed.

Lemma array_table_snoc (vs : list LuaValue) (v : LuaValue) :
  array_table (vs ++ [v])%list = <[KInt (1 + Z.of_nat (length vs)) := v]> (array_table vs).
Proof.
  unfold array_table. rewrite length_app. cbn [length].
  replace (length vs + 1)%nat with (S (length vs)) by lia.
  rewrite array_keys_S.
  rewrite zip_with_app by apply length_array_keys.
  cbn [zip_with]. apply list_to_map_snoc.
  rewrite fst_zip by (rewrite length_array_keys; lia).
  rewrite elem_of_array_keys. intros (j & [= <-] & Hj). lia.
Qed.

Lemma array_table_lookup_str (vs : list LuaValue) (s : string) :
  array_table vs !! KStr s = None.
Proof.
  unfold array_table. apply not_elem_of_list_to_map_1.
  rewrite fst_zip by (rewrite length_array_keys; lia).
  rewrite elem_of_array_keys. intros (j & [=] & _).
Qed.

Lemma array_table_lookup (vs : list LuaValue) (j : Z) :
  array_table vs !! KInt j =
    if decide (1 <= j <= Z.of_nat (length vs)) then vs !! Z.to_nat (j - 1) else None.
Proof.
  induction vs as [|v vs IH] using rev_ind.
  - unfold array_table. cbn [length array_keys zip_with]. cbn.
    destruct (decide _); [lia|]. apply lookup_empty.
  - rewrite array_table_snoc, length_app. cbn [length].
    destruct (decide (j = 1 + Z.of_nat (length vs))) as [->|Hne].
    + rewrite lookup_insert_eq. rewrite decide_True by lia.
      replace (Z.to_nat (1 + Z.of_nat (length vs) - 1)) with (length vs) by lia.
      rewrite lookup_app_r by lia. rewrite Nat.sub_diag. reflexivity.
    + rewrite lookup_insert_ne by congruence. rewrite IH.
      destruct (decide (1 <= j <= Z.of_nat (length vs))) as [Hj|Hj].
      * rewrite decide_True by lia. rewrite lookup_app_l by lia. reflexivity.
      * rewrite decide_False by lia. reflexivity.
Qed.

Lemma array_table_size (vs : list LuaValue) : size (array_table vs) = length vs.
Proof.
  unfold array_table. rewrite map_size_list_to_map.
  - rewrite length_zip, length_array_keys. lia.
  - rewrite fst_zip by (rewrite length_array_keys; lia).
    unfold array_keys. apply NoDup_fmap_2; [|apply NoDup_seqZ].
    intros x y [=]. assumption.
Qed.

(** ** The reference map undoes [toScriptValue] on preserved replies *)

Lemma toScriptValue_Array (l : list WireReply) :
  toScriptValue (Array l) = LTable (array_table (toScriptValue <$> l)).
Proof. cbn [toScriptValue]. unfold array_table. rewrite length_fmap. reflexivity. Qed.

Lemma toScriptValue_not_nil (w : WireReply) : is_nil (toScriptValue w) = false.
Proof. destruct w; reflexivity. Qed.

Lemma read_sequence_S (c : gmap LuaKey (option (option WireReply))) (j : Z) (n : nat) :
  read_sequence c j (S n) =
    match c !! KInt j with
    | Some (Some (Some w)) => cons w <$> read_sequence c (j + 1) n
    | Some (Some None) => None
    | Some None | None => Some []
    end.
Proof. reflexivity. Qed.

Lemma read_sequence_array (c : gmap LuaKey (option (option WireReply)))
    (l : list WireReply) (extra : nat) :
  forall a : Z,
    (forall (i : nat) w, l !! i = Some w -> c !! KInt (a + Z.of_nat i) = Some (Some (Some w))) ->
    c !! KInt (a + Z.of_nat (length l)) = None ->
    read_sequence c a (S (length l + extra)) = Some l.
Proof.
  induction l as [|w l IH]; intros a Hl Hend.
  - rewrite read_sequence_S. cbn [length] in Hend. rewrite Z.add_0_r in Hend.
    rewrite Hend. reflexivity.
  - cbn [length plus]. rewrite read_sequence_S.
    pose proof (Hl O w eq_refl) as H0. rewrite Z.add_0_r in H0. rewrite H0.
    rewrite (IH (a + 1)); [reflexivity| |].
    + intros i w' Hi. replace (a + 1 + Z.of_nat i) with (a + Z.of_nat (S i)) by lia.
      apply Hl. exact Hi.
    + replace (a + 1 + Z.of_nat (length l)) with (a + Z.of_nat (length (w :: l)))
        by (cbn [length]; lia).
      exact Hend.
Qed.

Lemma preserved_Array (l : list WireReply) :
  preserved (Array l) = true ->
  Z.of_nat (length l) < INT_MAX - 1 /\ Forall (fun w => preserved w = true) l.
Proof.
  cbn [preserved]. intros [Hlen Hall]%andb_prop. split; [apply Z.ltb_lt; exact Hlen|].
  apply Forall_forall. intros w Hw. rewrite forallb_forall in Hall.
  apply Hall. apply list_elem_of_In. exact Hw.
Qed.

Lemma toWireReply_toScriptValue (w : WireReply) :
  preserved w = true -> toWireReply code_sanitize (toScriptValue w) = Some w.
Proof.
  induction w as [i| |s|s|s|l IHl] using WireReply_nested_ind; intros Hp.
  - cbn [toScriptValue toWireReply]. cbn [preserved] in Hp. apply Z.ltb_lt in Hp.
    rewrite to_longlong_of_Z by exact Hp. reflexivity.
  - reflexivity.
  - reflexivity.
  - cbn [toScriptValue toWireReply preserved] in *.
    rewrite lookup_singleton_ne by discriminate. rewrite lookup_singleton_eq.
    rewrite code_sanitize_plain by exact Hp. reflexivity.
  - cbn [toScriptValue toWireReply preserved] in *.
    rewrite lookup_singleton_eq. rewrite code_sanitize_plain by exact Hp. reflexivity.
  - apply preserved_Array in Hp as [Hlen Hall].
    rewrite toScriptValue_Array. cbn [toWireReply].
    rewrite !array_table_lookup_str, array_table_size, length_fmap.
    replace (S (length l)) with (S (length l + 0)) by lia.
    rewrite read_sequence_array; [reflexivity| |].
    + intros i w Hi. rewrite lookup_fmap, array_table_lookup, length_fmap.
      apply lookup_lt_Some in Hi as Hlt.
      rewrite decide_True by lia.
      replace (Z.to_nat (1 + Z.of_nat i - 1)) with i by lia.
      rewrite list_lookup_fmap, Hi. cbn [fmap option_fmap option_map].
      rewrite toScriptValue_not_nil.
      rewrite Forall_forall in IHl, Hall.
      assert (w ∈ l) as Hin by (eapply list_elem_of_lookup_2; exact Hi).
      rewrite (IHl w Hin (Hall w Hin)). reflexivity.
    + rewrite lookup_fmap, array_table_lookup, length_fmap.
      rewrite decide_False by lia. reflexivity.
Qed.

Lemma tables_fit_int_array (vs : list LuaValue) :
  Z.of_nat (length vs) < INT_MAX - 1 ->
  Forall (fun v => tables_fit_int v = true) vs ->
  tables_fit_int (LTable (array_table vs)) = true.
Proof.
  intros Hlen Hall. cbn [tables_fit_int]. apply andb_true_intro. split.
  - rewrite array_table_size. apply Z.ltb_lt. exact Hlen.
  - assert (Hin : forall k x, array_table vs !! k = Some x -> tables_fit_int x = true).
    { intros [s|j] x Hx.
      - rewrite array_table_lookup_str in Hx. discriminate.
      - rewrite array_table_lookup in Hx. destruct (decide _); [|discriminate].
        rewrite Forall_forall in Hall. apply Hall.
        eapply list_elem_of_lookup_2. exact Hx. }
    revert Hin.
    apply (map_fold_weak_ind
             (fun (acc : bool) (m : gmap LuaKey LuaValue) =>
                (forall k x, m !! k = Some x -> tables_fit_int x = true) -> acc = true)).
    + reflexivity.
    + intros i x m r Hi IH Hm. apply andb_true_intro. split.
      * apply (Hm i). apply lookup_insert_eq.
      * apply IH. intros k y Hk. apply (Hm k).
        rewrite lookup_insert_ne; [exact Hk|]. intros ->. congruence.
Qed.

Lemma tables_fit_int_toScriptValue (w : WireReply) :
  preserved w = true -> tables_fit_int (toScriptValue w) = true.
Proof.
  induction w as [i| |s|s|s|l IHl] using WireReply_nested_ind; intros Hp;
    try reflexivity.
  apply preserved_Array in Hp as [Hlen Hall].
  rewrite toScriptValue_Array. apply tables_fit_int_array.
  - rewrite length_fmap. exact Hlen.
  - apply Forall_fmap. rewrite Forall_forall in *. intros w Hw. cbn.
    apply IHl; [exact Hw|]. apply Hall. exact Hw.
Qed.

(** ** redisProtocolToLuaType computes [toScriptValue] *)

Lemma RedisReply_nested_ind (P : RedisReply -> Prop) :
  (forall ty i s elems, Forall P elems -> P (Build_RedisReply ty i s elems)) ->
  forall r, P r.
Proof.
  intros H. fix IH 1. intros [ty i s elems]. apply H.
  induction elems as [|e elems IHe]; constructor; [apply IH|exact IHe].
Qed.

Lemma push_elements_spec (convert : lua_Stack -> RedisReply -> res lua_Stack)
    (L : lua_Stack) (es : list RedisReply) :
  forall done : list LuaValue,
    Forall (fun e => forall L', convert L' e = Ok (toScriptValue (wire_view e) :: L')) es ->
    Z.of_nat (length done + length es) < INT_MAX - 1 ->
    push_elements convert es (Z.of_nat (length done)) (LTable (array_table done) :: L) =
      Ok (LTable (array_table (done ++ (toScriptValue <$> (wire_view <$> es)))) :: L).
Proof.
  induction es as [|e es IH]; intros done Hes Hlen.
  - cbn. rewrite app_nil_r. reflexivity.
  - apply Forall_cons in Hes as [He Hes]. cbn [push_elements].
    cbn [length] in Hlen.
    assert (Hj : (Z.of_nat (length done) + 1) mod UINT32_MOD = Z.of_nat (length done) + 1).
    { apply Z.mod_small. unfold UINT32_MOD, INT_MAX in *. lia. }
    rewrite Hj. unfold lua_pushnumber. rewrite He. res_step.
    rewrite (lua_settable_third _ _ (KInt (Z.of_nat (length done) + 1))).
    + res_step.
      replace (Z.of_nat (length done) + 1) with (1 + Z.of_nat (length done)) by lia.
      rewrite <- array_table_snoc.
      replace (1 + Z.of_nat (length done))
        with (Z.of_nat (length (done ++ [toScriptValue (wire_view e)]))).
      2:{ rewrite length_app. cbn [length]. lia. }
      fold (push_elements convert).
      rewrite IH.
      * cbn [fmap list_fmap]. rewrite <- app_assoc. reflexivity.
      * exact Hes.
      * rewrite length_app. cbn [length]. lia.
    + cbn [key_of_value]. apply key_of_number_of_Z. unfold INT_MAX in *. lia.
    + intros Hnil. pose proof (toScriptValue_not_nil (wire_view e)) as Hn.
      rewrite Hnil in Hn. discriminate.
Qed.

Lemma redisProtocolToLuaType_spec (r : RedisReply) :
  preserved (wire_view r) = true ->
  forall L, redisProtocolToLuaType L r = Ok (toScriptValue (wire_view r) :: L).
Proof.
  induction r as [ty i s elems IH] using RedisReply_nested_ind. intros Hp L.
  destruct ty; cbn [redisProtocolToLuaType wire_view]; try reflexivity.
  - cbn [wire_view] in Hp. apply preserved_Array in Hp as [Hlen Hall].
    rewrite length_fmap in Hlen.
    unfold lua_newtable.
    change (LTable ∅) with (LTable (array_table [])).
    change 0 with (Z.of_nat (length (@nil LuaValue))).
    rewrite push_elements_spec.
    + rewrite toScriptValue_Array. reflexivity.
    + rewrite Forall_forall in IH. rewrite Forall_forall in Hall.
      apply Forall_forall. intros e He L'. apply IH; [exact He|].
      apply Hall. apply list_elem_of_fmap. exists e. split; [reflexivity|exact He].
    + cbn [length]. lia.
  - unfold lua_newtable, lua_pushstring, lua_pushlstring. cbn [c_str Ascii.eqb Bool.eqb].
    rewrite (lua_settable_third _ _ (KStr "ok")); [|reflexivity|discriminate].
    rewrite insert_empty. reflexivity.
  - unfold lua_newtable, lua_pushstring, lua_pushlstring. cbn [c_str Ascii.eqb Bool.eqb].
    rewrite (lua_settable_third _ _ (KStr "err")); [|reflexivity|discriminate].
    rewrite insert_empty. reflexivity.
Qed.

(** ** C1 and C2: the value marshaler *)

(** C1 (the script-to-wire conversion equals the reference map).  The
    conversion computes the reference map of the specification except for the
    message of an error or status table: [std::string err = lua_tostring(...)]
    reads it as a C string, so a message with a NUL byte is cut at that byte
    before the line terminators are replaced, while the reference keeps the
    whole message (and the string case of the same function keeps it too, with
    [lua_strlen]).  On the table [{err = "a\0b"}] the source answers
    [Error "a"] and the reference [Error "a\0b"]. *)
Theorem luaReplyToRedisReply_cuts_message_at_nul :
  let v := LTable {[ KStr "err" := LString msg_with_nul ]} in
  luaReplyToRedisReply 5 [v] RedisReply_new = Ok ([], reply_of_wire (Error "a"))
  /\ toWireReply spec_sanitize v = Some (Error msg_with_nul).
Proof.
  intros v. split.
  - rewrite (luaReplyToRedisReply_spec v [] 5); [reflexivity|reflexivity|].
    vm_compute. lia.
  - reflexivity.
Qed.

(** Where no error or status message has a NUL byte the two agree: the
    reference map with either sanitation. *)
Lemma sanitize_no_nul (s : string) : has_nul s = false -> code_sanitize s = spec_sanitize s.
Proof. intros H. unfold code_sanitize, spec_sanitize. rewrite c_str_no_nul by exact H. reflexivity. Qed.

(** C2, amended (round trip of the wire replies that are [preserved]).  For
    every reply [v] whose kind is not Integer, whose status and error messages
    are plain lines, whose integers are below 2^53 in magnitude and whose
    arrays have fewer than [INT_MAX - 1] elements, at every depth,
    redisProtocolToLuaType followed by luaReplyToRedisReply gives a reply with
    the kind and payload of [v]. *)
Theorem roundtrip_preserved (v : RedisReply) (L : lua_Stack) (fuel : nat) :
  reply_type v <> REDIS_REPLY_INTEGER ->
  preserved (wire_view v) = true ->
  (fuel_of (toScriptValue (wire_view v)) <= fuel)%nat ->
  exists r',
    (redisProtocolToLuaType L v ≫= fun L' => luaReplyToRedisReply fuel L' RedisReply_new)
      = Ok (L, r')
    /\ wire_view r' = wire_view v.
Proof.
  intros _ Hp Hfuel. exists (reply_of_wire (wire_view v)). split.
  - rewrite redisProtocolToLuaType_spec by exact Hp. res_step.
    rewrite luaReplyToRedisReply_spec.
    + rewrite toWireReply_toScriptValue by exact Hp. reflexivity.
    + apply tables_fit_int_toScriptValue. exact Hp.
    + exact Hfuel.
  - apply wire_view_reply_of_wire.
Qed.
(** ** C4 and C10: the command bridge *)

Lemma luaPushError_spec (L : lua_Stack) (ar : option lua_Debug) (error : string) :
  luaPushError L ar error = Ok (error_table ar error :: L).
Proof.
  unfold luaPushError, error_table, error_text, lua_newtable, lua_pushstring.
  cbn [c_str Ascii.eqb Bool.eqb].
  destruct ar as [dbg|];
    (rewrite (lua_settable_third _ _ (KStr "err")); [|reflexivity|discriminate]);
    rewrite insert_empty; reflexivity.
Qed.

Lemma lookup_rev {A : Type} (l : list A) (i : nat) :
  (i < length l)%nat -> rev l !! i = l !! (length l - S i)%nat.
Proof.
  induction l as [|a l IH]; intros Hi; [cbn in Hi; lia|].
  cbn [rev length] in *.
  destruct (decide (i < length l)%nat) as [Hlt|Hge].
  - rewrite lookup_app_l by (rewrite length_rev; exact Hlt).
    rewrite IH by exact Hlt.
    replace (S (length l) - S i)%nat with (S (length l - S i)) by lia. reflexivity.
  - rewrite lookup_app_r by (rewrite length_rev; lia).
    rewrite length_rev.
    replace (i - length l)%nat with O by lia.
    replace (S (length l) - S i)%nat with O by lia. reflexivity.
Qed.

(** The argument at the positive index [j + 1] is the one pushed after [j]
    others. *)
Lemma lua_at_from_bottom (vs : list LuaValue) (j : nat) :
  lua_at (rev vs) (Z.of_nat j + 1) = vs !! j.
Proof.
  unfold lua_at, index2adr. rewrite length_rev.
  destruct (Z.ltb_spec (Z.of_nat j + 1) 0) as [Hneg|_]; [lia|].
  destruct (Z.ltb_spec 0 (Z.of_nat j + 1)) as [_|Hz]; [|lia].
  destruct (Z.leb_spec (Z.of_nat j + 1) (Z.of_nat (length vs))) as [Hle|Hgt]; cbn [andb].
  - unfold lua_Stack. rewrite lookup_rev by lia. f_equal. lia.
  - symmetry. apply lookup_ge_None. lia.
Qed.

(** [lua_tolstring] on the slot of the argument pushed after [done]: the
    argument is converted where it stands. *)
Lemma lua_tolstring_stack_slot (done todo : list LuaValue) (v : LuaValue) (idx : Z) :
  index2adr (rev (done ++ v :: todo)) idx = Some (length todo) ->
  lua_tolstring_stack (rev (done ++ v :: todo)) idx = rev (done ++ arg_converted v :: todo).
Proof.
  intros Hidx. unfold lua_tolstring_stack. rewrite Hidx.
  rewrite !rev_app_distr. cbn [rev]. rewrite <- !app_assoc. cbn [app].
  unfold lua_Stack.
  rewrite lookup_app_r by (rewrite length_rev; lia).
  rewrite length_rev, Nat.sub_diag. cbn [lookup list_lookup].
  destruct v; try reflexivity.
  cbn [arg_converted].
  rewrite insert_app_r_alt by (rewrite length_rev; lia).
  rewrite length_rev, Nat.sub_diag. reflexivity.
Qed.

Lemma index2adr_from_bottom (done todo : list LuaValue) (v : LuaValue) :
  index2adr (rev (done ++ v :: todo)) (Z.of_nat (length done) + 1) = Some (length todo).
Proof.
  unfold index2adr. rewrite length_rev, length_app. cbn [length].
  destruct (Z.ltb_spec (Z.of_nat (length done) + 1) 0) as [Hneg|_]; [lia|].
  destruct (Z.ltb_spec 0 (Z.of_nat (length done) + 1)) as [_|Hz]; [|lia].
  destruct (Z.leb_spec (Z.of_nat (length done) + 1)
              (Z.of_nat (length done + S (length todo)))) as [_|Hgt]; [|lia].
  cbn [andb]. f_equal. lia.
Qed.

Lemma length_lua_tolstring_stack (L : lua_Stack) (idx : Z) :
  length (lua_tolstring_stack L idx) = length L.
Proof.
  unfold lua_tolstring_stack.
  destruct (index2adr L idx) as [i|]; [|reflexivity].
  destruct (L !! i) as [[]|]; try reflexivity.
  apply length_insert.
Qed.

(** The loop over arguments that are strings or numbers: it reaches the last
    one, the vector holds their texts in order, and the numbers among them
    are strings afterwards. *)
Lemma build_cmdargs_loop_texts (todo : list LuaValue) :
  forall (done : list LuaValue) (acc ss : list string),
    Forall2 (fun v s => arg_text v = Some s) todo ss ->
    build_cmdargs_loop (rev (done ++ todo)) (length todo) (Z.of_nat (length done)) acc
      = (Z.of_nat (length done + length todo), acc ++ ss,
         rev (done ++ (arg_converted <$> todo))).
Proof.
  induction todo as [|v todo IH]; intros done acc ss Hss.
  - apply Forall2_nil_inv_l in Hss as ->.
    cbn [build_cmdargs_loop length fmap list_fmap].
    rewrite !app_nil_r, Nat.add_0_r. reflexivity.
  - apply Forall2_cons_inv_l in Hss as (s & ss' & Hv & Hss' & ->).
    cbn [build_cmdargs_loop length]. unfold lua_isstring, lua_type, lua_tolstring.
    rewrite lua_at_from_bottom, lookup_app_r by lia.
    replace (length done - length done)%nat with O by lia. cbn [lookup list_lookup].
    rewrite lua_tolstring_stack_slot by apply index2adr_from_bottom.
    assert (Hnext : build_cmdargs_loop (rev (done ++ arg_converted v :: todo)) (length todo)
                      (Z.of_nat (length done) + 1) (acc ++ [s])
                    = (Z.of_nat (length done + S (length todo)), acc ++ s :: ss',
                       rev (done ++ (arg_converted <$> v :: todo)))).
    { specialize (IH (done ++ [arg_converted v]) (acc ++ [s]) ss' Hss').
      rewrite <- !app_assoc, length_app in IH. cbn [app length] in IH.
      replace (Z.of_nat (length done + 1)) with (Z.of_nat (length done) + 1) in IH by lia.
      rewrite IH. cbn [fmap list_fmap]. do 2 f_equal. lia. }
    destruct v; cbn [arg_text] in Hv; try discriminate; injection Hv as <-;
      cbn [type_of]; exact Hnext.
Qed.

Lemma build_cmdargs_texts (todo : list LuaValue) :
  forall (done : list LuaValue) (acc ss : list string),
    Forall2 (fun v s => arg_text v = Some s) todo ss ->
    build_cmdargs (rev (done ++ todo)) (length todo) (Z.of_nat (length done)) acc
      = (Z.of_nat (length done + length todo), acc ++ ss).
Proof.
  intros done acc ss Hss. unfold build_cmdargs.
  rewrite (build_cmdargs_loop_texts todo done acc ss Hss). reflexivity.
Qed.

Lemma length_build_cmdargs_loop (n : nat) :
  forall (L : lua_Stack) (j : Z) (acc : list string),
    length (snd (build_cmdargs_loop L n j acc)) = length L.
Proof.
  induction n as [|n IH]; intros L j acc; [reflexivity|].
  cbn [build_cmdargs_loop].
  destruct (lua_isstring L (j + 1)); [|reflexivity].
  destruct (lua_tolstring L (j + 1)); [|reflexivity].
  rewrite IH. apply length_lua_tolstring_stack.
Qed.

(** The loop in terms of what it is asked for: the index and the vector, and
    the stack it leaves. *)
Lemma build_cmdargs_loop_eq (L : lua_Stack) (n : nat) (j : Z) (acc : list string) :
  build_cmdargs_loop L n j acc =
    (fst (build_cmdargs L n j acc), snd (build_cmdargs L n j acc),
     snd (build_cmdargs_loop L n j acc)).
Proof.
  unfold build_cmdargs. destruct (build_cmdargs_loop L n j acc) as [[j' c] L']. reflexivity.
Qed.

(** C4, amended (command gating).  For a bridge call whose arguments are all
    strings or numbers, the first one naming the command: when the lowercased
    name is not registered the call pushes the error table of "Unknown Redis
    command called from Lua script" and returns -1, and when the command
    carries the no-script flag it pushes that of "This Redis command is not
    allowed from scripts" and returns -1.  Either way the error table lies on
    the arguments, of which the numbers have become strings, and the state of
    the server is the one before the call: nothing was handed to the executor
    and the store is unchanged. *)
Theorem CallArdb_gating (raise_error : bool) (ar : option lua_Debug) (vs : list LuaValue)
    (srv : ArdbServer) (name : string) (args : list string) :
  Forall2 (fun v s => arg_text v = Some s) vs (name :: args) ->
  (FindRedisCommandHandlerSetting (lower_string name) = None ->
   CallArdb raise_error ar (rev vs) srv =
     Ok (NReturn (-1),
         error_table ar "Unknown Redis command called from Lua script"
           :: rev (arg_converted <$> vs),
         srv))
  /\ (forall flags,
        FindRedisCommandHandlerSetting (lower_string name) = Some flags ->
        Z.land flags ARDB_CMD_NOSCRIPT <> 0 ->
        CallArdb raise_error ar (rev vs) srv =
          Ok (NReturn (-1),
              error_table ar "This Redis command is not allowed from scripts"
                :: rev (arg_converted <$> vs),
              srv)).
Proof.
  intros Hvs.
  assert (Hlen : length vs = S (length args)) by (apply Forall2_length in Hvs; exact Hvs).
  pose proof (build_cmdargs_loop_texts vs [] [] (name :: args) Hvs) as Hb.
  change (build_cmdargs_loop (rev vs) (length vs) 0 []
          = (Z.of_nat (length vs), name :: args, rev (arg_converted <$> vs))) in Hb.
  assert (Htop : lua_gettop (rev vs) = Z.of_nat (length vs))
    by (unfold lua_gettop; rewrite length_rev; reflexivity).
  split.
  - intros Hfind. unfold CallArdb. rewrite Htop.
    destruct (Z.eqb_spec (Z.of_nat (length vs)) 0) as [Hz|_]; [lia|].
    rewrite Nat2Z.id, Hb, Z.eqb_refl.
    cbn [negb RedisCommandFrame]. rewrite Hfind, luaPushError_spec. reflexivity.
  - intros flags Hfind Hflag. unfold CallArdb. rewrite Htop.
    destruct (Z.eqb_spec (Z.of_nat (length vs)) 0) as [Hz|_]; [lia|].
    rewrite Nat2Z.id, Hb, Z.eqb_refl.
    cbn [negb RedisCommandFrame]. rewrite Hfind.
    rewrite (proj2 (Z.eqb_neq _ _) Hflag). cbn [negb].
    rewrite luaPushError_spec. reflexivity.
Qed.

Lemma redisProtocolToLuaType_error (L : lua_Stack) (i : Z) (s : string)
    (elems : list RedisReply) :
  redisProtocolToLuaType L (Build_RedisReply REDIS_REPLY_ERROR i s elems) =
    Ok (LTable {[ KStr "err" := LString s ]} :: L).
Proof.
  cbn [redisProtocolToLuaType]. unfold lua_newtable, lua_pushstring, lua_pushlstring.
  cbn [c_str Ascii.eqb Bool.eqb].
  rewrite (lua_settable_third _ _ (KStr "err")); [|reflexivity|discriminate].
  rewrite insert_empty. reflexivity.
Qed.

(** What the bridge does when the executor answers with an error. *)
Lemma CallArdb_error_reply (raise_error : bool) (ar : option lua_Debug) (L : lua_Stack)
    (srv : ArdbServer) (name : string) (args : list string) (flags : Z) (db' : Db)
    (i : Z) (s : string) (elems : list RedisReply) :
  lua_gettop L <> 0 ->
  build_cmdargs L (Z.to_nat (lua_gettop L)) 0 [] = (lua_gettop L, name :: args) ->
  FindRedisCommandHandlerSetting (lower_string name) = Some flags ->
  Z.land flags ARDB_CMD_NOSCRIPT = 0 ->
  ProcessRedisCommand (m_db srv) (lower_string name) args =
    (db', Build_RedisReply REDIS_REPLY_ERROR i s elems) ->
  let srv' :=
    set_ctx_reply (Build_RedisReply REDIS_REPLY_ERROR i s elems)
      (add_dispatched (lower_string name, args) (set_db db' srv)) in
  let t := LTable {[ KStr "err" := LString s ]} in
  let L' := snd (build_cmdargs_loop L (Z.to_nat (lua_gettop L)) 0 []) in
  CallArdb raise_error ar L srv =
    if raise_error then Ok (NRaise s, LString s :: t :: L', srv')
    else Ok (NReturn 1, t :: L', srv').
Proof.
  intros Htop Hargs Hfind Hflag Hproc srv' t L'. unfold CallArdb.
  rewrite (proj2 (Z.eqb_neq _ _) Htop), build_cmdargs_loop_eq, Hargs.
  cbn [fst snd]. rewrite Z.eqb_refl.
  cbn [negb RedisCommandFrame]. rewrite Hfind, Hflag. cbn [Z.eqb negb].
  rewrite Hproc. cbn [reply_type].
  rewrite bool_decide_true by reflexivity. cbn [negb]. rewrite andb_false_r.
  rewrite redisProtocolToLuaType_error. res_step.
  destruct raise_error; [|reflexivity].
  unfold lua_pushstring. cbn [c_str Ascii.eqb Bool.eqb].
  rewrite lua_gettable_second. res_step.
  rewrite table_get_str, lookup_singleton_eq. reflexivity.
Qed.

(** ** Init *)

Lemma global_set_lax (l : lua_State) (caller : option frame_what) (w n : string)
    (v : LuaValue) :
  strict l = false ->
  global_set l caller w n v = inr (set_globals (rawset (globals l) n v) l).
Proof.
  intros H. unfold global_set. rewrite H. destruct (globals l !! n); reflexivity.
Qed.

Lemma lua_setglobal_lax (l : lua_State) (n : string) (v : LuaValue) (rest : lua_Stack) :
  strict l = false -> stack l = v :: rest ->
  lua_setglobal l n = Ok (set_globals (rawset (globals l) n v) (set_stack rest l)).
Proof.
  intros Hs Hst. unfold lua_setglobal. rewrite Hst.
  rewrite global_set_lax by exact Hs. reflexivity.
Qed.

Lemma lua_getglobal_lax (l : lua_State) (n : string) :
  strict l = false ->
  lua_getglobal l n = Ok (set_stack (rawget (globals l) n :: stack l) l).
Proof.
  intros Hs. unfold lua_getglobal, global_get, rawget. rewrite Hs.
  destruct (globals l !! n); reflexivity.
Qed.

Lemma set_field_spec (name : string) (v : LuaValue) (t : gmap LuaKey LuaValue)
    (L : lua_Stack) :
  v <> LNil ->
  set_field name v (LTable t :: L) = Ok (LTable (<[KStr (c_str name) := v]> t) :: L).
Proof.
  intros Hv. unfold set_field, lua_pushstring.
  apply lua_settable_third; [reflexivity|exact Hv].
Qed.

Lemma set_field_not_table (name : string) (v x : LuaValue) (L : lua_Stack) :
  (forall t, x <> LTable t) -> set_field name v (x :: L) = Undef.
Proof.
  intros Hx. unfold set_field, lua_pushstring, lua_settable, index2adr. cbn [length].
  destruct (Z.leb_spec (- -3) (Z.of_nat (S (S (S (length L)))))); [|lia].
  cbn. destruct x; try reflexivity. exfalso. eapply Hx. reflexivity.
Qed.

Lemma redis_table_call : redis_table !! KStr "call" = Some (LCFunction FnCall).
Proof. unfold redis_table. rewrite !lookup_insert_ne by discriminate. apply lookup_insert_eq. Qed.

Lemma redis_table_pcall : redis_table !! KStr "pcall" = Some (LCFunction FnPCall).
Proof. unfold redis_table. rewrite !lookup_insert_ne by discriminate. apply lookup_insert_eq. Qed.

Lemma Init_inv (l : lua_State) :
  Init = Ok l ->
  stack l = [] /\ strict l = true /\ hook l = None /\ gc_steps l = O
  /\ globals l !! "redis" = Some (LTable redis_table)
  /\ globals l !! ERR_HANDLER = Some (LFunction ERR_HANDLER).
Proof.
  unfold Init, RemoveUnsupportedFunctions, LoadLibs, on_stack.
  rewrite (lua_setglobal_lax _ "loadfile" LNil []) by reflexivity. res_step.
  cbn [stack set_stack set_globals lua_open globals code strict hook gc_steps rawset].
  unfold lua_newtable.
  repeat (rewrite set_field_spec by discriminate; res_step).
  cbn [c_str Ascii.eqb Bool.eqb]. fold redis_table.
  rewrite (lua_setglobal_lax _ "redis" (LTable redis_table) []) by reflexivity. res_step.
  rewrite lua_getglobal_lax by reflexivity. res_step.
  cbn [stack set_stack set_globals globals code strict hook gc_steps rawset rawget].
  unfold rawget. rewrite lookup_insert_eq. cbn [from_option id].
  rewrite (lua_setglobal_lax _ "ardb" (LTable redis_table) []) by reflexivity. res_step.
  rewrite lua_getglobal_lax by reflexivity. res_step.
  cbn [stack set_stack set_globals globals code strict hook gc_steps rawset rawget].
  unfold rawget.
  destruct (default LNil (_ !! "math")) as [| | | |tm| |] eqn:Hm.
  5:{ repeat (rewrite set_field_spec by discriminate; res_step).
      cbn [c_str Ascii.eqb Bool.eqb stack set_stack].
      erewrite lua_setglobal_lax; [|reflexivity|reflexivity]. res_step.
      intros [= <-].
      cbn [stack set_stack set_globals globals code strict hook gc_steps rawset
           scriptingEnableGlobalsProtection set_strict].
      repeat split.
      - rewrite !lookup_insert_ne by discriminate. apply lookup_insert_eq.
      - apply lookup_insert_eq. }
  all: rewrite set_field_not_table by discriminate; res_step; discriminate.
Qed.

(** C10 (which entry point raises).  Init registers Call under [call] and
    PCall under [pcall] in the table [redis]; Call runs the bridge with
    [raise_error = false] and PCall with [raise_error = true].  So, for a
    bridge call that the executor answers with the error [s]: through
    [redis.pcall] the error is raised in the script, whose continuation never
    runs, and through [redis.call] the script goes on with the table
    [{err = s}] as an ordinary value. *)
Theorem call_returns_pcall_raises (line : Z) (what : frame_what) (args : list LuaValue)
    (k : list LuaValue -> Script) (srv : ArdbServer) (name : string)
    (cmdargs : list string) (flags : Z) (db' : Db) (i : Z) (s : string)
    (elems : list RedisReply) :
  globals (m_lua srv) !! "redis" = Some (LTable redis_table) ->
  lua_gettop (rev args) <> 0 ->
  build_cmdargs (rev args) (Z.to_nat (lua_gettop (rev args))) 0 []
    = (lua_gettop (rev args), name :: cmdargs) ->
  FindRedisCommandHandlerSetting (lower_string name) = Some flags ->
  Z.land flags ARDB_CMD_NOSCRIPT = 0 ->
  ProcessRedisCommand (m_db srv) (lower_string name) cmdargs =
    (db', Build_RedisReply REDIS_REPLY_ERROR i s elems) ->
  let srv' :=
    set_ctx_reply (Build_RedisReply REDIS_REPLY_ERROR i s elems)
      (add_dispatched (lower_string name, cmdargs) (set_db db' srv)) in
  (forall l, Init = Ok l -> globals l !! "redis" = Some (LTable redis_table))
  /\ redis_table !! KStr "call" = Some (LCFunction FnCall)
  /\ redis_table !! KStr "pcall" = Some (LCFunction FnPCall)
  /\ run_native FnCall = CallArdb false
  /\ run_native FnPCall = CallArdb true
  /\ exec (SCallField line what "redis" "pcall" args k) srv
       = Ok (Raised (Some (script_dbg line)) s, srv')
  /\ exec (SCallField line what "redis" "call" args k) srv
       = exec (k [LTable {[ KStr "err" := LString s ]}]) srv'.
Proof.
  intros Hredis Htop Hargs Hfind Hflag Hproc srv'.
  split; [intros l Hl; apply (Init_inv l Hl)|].
  split; [apply redis_table_call|].
  split; [apply redis_table_pcall|].
  split; [reflexivity|]. split; [reflexivity|].
  split.
  - cbn [exec]. unfold global_get. rewrite Hredis, redis_table_pcall.
    cbn [run_native]. unfold PCall.
    rewrite (CallArdb_error_reply true _ _ _ name cmdargs flags db' i s elems)
      by assumption.
    reflexivity.
  - cbn [exec]. unfold global_get. rewrite Hredis, redis_table_call.
    cbn [run_native]. unfold Call.
    rewrite (CallArdb_error_reply false _ _ _ name cmdargs flags db' i s elems)
      by assumption.
    reflexivity.
Qed.

(** ** C8: cancellation *)

Lemma lower_char_nul (c : ascii) : Ascii.eqb (lower_char c) "000" = Ascii.eqb c "000".
Proof.
  destruct c as [[] [] [] [] [] [] [] []]; reflexivity.
Qed.

Lemma N_of_ascii_0 (c : ascii) : Z.of_N (N_of_ascii c) = 0 -> c = "000"%char.
Proof.
  intros H. assert (N_of_ascii c = 0%N) as H0 by lia.
  rewrite <- (ascii_N_embedding c), H0. reflexivity.
Qed.

Lemma has_nul_c_str (s : string) : has_nul (c_str s) = false.
Proof.
  induction s as [|c s IH]; [reflexivity|]. cbn [c_str].
  destruct (Ascii.eqb c "000") eqn:E; [reflexivity|].
  cbn [has_nul]. rewrite E, IH. reflexivity.
Qed.

Lemma strcasecmp_bytes_0 (a : string) :
  forall b, has_nul a = false -> has_nul b = false ->
    (strcasecmp_bytes a b = 0 <-> lower_string a = lower_string b).
Proof.
  induction a as [|ca a IH]; intros [|cb b] Ha Hb; cbn [strcasecmp_bytes lower_string].
  - split; reflexivity.
  - cbn [has_nul] in Hb. apply orb_false_elim in Hb as [Hcb _]. split.
    + intros H. assert (Z.of_N (N_of_ascii (lower_char cb)) = 0) as H0 by lia.
      apply N_of_ascii_0 in H0. rewrite <- lower_char_nul, H0 in Hcb. discriminate.
    + discriminate.
  - cbn [has_nul] in Ha. apply orb_false_elim in Ha as [Hca _]. split.
    + intros H0. apply N_of_ascii_0 in H0. rewrite <- lower_char_nul, H0 in Hca. discriminate.
    + discriminate.
  - cbn [has_nul] in Ha, Hb.
    apply orb_false_elim in Ha as [_ Ha]. apply orb_false_elim in Hb as [_ Hb].
    destruct (Ascii.eqb_spec (lower_char ca) (lower_char cb)) as [Heq|Hne].
    + rewrite Heq, (IH b Ha Hb). split; [intros ->; reflexivity|intros [=]; assumption].
    + split.
      * intros H. exfalso. apply Hne.
        assert (N_of_ascii (lower_char ca) = N_of_ascii (lower_char cb)) as HN by lia.
        rewrite <- (ascii_N_embedding (lower_char ca)), HN. apply ascii_N_embedding.
      * intros [=]. contradiction.
Qed.

Lemma strcasecmp_same_name (a b : string) : (strcasecmp a b =? 0) = same_name a b.
Proof.
  unfold strcasecmp, same_name.
  pose proof (strcasecmp_bytes_0 (c_str a) (c_str b) (has_nul_c_str a) (has_nul_c_str b)) as H.
  destruct (Z.eqb_spec (strcasecmp_bytes (c_str a) (c_str b)) 0) as [E|E].
  - symmetry. apply bool_decide_eq_true. apply H. exact E.
  - symmetry. apply bool_decide_eq_false. intros Hl. apply E, H. exact Hl.
Qed.

Lemma on_kill_event_spec (srv : ArdbServer) :
  on_kill_event srv =
    match lua_executing_func (m_ctx srv) with
    | Some f => if kill_matches (m_killing_func srv) f then set_ctx (set_kill true) srv else srv
    | None => srv
    end.
Proof.
  unfold on_kill_event, kill_matches. destruct (lua_executing_func (m_ctx srv)); [|reflexivity].
  rewrite !strcasecmp_same_name. reflexivity.
Qed.

Lemma deliver_app (evs1 evs2 : list user_event) (srv : ArdbServer) :
  deliver (evs1 ++ evs2) srv = (deliver evs1 srv ≫= deliver evs2).
Proof.
  revert srv. induction evs1 as [|e evs1 IH]; intros srv; [reflexivity|].
  cbn [app deliver].
  destruct (ScriptEventCallback e srv) as [srv1| |]; res_step; [apply IH|reflexivity|reflexivity].
Qed.

Lemma on_kill_event_idem (srv : ArdbServer) :
  on_kill_event (on_kill_event srv) = on_kill_event srv.
Proof.
  rewrite !on_kill_event_spec.
  destruct (lua_executing_func (m_ctx srv)) as [f|] eqn:Hf; [|rewrite Hf; reflexivity].
  destruct (kill_matches (m_killing_func srv) f) eqn:Hk.
  - cbn [set_ctx m_ctx set_kill lua_executing_func m_killing_func].
    rewrite Hf, Hk. destruct srv; reflexivity.
  - rewrite Hf, Hk. reflexivity.
Qed.






(** ** The generator *)

Lemma MathRandom_generator (ar : option lua_Debug) (L : lua_Stack) (srv1 srv2 : ArdbServer) :
  m_rand srv1 = m_rand srv2 ->
  drawn (MathRandom ar L srv1) = drawn (MathRandom ar L srv2).
Proof.
  intros H. unfold MathRandom, drawn. rewrite <- H.
  destruct (redisLrand48 (m_rand srv1)) as [x seed].
  destruct (lua_gettop L) as [|[p|[p|p|]|]|p]; try reflexivity.
  all: repeat (match goal with
               | |- context [luaL_checkint ?st ?n] =>
                   destruct (luaL_checkint st n) as [[?|?]| |]
               end; res_step; try reflexivity).
  all: repeat (match goal with
               | |- context [if ?c then _ else _] => destruct c
               end; try reflexivity).
Qed.

Lemma MathRandomSeed_generator (ar : option lua_Debug) (L : lua_Stack)
    (srv1 srv2 : ArdbServer) :
  m_rand srv1 = m_rand srv2 ->
  drawn (MathRandomSeed ar L srv1) = drawn (MathRandomSeed ar L srv2).
Proof.
  intros H. unfold MathRandomSeed, drawn.
  destruct (luaL_checkint L 1) as [[msg|seed]| |]; try reflexivity.
  res_step. rewrite H. reflexivity.
Qed.

(** ** C7: what Eval does after the protected call *)

Lemma Eval_reply_keeps (funcname : string) (errid : Z) (reply : RedisReply)
    (srv : ArdbServer) (rc : Z) (reply' : RedisReply) (srv' : ArdbServer) :
  Eval_reply funcname errid reply srv = Ok (rc, reply', srv') ->
  exists L, srv' = set_lua (set_stack L) srv.
Proof.
  unfold Eval_reply. destruct (negb (errid =? 0)).
  - destruct (of_option (lua_tolstring (stack (m_lua srv)) (-1))) as [msg| |];
      res_step; try discriminate.
    destruct (lua_pop (stack (m_lua srv)) 2) as [L| |]; res_step; try discriminate.
    intros [= <- <- <-]. exists L. reflexivity.
  - destruct (stack (m_lua srv)) as [|v st]; [discriminate|].
    destruct (luaReplyToRedisReply _ _ _) as [[L r]| |]; res_step; try discriminate.
    destruct (lua_pop L 1) as [L'| |]; res_step; try discriminate.
    intros [= <- <- <-]. exists L'. reflexivity.
Qed.




(** ** C9: the protection of globals *)


(** ** C3: EVALSHA *)

(** An EVALSHA argument that is not 40 characters long is answered with
    NOSCRIPT at once: nothing is looked up and nothing but the generator has
    changed. *)
Lemma Eval_evalsha_bad_length (func : string) (keys args : list string)
    (reply : RedisReply) (srv : ArdbServer) :
  String.length func <> 40%nat ->
  Eval func keys args true reply srv =
    Ok (-1, set_str NOSCRIPT_MSG (set_type REDIS_REPLY_ERROR reply),
        set_rand (redisSrand48 0) srv).
Proof.
  intros Hlen. unfold Eval. cbn [andb].
  destruct (Z.eqb_spec (Z.of_nat (String.length func)) 40) as [E|E]; [lia|reflexivity].
Qed.

(** Exists reads a return of 0 from GetScript as "there is a record". *)
Lemma Exists_spec (sha : string) (srv : ArdbServer) :
  Exists sha srv = bool_decide (is_Some (m_scripts srv !! ("f_" +:+ sha))).
Proof.
  unfold Exists, GetScript. destruct (m_scripts srv !! ("f_" +:+ sha)) as [b|]; reflexivity.
Qed.

Lemma lua_getglobal_bound (l : lua_State) (n : string) (v : LuaValue) :
  globals l !! n = Some v -> lua_getglobal l n = Ok (set_stack (v :: stack l) l).
Proof. intros H. unfold lua_getglobal, global_get. rewrite H. reflexivity. Qed.

Lemma lua_getglobal_unbound (l : lua_State) (n : string) :
  globals l !! n = None -> lua_getglobal l n = Ok (set_stack (LNil :: stack l) l).
Proof.
  intros H. unfold lua_getglobal, global_get, mt__index, rawget. rewrite H.
  destruct (strict l); reflexivity.
Qed.

(** A 40-character digest with no function in the interpreter: Eval answers
    NOSCRIPT when the store HAS a record for it, and goes on to define a
    function from an empty body when it has none. *)
Lemma Eval_evalsha_unknown (func : string) (keys args : list string)
    (reply : RedisReply) (srv : ArdbServer) :
  String.length func = 40%nat ->
  stack (m_lua srv) = [] ->
  globals (m_lua srv) !! ERR_HANDLER = Some (LFunction ERR_HANDLER) ->
  globals (m_lua srv) !! c_str ("f_" +:+ func) = None ->
  Eval func keys args true reply srv =
    let srv0 := set_lua (set_stack [LFunction ERR_HANDLER]) (set_rand (redisSrand48 0) srv) in
    if Exists func srv then
      Ok (-1, set_str NOSCRIPT_MSG (set_type REDIS_REPLY_ERROR reply),
          set_lua (set_stack []) srv0)
    else
      Eval_define ("f_" +:+ func) EmptyString reply srv0 ≫= fun d =>
      match d with
      | inl early => Ok early
      | inr srv1 => Eval_run ("f_" +:+ func) keys args reply srv1
      end.
Proof.
  intros Hlen Hst Hh Hf. unfold Eval. rewrite Hlen. cbn [andb Z.eqb negb Z.of_nat].
  change (Z.of_nat 40 =? 40) with true. cbn [negb andb].
  cbn [set_rand m_lua].
  rewrite (lua_getglobal_bound _ _ _ Hh). res_step.
  rewrite lua_getglobal_unbound by exact Hf. res_step.
  cbn [set_lua m_lua set_stack stack]. rewrite Hst.
  unfold lua_isnil. rewrite lua_type_top. cbn [type_of].
  rewrite bool_decide_true by reflexivity. rewrite lua_pop_1. res_step.
  unfold Exists, GetScript. cbn [set_lua set_rand m_scripts set_scripts m_lua set_stack stack].
  destruct (m_scripts srv !! ("f_" +:+ func)) as [body|] eqn:Hs; cbn [fst Z.eqb].
  - rewrite lua_pop_1. res_step. reflexivity.
  - change (-1 =? 0) with false. cbv iota. reflexivity.
Qed.

(** ** C5: Load *)

Lemma adjust_results_0 (vs : list LuaValue) : adjust_results 0 vs = [].
Proof. reflexivity. Qed.

(** CreateLuaFunction when the text compiles to a chunk that does nothing but
    define the function. *)
Lemma CreateLuaFunction_plain (funcname body err : string) (srv : ArdbServer)
    (line : Z) (what : frame_what) (b : Script) (vs : list LuaValue) :
  lua_compile ("function " +:+ funcname +:+ "() " +:+ body +:+ " end")
    = inr (SDefine line what funcname b (SReturn vs)) ->
  let chunk := SDefine line what funcname b (SReturn vs) in
  let l1 := set_code (<[USER_SCRIPT := chunk]> (code (m_lua srv))) (m_lua srv) in
  CreateLuaFunction funcname body err srv =
    match global_set l1 (Some what) (luaL_where (Some (script_dbg line)))
            funcname (LFunction funcname) with
    | inr l2 =>
        Ok (0, err,
            SaveScript funcname body
              (set_lua (fun _ => set_code (<[funcname := b]> (code l2)) l2) srv))
    | inl msg =>
        Ok (-1, err +:+ "Error running script (new function): " +:+ c_str msg +:+ NEWLINE,
            set_lua (fun _ => l1) srv)
    end.
Proof.
  intros Hc chunk l1. unfold CreateLuaFunction, luaL_loadbuffer. rewrite Hc.
  cbn [negb Z.eqb]. unfold lua_pcall.
  cbn [set_lua m_lua set_stack stack set_code code]. cbn [Z.eqb].
  unfold call_value. cbn [set_lua m_lua set_stack stack set_code code].
  rewrite lookup_insert_eq. cbn [exec].
  cbn [set_lua m_lua set_stack stack set_code code globals strict].
  unfold global_set at 1.
  cbn [set_lua m_lua set_stack stack set_code code globals strict set_globals].
  unfold global_set. subst l1. cbn [set_code globals strict].
  destruct (globals (m_lua srv) !! funcname) as [old|].
  - res_step. cbn [negb Z.eqb]. reflexivity.
  - destruct (strict (m_lua srv)).
    + destruct (mt__newindex (Some what) _ _ _ _) as [msg|g]; res_step.
      * cbn [negb Z.eqb LUA_ERRRUN]. change (LUA_ERRRUN =? 0) with false. cbn [negb].
        cbn [set_lua m_lua set_stack stack set_code code].
        rewrite lua_tolstring_top. cbn [of_option]. res_step. rewrite lua_pop_1. res_step.
        destruct (m_lua srv); reflexivity.
      * cbn [negb Z.eqb]. reflexivity.
    + res_step. cbn [negb Z.eqb]. reflexivity.
Qed.

Lemma insert_twice_under {A : Type} (m : gmap string A) (i j : string) (x y : A) :
  <[i := x]> (<[j := y]> (<[i := x]> (<[j := y]> m))) = <[i := x]> (<[j := y]> m).
Proof.
  apply map_eq. intros k.
  destruct (decide (i = k)) as [->|Hi].
  - rewrite !lookup_insert_eq. reflexivity.
  - rewrite (lookup_insert_ne _ i k) by exact Hi.
    rewrite (lookup_insert_ne (<[j:=y]> m) i k) by exact Hi.
    destruct (decide (j = k)) as [->|Hj].
    + rewrite !lookup_insert_eq. reflexivity.
    + rewrite !(lookup_insert_ne _ j k) by exact Hj.
      rewrite lookup_insert_ne by exact Hi.
      rewrite lookup_insert_ne by exact Hj. reflexivity.
Qed.

(** C5, amended (idempotent define).  When the text [function f_<digest>()
    body end] compiles to a chunk that does nothing but define that function,
    and Load succeeds on the body, a second Load of the same body succeeds,
    yields the same digest and leaves the interpreter and the script store as
    the first Load left them. *)
Theorem Load_twice (func : string) (srv srv1 : ArdbServer) (ret : string)
    (line : Z) (what : frame_what) (b : Script) (vs : list LuaValue) :
  lua_compile ("function " +:+ ("f_" +:+ sha1_sum func) +:+ "() " +:+ func +:+ " end")
    = inr (SDefine line what ("f_" +:+ sha1_sum func) b (SReturn vs)) ->
  Load func srv = Ok (1, ret, srv1) ->
  ret = sha1_sum func /\ Load func srv1 = Ok (1, ret, srv1).
Proof.
  intros Hc. unfold Load.
  rewrite !(CreateLuaFunction_plain _ _ _ _ line what b vs Hc).
  set (fn := "f_" +:+ sha1_sum func) in *.
  set (chunk := SDefine line what fn b (SReturn vs)).
  set (w := luaL_where (Some (script_dbg line))).
  destruct (global_set _ (Some what) w fn (LFunction fn)) as [msg|l2] eqn:Hg;
    res_step; cbn [Z.eqb]; [discriminate|].
  intros [= <- <-]. split; [reflexivity|].
  assert (Hl2 : l2 = set_globals (<[fn := LFunction fn]> (globals (m_lua srv)))
                       (set_code (<[USER_SCRIPT := chunk]> (code (m_lua srv))) (m_lua srv))).
  { revert Hg. unfold global_set, mt__newindex. cbn [set_code globals strict rawset].
    destruct (globals (m_lua srv) !! fn); [intros [= <-]; reflexivity|].
    destruct (strict (m_lua srv)); [|intros [= <-]; reflexivity].
    destruct (_ && _)%bool; [discriminate|]. intros [= <-]. reflexivity. }
  subst l2.
  cbn [SaveScript set_scripts set_lua m_lua set_code code set_globals globals strict
       m_scripts].
  unfold global_set.
  cbn [set_code set_globals globals strict rawset].
  rewrite lookup_insert_eq. res_step. cbn [Z.eqb].
  do 2 f_equal.
  unfold SaveScript, set_scripts, set_lua.
  cbn [m_lua m_db m_scripts lua_time_limit m_ctx m_ctx_reply m_killing_func
       m_pending m_rand m_clock m_dispatched m_log m_continues].
  unfold set_code, set_globals. cbn [stack globals code strict hook gc_steps].
  rewrite !insert_insert_eq, insert_twice_under. reflexivity.
Qed.

(** ** The conversion of a reply pushes one value *)

Lemma arrays_fit_Array (l : list WireReply) :
  arrays_fit (Array l) = true ->
  Z.of_nat (length l) < INT_MAX - 1 /\ Forall (fun w => arrays_fit w = true) l.
Proof.
  cbn [arrays_fit]. intros H. apply andb_prop in H as [Hlen Hall]. split.
  - apply Z.ltb_lt. exact Hlen.
  - apply Forall_forall. intros w Hw.
    rewrite forallb_forall in Hall. apply Hall. apply list_elem_of_In. exact Hw.
Qed.

Lemma redisProtocolToLuaType_status (L : lua_Stack) (i : Z) (s : string)
    (elems : list RedisReply) :
  redisProtocolToLuaType L (Build_RedisReply REDIS_REPLY_STATUS i s elems) =
    Ok (LTable {[ KStr "ok" := LString s ]} :: L).
Proof.
  cbn [redisProtocolToLuaType]. unfold lua_newtable, lua_pushstring, lua_pushlstring.
  cbn [c_str Ascii.eqb Bool.eqb].
  rewrite (lua_settable_third _ _ (KStr "ok")); [|reflexivity|discriminate].
  rewrite insert_empty. reflexivity.
Qed.

Lemma redisProtocolToLuaType_fit (r : RedisReply) (L : lua_Stack) :
  arrays_fit (wire_view r) = true ->
  redisProtocolToLuaType L r = Ok (toScriptValue (wire_view r) :: L).
Proof.
  revert L. induction r as [ty i s elems IH] using RedisReply_nested_ind. intros L Hfit.
  destruct ty;
    [reflexivity| |reflexivity|reflexivity
    |exact (redisProtocolToLuaType_status L i s elems)
    |exact (redisProtocolToLuaType_error L i s elems)].
  cbn [redisProtocolToLuaType wire_view].
  - cbn [wire_view] in Hfit. apply arrays_fit_Array in Hfit as [Hlen Hall].
    rewrite length_fmap in Hlen. unfold lua_newtable.
    change (LTable ∅) with (LTable (array_table [])).
    change 0 with (Z.of_nat (length (@nil LuaValue))).
    rewrite push_elements_spec.
    + rewrite toScriptValue_Array. reflexivity.
    + rewrite Forall_forall in IH. rewrite Forall_forall in Hall.
      apply Forall_forall. intros e He L'. apply IH; [exact He|].
      apply Hall. apply list_elem_of_fmap. exists e. split; [reflexivity|exact He].
    + cbn [length]. lia.
Qed.

Lemma push_elements_total (convert : lua_Stack -> RedisReply -> res lua_Stack)
    (es : list RedisReply) :
  Forall (fun e => forall L', exists v, convert L' e = Ok (v :: L') /\ is_nil v = false) es ->
  forall (j : Z) (t : gmap LuaKey LuaValue) (L : lua_Stack),
    exists t', push_elements convert es j (LTable t :: L) = Ok (LTable t' :: L).
Proof.
  induction 1 as [|e es He _ IH]; intros j t L; [eexists; reflexivity|].
  cbn [push_elements]. unfold lua_pushnumber.
  destruct (He (LNumber (lua_Number_of_Z ((j + 1) mod UINT32_MOD)) :: LTable t :: L))
    as (v & -> & Hv).
  res_step.
  assert (Hk : 0 <= (j + 1) mod UINT32_MOD < 2 ^ 53).
  { pose proof (Z.mod_pos_bound (j + 1) UINT32_MOD ltac:(reflexivity)) as Hb.
    unfold UINT32_MOD in *. lia. }
  rewrite (lua_settable_third _ _ (KInt ((j + 1) mod UINT32_MOD))).
  - res_step. apply IH.
  - cbn [key_of_value]. apply key_of_number_of_Z. exact Hk.
  - intros ->. discriminate Hv.
Qed.

Lemma redisProtocolToLuaType_total (r : RedisReply) :
  forall L, exists v, redisProtocolToLuaType L r = Ok (v :: L) /\ is_nil v = false.
Proof.
  induction r as [ty i s elems IH] using RedisReply_nested_ind. intros L.
  destruct ty.
  - eexists. split; reflexivity.
  - cbn [redisProtocolToLuaType]. unfold lua_newtable.
    destruct (push_elements_total redisProtocolToLuaType elems IH 0 ∅ L) as [t' Ht'].
    exists (LTable t'). split; [exact Ht'|reflexivity].
  - eexists. split; reflexivity.
  - eexists. split; reflexivity.
  - eexists. split; [apply redisProtocolToLuaType_status|reflexivity].
  - eexists. split; [apply redisProtocolToLuaType_error|reflexivity].
Qed.

(** X1.  redisProtocolToLuaType pushes exactly one value and leaves the values
    below it as they are, whatever the reply, and the value it pushes is never
    nil.  For a reply whose arrays have fewer than [INT_MAX - 1] elements the
    value is: a number for an integer, [false] for nil, the string itself for
    a bulk string, the table [{ok = s}] or [{err = s}] with the message byte
    for byte for a status or an error, and for an array the table of the
    converted elements under the keys 1, 2, ... in their order. *)
Theorem redisProtocolToLuaType_pushes_one (r : RedisReply) (L : lua_Stack) :
  (exists v, redisProtocolToLuaType L r = Ok (v :: L) /\ is_nil v = false)
  /\ (arrays_fit (wire_view r) = true ->
      redisProtocolToLuaType L r = Ok (toScriptValue (wire_view r) :: L)).
Proof.
  split.
  - apply redisProtocolToLuaType_total.
  - apply redisProtocolToLuaType_fit.
Qed.

(** ** The array part of a table ends at its first missing index *)

Lemma array_table_subseteq (vs : list LuaValue) (t : gmap LuaKey LuaValue) :
  (forall (i : nat) v, vs !! i = Some v -> t !! KInt (1 + Z.of_nat i) = Some v) ->
  array_table vs ⊆ t.
Proof.
  intros H. apply map_subseteq_spec. intros k v Hk. destruct k as [s|j].
  - rewrite array_table_lookup_str in Hk. discriminate.
  - rewrite array_table_lookup in Hk.
    destruct (decide (1 <= j <= Z.of_nat (length vs))) as [Hj|]; [|discriminate].
    apply H in Hk. replace (1 + Z.of_nat (Z.to_nat (j - 1))) with j in Hk by lia.
    exact Hk.
Qed.

(** X2.  A table with no string under [err] or [ok] is converted to the array
    of its entries 1, 2, ..., n where n + 1 is the first index with no entry:
    whatever the table holds under larger indices or under other keys is left
    out of the reply, and nothing is reported. *)
Theorem luaReplyToRedisReply_stops_at_first_hole (t : gmap LuaKey LuaValue)
    (vs : list LuaValue) (ws : list WireReply) (L : lua_Stack) (fuel : nat) :
  tables_fit_int (LTable t) = true ->
  (fuel_of (LTable t) <= fuel)%nat ->
  (forall s, t !! KStr "err" <> Some (LString s)) ->
  (forall s, t !! KStr "ok" <> Some (LString s)) ->
  (forall (i : nat) v, vs !! i = Some v -> t !! KInt (1 + Z.of_nat i) = Some v) ->
  Forall2 (fun v w => is_nil v = false /\ toWireReply code_sanitize v = Some w) vs ws ->
  t !! KInt (1 + Z.of_nat (length vs)) = None ->
  luaReplyToRedisReply fuel (LTable t :: L) RedisReply_new
    = Ok (L, reply_of_wire (Array ws)).
Proof.
  intros Hfit Hfuel Herr Hok Hvs Hws Hend.
  rewrite luaReplyToRedisReply_spec by assumption.
  assert (Hlen : length vs = length ws) by (eapply Forall2_length; exact Hws).
  assert (Hsize : (length ws <= size t)%nat).
  { rewrite <- Hlen, <- (array_table_size vs).
    apply map_subseteq_size, array_table_subseteq. exact Hvs. }
  assert (Hseq : read_sequence
                   ((fun x => if is_nil x then None else Some (toWireReply code_sanitize x))
                      <$> t) 1 (S (size t)) = Some ws).
  { replace (size t) with (length ws + (size t - length ws))%nat by lia.
    apply read_sequence_array.
    - intros i w Hw. rewrite lookup_fmap.
      destruct (Forall2_lookup_r _ _ _ _ _ Hws Hw) as (v & Hv & Hnil & Hconv).
      rewrite (Hvs i v Hv). cbn. rewrite Hnil, Hconv. reflexivity.
    - rewrite lookup_fmap, <- Hlen, Hend. reflexivity. }
  cbn [toWireReply].
  destruct (t !! KStr "err") as [[| | |e| | |]|] eqn:He;
    try (exfalso; exact (Herr e eq_refl));
    (destruct (t !! KStr "ok") as [[| | |o| | |]|] eqn:Ho;
       try (exfalso; exact (Hok o eq_refl)));
    rewrite Hseq; reflexivity.
Qed.

(** ** Integer replies through a script *)

(** X3.  An integer reply below 2^53 in magnitude that a script hands back as
    it received it comes out as the same integer: the double that
    redisProtocolToLuaType pushes holds it exactly and the cast of
    luaReplyToRedisReply reads it back. *)
Theorem roundtrip_integer (i : Z) (s : string) (elems : list RedisReply) (L : lua_Stack)
    (fuel : nat) :
  Z.abs i < 2 ^ 53 -> (1 <= fuel)%nat ->
  (redisProtocolToLuaType L (Build_RedisReply REDIS_REPLY_INTEGER i s elems)
   ≫= fun L' => luaReplyToRedisReply fuel L' RedisReply_new)
    = Ok (L, reply_of_wire (Integer i)).
Proof.
  intros Hi Hfuel. cbn [redisProtocolToLuaType]. unfold lua_pushnumber. res_step.
  rewrite luaReplyToRedisReply_spec; [|reflexivity|exact Hfuel].
  cbn [toWireReply]. rewrite to_longlong_of_Z by exact Hi. reflexivity.
Qed.

(** ** The arguments of a bridge call *)

(** Converting a number where it stands does not change which slots hold a
    string or a number. *)
Lemma lua_tolstring_stack_other (L : lua_Stack) (i j : Z) :
  lua_isstring (lua_tolstring_stack L j) i = lua_isstring L i.
Proof.
  unfold lua_isstring, lua_type, lua_at, lua_tolstring_stack.
  destruct (index2adr L j) as [a|] eqn:Ha; [|reflexivity].
  destruct (L !! a) as [v|] eqn:Hv; [|reflexivity].
  destruct v; try reflexivity.
  assert (Hidx : index2adr (<[a:=LString (lua_number2str n)]> L) i = index2adr L i).
  { unfold index2adr.
    replace (length (<[a:=LString (lua_number2str n)]> L)) with (length L)
      by (symmetry; apply length_insert).
    reflexivity. }
  rewrite Hidx. destruct (index2adr L i) as [b|]; [|reflexivity].
  destruct (decide (a = b)) as [->|Hne].
  - unfold lua_Stack in *. rewrite list_lookup_insert_eq by (apply lookup_lt_Some in Hv; exact Hv).
    rewrite Hv. reflexivity.
  - unfold lua_Stack in *. rewrite list_lookup_insert_ne by exact Hne. reflexivity.
Qed.

(** The loop stops at the first argument that is neither a string nor a
    number. *)
Lemma build_cmdargs_stops (i : Z) (n : nat) :
  forall (L : lua_Stack) (j : Z) (acc : list string),
    lua_isstring L i = false ->
    j < i <= j + Z.of_nat n -> fst (fst (build_cmdargs_loop L n j acc)) < i.
Proof.
  induction n as [|n IH]; intros L j acc Hbad Hi; [lia|].
  cbn [build_cmdargs_loop].
  destruct (lua_isstring L (j + 1)) eqn:Hs; [|cbn; lia].
  destruct (decide (i = j + 1)) as [->|Hne]; [congruence|].
  destruct (lua_tolstring L (j + 1)); [|cbn; lia].
  apply IH; [rewrite lua_tolstring_stack_other; exact Hbad|lia].
Qed.

(** X4.  A bridge call with no argument, or with an argument that is neither
    a string nor a number, hands the script an error table and does nothing
    else: no command is looked up or dispatched and the state of the server
    is untouched.  This holds for [redis.call] and for [redis.pcall] alike:
    neither raises on a malformed call. *)
Theorem CallArdb_rejects_arguments (raise_error : bool) (ar : option lua_Debug)
    (L : lua_Stack) (srv : ArdbServer) :
  CallArdb raise_error ar [] srv =
    Ok (NReturn 1,
        [error_table ar "Please specify at least one argument for redis.call()"], srv)
  /\ (forall i, 1 <= i <= lua_gettop L -> lua_isstring L i = false ->
      exists L',
        CallArdb raise_error ar L srv =
          Ok (NReturn 1,
              error_table ar "Lua redis() command arguments must be strings or integers"
                :: L',
              srv)
        /\ length L' = length L).
Proof.
  split.
  - unfold CallArdb. cbn [lua_gettop length Z.of_nat Z.eqb].
    rewrite luaPushError_spec. reflexivity.
  - intros i Hi Hbad.
    exists (snd (build_cmdargs_loop L (Z.to_nat (lua_gettop L)) 0 [])).
    split; [|apply length_build_cmdargs_loop]. unfold CallArdb.
    destruct (Z.eqb_spec (lua_gettop L) 0) as [Hz|_]; [lia|].
    pose proof (build_cmdargs_stops i (Z.to_nat (lua_gettop L)) L 0 [] Hbad) as Hstop.
    destruct (build_cmdargs_loop L (Z.to_nat (lua_gettop L)) 0 []) as [[j cmdargs] L1].
    cbn [fst snd] in *.
    destruct (Z.eqb_spec j (lua_gettop L)) as [Hj|_]; [lia|]. cbn [negb].
    rewrite luaPushError_spec. reflexivity.
Qed.

(** X5.  A bridge call whose arguments are strings or numbers, whose first
    argument names, up to the case of its letters, a command that is
    registered and allowed in scripts, and whose reply is not an error: the
    command is dispatched once, under its lowercased name and with the other
    arguments in their order as strings; the store is the one the executor
    leaves; and the script receives one value, the conversion of the reply.
    [redis.call] and [redis.pcall] do the same. *)
Theorem CallArdb_dispatches (raise_error : bool) (ar : option lua_Debug)
    (vs : list LuaValue) (srv : ArdbServer) (name : string) (args : list string)
    (flags : Z) (db' : Db) (reply : RedisReply) :
  Forall2 (fun v s => arg_text v = Some s) vs (name :: args) ->
  FindRedisCommandHandlerSetting (lower_string name) = Some flags ->
  Z.land flags ARDB_CMD_NOSCRIPT = 0 ->
  ProcessRedisCommand (m_db srv) (lower_string name) args = (db', reply) ->
  reply_type reply <> REDIS_REPLY_ERROR ->
  arrays_fit (wire_view reply) = true ->
  exists L',
    CallArdb raise_error ar (rev vs) srv =
      Ok (NReturn 1, toScriptValue (wire_view reply) :: L',
          set_ctx_reply reply (add_dispatched (lower_string name, args) (set_db db' srv)))
    /\ length L' = length vs.
Proof.
  intros Hvs Hfind Hflag Hproc Hne Hfit. exists (rev (arg_converted <$> vs)).
  split; [|rewrite length_rev, length_fmap; reflexivity].
  unfold CallArdb.
  assert (Hlen : length vs = S (length args)) by (apply Forall2_length in Hvs; exact Hvs).
  unfold lua_gettop. rewrite length_rev.
  destruct (Z.eqb_spec (Z.of_nat (length vs)) 0) as [Hz|_]; [lia|].
  rewrite Nat2Z.id.
  pose proof (build_cmdargs_loop_texts vs [] [] (name :: args) Hvs) as Hb.
  change (build_cmdargs_loop (rev vs) (length vs) 0 []
          = (Z.of_nat (length vs), name :: args, rev (arg_converted <$> vs))) in Hb.
  rewrite Hb, Z.eqb_refl.
  cbn [negb RedisCommandFrame]. rewrite Hfind, Hflag. cbn [Z.eqb negb]. rewrite Hproc.
  rewrite (bool_decide_eq_false_2 _ Hne).
  rewrite redisProtocolToLuaType_fit by exact Hfit. res_step.
  destruct raise_error; reflexivity.
Qed.

(** ** redis.log *)

Lemma string_app_assoc (a b c : string) : (a +:+ b) +:+ c = a +:+ (b +:+ c).
Proof.
  induction a as [|x a IH]; [reflexivity|].
  change (String x ((a +:+ b) +:+ c) = String x (a +:+ (b +:+ c))). rewrite IH. reflexivity.
Qed.

Lemma string_app_nil_r (a : string) : a +:+ EmptyString = a.
Proof.
  induction a as [|x a IH]; [reflexivity|].
  change (String x (a +:+ EmptyString) = String x a). rewrite IH. reflexivity.
Qed.

(** An argument read through a negative index: [-argc + j] is the one pushed
    after [j] others. *)
Lemma lua_at_from_top (vs : list LuaValue) (j : nat) :
  (j < length vs)%nat ->
  lua_at (rev vs) (- Z.of_nat (length vs) + Z.of_nat j) = vs !! j.
Proof.
  intros Hj. unfold lua_at, index2adr. rewrite length_rev.
  destruct (Z.ltb_spec (- Z.of_nat (length vs) + Z.of_nat j) 0) as [_|Hpos]; [|lia].
  destruct (Z.leb_spec (- (- Z.of_nat (length vs) + Z.of_nat j)) (Z.of_nat (length vs)))
    as [_|Hgt]; [|lia].
  unfold lua_Stack. rewrite lookup_rev by lia. f_equal. lia.
Qed.

Lemma concat_spaced (s : string) (ss : list string) :
  String.concat " " (s :: ss) = s +:+ spaced ss.
Proof.
  revert s. induction ss as [|t ss IH]; intros s.
  - cbn. rewrite string_app_nil_r. reflexivity.
  - change (String.concat " " (s :: t :: ss)) with (s +:+ " " +:+ String.concat " " (t :: ss)).
    rewrite IH. reflexivity.
Qed.

Lemma index2adr_from_top (done todo : list LuaValue) (v : LuaValue) :
  index2adr (rev (done ++ v :: todo))
    (- Z.of_nat (length (done ++ v :: todo)) + Z.of_nat (length done)) = Some (length todo).
Proof.
  unfold index2adr. rewrite length_rev, length_app. cbn [length].
  destruct (Z.ltb_spec (- Z.of_nat (length done + S (length todo)) + Z.of_nat (length done)) 0)
    as [_|Hpos]; [|lia].
  destruct (Z.leb_spec (- (- Z.of_nat (length done + S (length todo)) + Z.of_nat (length done)))
              (Z.of_nat (length done + S (length todo)))) as [_|Hgt]; [|lia].
  f_equal. lia.
Qed.

Lemma glue_log_spaced (todo : list LuaValue) :
  forall (done : list LuaValue) (log : string) (ss : list string),
    (2 <= length done)%nat ->
    Forall2 (fun v s => arg_text v = Some s) todo ss ->
    glue_log (rev (done ++ todo)) (Z.of_nat (length (done ++ todo))) (length todo)
      (Z.of_nat (length done)) log
    = (log +:+ spaced ss, rev (done ++ (arg_converted <$> todo))).
Proof.
  induction todo as [|v todo IH]; intros done log ss Hdone Hss.
  - apply Forall2_nil_inv_l in Hss as ->. cbn. rewrite string_app_nil_r. reflexivity.
  - apply Forall2_cons_inv_l in Hss as (s & ss' & Hv & Hss' & ->).
    cbn [glue_log length]. unfold lua_tolstring.
    rewrite lua_at_from_top by (rewrite length_app; cbn [length]; lia).
    rewrite lookup_app_r by lia.
    replace (length done - length done)%nat with O by lia. cbn [lookup list_lookup].
    destruct (Z.eqb_spec (Z.of_nat (length done)) 1) as [H1|_]; [lia|].
    assert (Htext : match v with
                    | LString s0 => Some s0
                    | LNumber n => Some (lua_number2str n)
                    | _ => None
                    end = Some s) by (destruct v; exact Hv).
    rewrite Htext.
    rewrite lua_tolstring_stack_slot by apply index2adr_from_top.
    specialize (IH (done ++ [arg_converted v]) ((log +:+ " ") +:+ s) ss').
    rewrite <- !app_assoc in IH. cbn [app] in IH.
    rewrite !length_app in IH. cbn [length] in IH.
    rewrite !length_app. cbn [length].
    replace (Z.of_nat (length done + 1)) with (Z.of_nat (length done) + 1) in IH by lia.
    replace (Z.of_nat (length done + 1 + length todo))
      with (Z.of_nat (length done + S (length todo))) in IH by lia.
    rewrite IH by (try lia; exact Hss').
    cbn [spaced fmap list_fmap]. rewrite !string_app_assoc. reflexivity.
Qed.

(** X6.  [redis.log(level, a1, ..., an)] with a level inside the range of the
    log levels and arguments that are strings or numbers: one entry is added
    to the log, at that level, whose text is the arguments joined by single
    spaces, read as a C string; the call returns no value and changes nothing
    else. *)
Theorem Log_writes_joined_message (ar : option lua_Debug) (d : lua_Number) (level : Z)
    (v : LuaValue) (vs : list LuaValue) (s : string) (ss : list string)
    (srv : ArdbServer) :
  lua_Number_trunc d = Some level ->
  in_int_range level = true ->
  FATAL_LOG_LEVEL <= level <= TRACE_LOG_LEVEL ->
  Forall2 (fun v s => arg_text v = Some s) (v :: vs) (s :: ss) ->
  exists L',
    Log ar (rev (LNumber d :: v :: vs)) srv =
      Ok (NReturn 0, L', add_log (LogUser level (c_str (String.concat " " (s :: ss)))) srv).
Proof.
  intros Hd Hint Hlevel Hss. exists (rev (LNumber d :: (arg_converted <$> v :: vs))).
  apply Forall2_cons_1 in Hss as [Hv Hss].
  assert (Hlen : length vs = length ss) by (apply Forall2_length in Hss; exact Hss).
  set (all := LNumber d :: v :: vs).
  assert (Hall : length all = S (S (length vs))) by reflexivity.
  assert (Hfirst : lua_at (rev all) (- lua_gettop (rev all)) = Some (LNumber d)).
  { unfold lua_gettop. rewrite length_rev.
    replace (- Z.of_nat (length all)) with (- Z.of_nat (length all) + Z.of_nat 0) by lia.
    rewrite lua_at_from_top by (rewrite Hall; lia). reflexivity. }
  unfold Log, lua_isnumber, lua_tonumber. rewrite Hfirst, Hd, Hint.
  assert (Htop : lua_gettop (rev all) = Z.of_nat (length all))
    by (unfold lua_gettop; rewrite length_rev; reflexivity).
  rewrite Htop.
  destruct (Z.ltb_spec (Z.of_nat (length all)) 2) as [Hlt|_]; [rewrite Hall in Hlt; lia|].
  cbn [negb].
  destruct (Z.ltb_spec level FATAL_LOG_LEVEL) as [Hlo|_]; [lia|].
  destruct (Z.ltb_spec TRACE_LOG_LEVEL level) as [Hhi|_]; [lia|].
  cbn [orb].
  replace (Z.to_nat (Z.of_nat (length all) - 1)) with (S (length vs)) by (rewrite Hall; lia).
  cbn [glue_log]. unfold lua_tolstring at 1.
  replace (- Z.of_nat (length all) + 1) with (- Z.of_nat (length all) + Z.of_nat 1) by lia.
  rewrite lua_at_from_top by (rewrite Hall; lia).
  change (all !! 1%nat) with (Some v). cbv beta iota.
  assert (Htext : match v with
                  | LString s0 => Some s0
                  | LNumber n => Some (lua_number2str n)
                  | _ => None
                  end = Some s) by (destruct v; exact Hv).
  rewrite Htext. cbn [Z.eqb Z.of_nat Pos.of_succ_nat Pos.eqb].
  rewrite (lua_tolstring_stack_slot [LNumber d] vs v)
    by (rewrite <- (index2adr_from_top [LNumber d] vs v); reflexivity).
  pose proof (glue_log_spaced vs [LNumber d; arg_converted v] (EmptyString +:+ s) ss) as Hglue.
  cbn [app length] in Hglue.
  change (Z.of_nat 2) with (1 + 1) in Hglue.
  change (Z.of_nat (length all)) with (Z.of_nat (S (S (length vs)))).
  cbn [app].
  rewrite Hglue by (try lia; exact Hss).
  rewrite concat_spaced. reflexivity.
Qed.

(** X7.  [redis.log] with fewer than two arguments, with a first argument
    that is not a number, or with a level outside the range of the log levels:
    the script is handed an error table and nothing is written to the log. *)
Theorem Log_rejects (ar : option lua_Debug) (L : lua_Stack) (srv : ArdbServer) :
  (lua_gettop L < 2 ->
   Log ar L srv =
     Ok (NReturn 1, error_table ar "redis.log() requires two arguments or more." :: L, srv))
  /\ (2 <= lua_gettop L -> lua_isnumber L (- lua_gettop L) = false ->
      Log ar L srv =
        Ok (NReturn 1,
            error_table ar "First argument must be a number (log level)." :: L, srv))
  /\ (forall level,
        2 <= lua_gettop L -> lua_isnumber L (- lua_gettop L) = true ->
        lua_Number_trunc (lua_tonumber L (- lua_gettop L)) = Some level ->
        in_int_range level = true ->
        level < FATAL_LOG_LEVEL \/ TRACE_LOG_LEVEL < level ->
        Log ar L srv = Ok (NReturn 1, error_table ar "Invalid debug level." :: L, srv)).
Proof.
  split; [|split].
  - intros Htop. unfold Log.
    destruct (Z.ltb_spec (lua_gettop L) 2) as [_|Hge]; [|lia].
    rewrite luaPushError_spec. reflexivity.
  - intros Htop Hnum. unfold Log.
    destruct (Z.ltb_spec (lua_gettop L) 2) as [Hlt|_]; [lia|].
    rewrite Hnum. cbn [negb]. rewrite luaPushError_spec. reflexivity.
  - intros level Htop Hnum Hd Hint Hout. unfold Log.
    destruct (Z.ltb_spec (lua_gettop L) 2) as [Hlt|_]; [lia|].
    rewrite Hnum, Hd, Hint. cbn [negb].
    assert (Hb : ((level <? FATAL_LOG_LEVEL) || (TRACE_LOG_LEVEL <? level))%bool = true).
    { apply orb_true_iff. destruct Hout as [Hlo|Hhi]; [left|right]; apply Z.ltb_lt; lia. }
    rewrite Hb, luaPushError_spec. reflexivity.
Qed.

(** ** redis.error_reply and redis.status_reply *)

Lemma ReturnSingleFieldTable_string (field s : string) (ar : option lua_Debug)
    (srv : ArdbServer) :
  ReturnSingleFieldTable field ar [LString s] srv =
    Ok (NReturn 1, [LTable {[ KStr (c_str field) := LString s ]}; LString s], srv).
Proof.
  unfold ReturnSingleFieldTable. cbn [lua_gettop length Z.of_nat Pos.of_succ_nat Z.eqb Pos.eqb].
  rewrite lua_type_top. cbn [type_of negb orb].
  rewrite bool_decide_eq_true_2 by reflexivity. cbn [negb].
  unfold lua_newtable, lua_pushstring, lua_pushvalue.
  rewrite lua_at_third. cbn [of_option]. res_step.
  rewrite (lua_settable_third _ _ (KStr (c_str field))); [|reflexivity|discriminate].
  res_step. rewrite insert_empty. reflexivity.
Qed.

(** X8.  [redis.error_reply(s)] and [redis.status_reply(s)] called with one
    string return the table [{err = s}] and [{ok = s}]; a script that returns
    such a table answers with an error reply and a status reply whose message
    is [s] read as a C string with every line terminator replaced by a
    space.  Called with one argument that is not a string (a number
    included), they return the table of the error "wrong number or type of
    arguments" instead. *)
Theorem single_field_table_reply (s : string) (ar : option lua_Debug) (srv : ArdbServer)
    (fuel : nat) :
  (5 <= fuel)%nat ->
  (exists t,
      ErrorReplyCommand ar [LString s] srv = Ok (NReturn 1, [t; LString s], srv)
      /\ luaReplyToRedisReply fuel [t] RedisReply_new
         = Ok ([], reply_of_wire (Error (code_sanitize s))))
  /\ (exists t,
        StatusReplyCommand ar [LString s] srv = Ok (NReturn 1, [t; LString s], srv)
        /\ luaReplyToRedisReply fuel [t] RedisReply_new
           = Ok ([], reply_of_wire (Status (code_sanitize s))))
  /\ (forall field v, (forall s', v <> LString s') ->
        ReturnSingleFieldTable field ar [v] srv =
          Ok (NReturn 1, [error_table ar "wrong number or type of arguments"; v], srv)).
Proof.
  intros Hfuel. split; [|split].
  - exists (LTable {[ KStr "err" := LString s ]}). split.
    + exact (ReturnSingleFieldTable_string "err" s ar srv).
    + rewrite luaReplyToRedisReply_spec; [|reflexivity|exact Hfuel].
      cbn [toWireReply]. rewrite lookup_singleton_eq. reflexivity.
  - exists (LTable {[ KStr "ok" := LString s ]}). split.
    + exact (ReturnSingleFieldTable_string "ok" s ar srv).
    + rewrite luaReplyToRedisReply_spec; [|reflexivity|exact Hfuel].
      cbn [toWireReply].
      rewrite lookup_singleton_ne by discriminate.
      rewrite lookup_singleton_eq. reflexivity.
  - intros field v Hv. unfold ReturnSingleFieldTable.
    cbn [lua_gettop length Z.of_nat Pos.of_succ_nat Z.eqb Pos.eqb].
    rewrite lua_type_top.
    assert (Hty : bool_decide (type_of v = LUA_TSTRING) = false).
    { apply bool_decide_eq_false_2. destruct v; try discriminate.
      exfalso. exact (Hv _ eq_refl). }
    rewrite Hty. cbn [negb orb]. rewrite luaPushError_spec. reflexivity.
Qed.

(** ** math.random *)

Lemma wrap_int32_small (z : Z) : - 2 ^ 31 <= z < 2 ^ 31 -> wrap_int32 z = z.
Proof. intros Hz. unfold wrap_int32. rewrite Z.mod_small by lia. lia. Qed.

Lemma luaL_checkint_of_Z (z : Z) (L : lua_Stack) (idx : Z) :
  - 2 ^ 31 <= z < 2 ^ 31 ->
  lua_at L idx = Some (LNumber (lua_Number_of_Z z)) ->
  luaL_checkint L idx = Ok (inr z).
Proof.
  intros Hz Hat. unfold luaL_checkint, lua_isnumber, lua_tonumber. rewrite Hat.
  rewrite to_longlong_of_Z by lia. cbn [of_option]. res_step.
  rewrite wrap_int32_small by exact Hz. reflexivity.
Qed.

(** X9.  Every call of [math.random] that completes, and every call that
    raises, takes exactly one number from the shared generator and changes
    nothing else of the server; a call that returns pushes one number on the
    arguments, a call that raises leaves them.  More than two arguments raise
    "wrong number of arguments"; an upper limit below 1, and a lower limit
    above the upper one, raise "interval is empty". *)
Theorem MathRandom_draws_once (ar : option lua_Debug) (L : lua_Stack) (srv : ArdbServer) :
  (forall r L' srv', MathRandom ar L srv = Ok (r, L', srv') ->
     srv' = set_rand (snd (redisLrand48 (m_rand srv))) srv
     /\ match r with
        | NReturn n => n = 1 /\ exists x, L' = LNumber x :: L
        | NRaise _ => L' = L
        end)
  /\ (2 < lua_gettop L ->
      MathRandom ar L srv =
        Ok (NRaise (luaL_where ar +:+ "wrong number of arguments"), L,
            set_rand (snd (redisLrand48 (m_rand srv))) srv))
  /\ (forall u, - 2 ^ 31 <= u < 1 ->
        MathRandom ar [LNumber (lua_Number_of_Z u)] srv =
          Ok (NRaise (luaL_argerror 1 "interval is empty"), [LNumber (lua_Number_of_Z u)],
              set_rand (snd (redisLrand48 (m_rand srv))) srv))
  /\ (forall l u, - 2 ^ 31 <= u < l -> l < 2 ^ 31 ->
        MathRandom ar [LNumber (lua_Number_of_Z u); LNumber (lua_Number_of_Z l)] srv =
          Ok (NRaise (luaL_argerror 2 "interval is empty"),
              [LNumber (lua_Number_of_Z u); LNumber (lua_Number_of_Z l)],
              set_rand (snd (redisLrand48 (m_rand srv))) srv)).
Proof.
  split; [|split; [|split]].
  - intros r L' srv'. unfold MathRandom.
    destruct (redisLrand48 (m_rand srv)) as [x seed]. cbn [snd].
    destruct (lua_gettop L) as [|[p|p|]|p].
    + intros [= <- <- <-]. split; [reflexivity|]. split; [reflexivity|]. eexists. reflexivity.
    + destruct p; intros [= <- <- <-]; split; reflexivity.
    + destruct p as [p|p|].
      * intros [= <- <- <-]; split; reflexivity.
      * intros [= <- <- <-]; split; reflexivity.
      * destruct (luaL_checkint L 1) as [[msg|l]| |]; res_step; try discriminate.
        { intros [= <- <- <-]; split; reflexivity. }
        destruct (luaL_checkint L 2) as [[msg|u]| |]; res_step; try discriminate.
        { intros [= <- <- <-]; split; reflexivity. }
        destruct (l <=? u).
        -- destruct (in_int_range (u - l) && in_int_range (u - l + 1))%bool;
             [|discriminate].
           intros [= <- <- <-]. split; [reflexivity|]. split; [reflexivity|].
           eexists. reflexivity.
        -- intros [= <- <- <-]; split; reflexivity.
    + destruct (luaL_checkint L 1) as [[msg|u]| |]; res_step; try discriminate.
      { intros [= <- <- <-]; split; reflexivity. }
      destruct (1 <=? u).
      * intros [= <- <- <-]. split; [reflexivity|]. split; [reflexivity|].
        eexists. reflexivity.
      * intros [= <- <- <-]; split; reflexivity.
    + intros [= <- <- <-]; split; reflexivity.
  - intros Htop. unfold MathRandom.
    destruct (redisLrand48 (m_rand srv)) as [x seed]. cbn [snd].
    destruct (lua_gettop L) as [|[p|p|]|p]; try lia.
    + destruct p; reflexivity.
    + destruct p as [p|p|]; try reflexivity. lia.
  - intros u Hu. unfold MathRandom.
    destruct (redisLrand48 (m_rand srv)) as [x seed]. cbn [snd].
    change (lua_gettop [LNumber (lua_Number_of_Z u)]) with 1. cbv iota.
    rewrite (luaL_checkint_of_Z u _ 1) by (try lia; reflexivity). res_step.
    destruct (Z.leb_spec 1 u) as [H1|_]; [lia|]. reflexivity.
  - intros l u Hu Hl. unfold MathRandom.
    destruct (redisLrand48 (m_rand srv)) as [x seed]. cbn [snd].
    change (lua_gettop [LNumber (lua_Number_of_Z u); LNumber (lua_Number_of_Z l)]) with 2.
    cbv iota.
    rewrite (luaL_checkint_of_Z l _ 1) by (try lia; reflexivity). res_step.
    rewrite (luaL_checkint_of_Z u _ 2) by (try lia; reflexivity). res_step.
    destruct (Z.leb_spec l u) as [H1|_]; [lia|]. reflexivity.
Qed.

(** ** The environment that Init builds *)

(** X10.  When the libraries define [math] as a table, Init completes with an
    empty stack and the protection of globals installed, and the globals are
    those of the libraries except that: [loadfile] is removed; [redis] and
    [ardb] both hold the table of the bridge; [math] keeps its entries but
    for [random] and [randomseed], which are the functions of the bridge;
    and the error handler is defined. *)
Theorem Init_environment (m : gmap LuaKey LuaValue) :
  library_globals !! "math" = Some (LTable m) ->
  exists l,
    Init = Ok l
    /\ stack l = [] /\ strict l = true
    /\ globals l !! "loadfile" = None
    /\ globals l !! "redis" = Some (LTable redis_table)
    /\ globals l !! "ardb" = Some (LTable redis_table)
    /\ globals l !! "math"
       = Some (LTable (<[KStr "randomseed" := LCFunction FnMathRandomSeed]>
                         (<[KStr "random" := LCFunction FnMathRandom]> m)))
    /\ globals l !! ERR_HANDLER = Some (LFunction ERR_HANDLER)
    /\ (forall n, n <> "loadfile" -> n <> "redis" -> n <> "ardb" -> n <> "math" ->
                  n <> ERR_HANDLER -> globals l !! n = library_globals !! n).
Proof.
  intros Hmath. eexists.
  unfold Init, RemoveUnsupportedFunctions, LoadLibs, on_stack.
  rewrite (lua_setglobal_lax _ "loadfile" LNil []) by reflexivity. res_step.
  cbn [stack set_stack set_globals lua_open globals code strict hook gc_steps rawset].
  unfold lua_newtable.
  repeat (rewrite set_field_spec by discriminate; res_step).
  cbn [c_str Ascii.eqb Bool.eqb]. fold redis_table.
  rewrite (lua_setglobal_lax _ "redis" (LTable redis_table) []) by reflexivity. res_step.
  rewrite lua_getglobal_lax by reflexivity. res_step.
  cbn [stack set_stack set_globals globals code strict hook gc_steps rawset rawget].
  unfold rawget. rewrite lookup_insert_eq. cbn [from_option id].
  rewrite (lua_setglobal_lax _ "ardb" (LTable redis_table) []) by reflexivity. res_step.
  rewrite lua_getglobal_lax by reflexivity. res_step.
  cbn [stack set_stack set_globals globals code strict hook gc_steps rawset rawget].
  unfold rawget.
  rewrite !lookup_insert_ne by discriminate.
  rewrite lookup_delete_ne by discriminate. rewrite Hmath. cbn [from_option id].
  repeat (rewrite set_field_spec by discriminate; res_step).
  cbn [c_str Ascii.eqb Bool.eqb stack set_stack].
  erewrite lua_setglobal_lax; [|reflexivity|reflexivity]. res_step.
  cbn [stack set_stack set_globals globals code strict hook gc_steps rawset
       scriptingEnableGlobalsProtection set_strict].
  split; [reflexivity|].
  cbn [stack set_stack set_globals globals code strict hook gc_steps rawset lua_open
       scriptingEnableGlobalsProtection set_strict].
  split; [reflexivity|]. split; [reflexivity|].
  split; [|split; [|split; [|split; [|split]]]].
  - rewrite !lookup_insert_ne by discriminate. apply lookup_delete_eq.
  - rewrite !lookup_insert_ne by discriminate. apply lookup_insert_eq.
  - rewrite !lookup_insert_ne by discriminate. apply lookup_insert_eq.
  - rewrite lookup_insert_ne by discriminate. apply lookup_insert_eq.
  - apply lookup_insert_eq.
  - intros n H1 H2 H3 H4 H5.
    rewrite !lookup_insert_ne by congruence. apply lookup_delete_ne. congruence.
Qed.

(** ** KEYS and ARGV *)

Lemma lua_rawseti_second (v : LuaValue) (t : gmap LuaKey LuaValue) (L : lua_Stack) (n : Z) :
  v <> LNil ->
  lua_rawseti (v :: LTable t :: L) (-2) n = Ok (LTable (<[KInt n := v]> t) :: L).
Proof.
  intros Hv. unfold lua_rawseti, index2adr. cbn [length].
  destruct (Z.leb_spec (- -2) (Z.of_nat (S (S (length L))))) as [_|Hgt]; [|lia].
  cbn. destruct v; try reflexivity. exfalso. apply Hv. reflexivity.
Qed.

Lemma set_array_elements_spec (elev : list string) :
  forall (done : list LuaValue) (L : lua_Stack),
    Z.of_nat (length done + length elev) < INT_MAX ->
    set_array_elements elev (Z.of_nat (length done)) (LTable (array_table done) :: L)
    = Ok (LTable (array_table (done ++ (LString <$> elev))) :: L).
Proof.
  induction elev as [|e elev IH]; intros done L Hlen.
  - cbn. rewrite app_nil_r. reflexivity.
  - cbn [set_array_elements length] in *. unfold lua_pushlstring.
    assert (Hj : (Z.of_nat (length done) + 1) mod UINT32_MOD = Z.of_nat (length done) + 1).
    { apply Z.mod_small. unfold UINT32_MOD, INT_MAX in *. lia. }
    rewrite Hj, wrap_int32_small by (unfold INT_MAX in *; lia).
    rewrite lua_rawseti_second by discriminate. res_step.
    replace (Z.of_nat (length done) + 1) with (1 + Z.of_nat (length done)) by lia.
    rewrite <- array_table_snoc.
    replace (1 + Z.of_nat (length done)) with (Z.of_nat (length (done ++ [LString e])))
      by (rewrite length_app; cbn [length]; lia).
    rewrite IH by (rewrite length_app; cbn [length]; lia).
    cbn [fmap list_fmap]. rewrite <- app_assoc. reflexivity.
Qed.

Lemma luaSetGlobalArray_keys (l : lua_State) (var : string) (elev : list string) :
  Z.of_nat (length elev) < INT_MAX ->
  luaSetGlobalArray l var elev =
    Ok (set_globals (<[c_str var := LTable (array_table (LString <$> elev))]> (globals l)) l).
Proof.
  intros Hlen. unfold luaSetGlobalArray, on_stack, lua_newtable.
  change (LTable ∅) with (LTable (array_table [])).
  change 0 with (Z.of_nat (length (@nil LuaValue))).
  rewrite set_array_elements_spec by (cbn [length]; lia). res_step.
  cbn [app]. unfold lua_setglobal, global_set. cbn [stack set_stack globals strict].
  destruct l as [st g c str h gc]. cbn [stack globals strict code hook gc_steps].
  destruct (g !! c_str var); [reflexivity|].
  destruct str; reflexivity.
Qed.

(** X11.  luaSetGlobalArray binds the global [var] to the table of the given
    strings under the keys 1, 2, ... in their order, in place of whatever the
    global held before (with no string, to the empty table), and leaves the stack
    and the other globals as they are; the protection of globals does not
    stand in the way.  So the [KEYS] and [ARGV] of a run never show an entry
    of an earlier run. *)
Theorem luaSetGlobalArray_binds (l : lua_State) (var : string) (elev : list string) :
  Z.of_nat (length elev) < INT_MAX ->
  exists l',
    luaSetGlobalArray l var elev = Ok l'
    /\ globals l' !! c_str var = Some (LTable (array_table (LString <$> elev)))
    /\ (forall (i : nat) e, elev !! i = Some e ->
          table_get (array_table (LString <$> elev)) (LNumber (lua_Number_of_Z (1 + Z.of_nat i)))
          = LString e)
    /\ (forall n, n <> c_str var -> globals l' !! n = globals l !! n)
    /\ stack l' = stack l /\ strict l' = strict l.
Proof.
  intros Hlen. eexists. split; [apply luaSetGlobalArray_keys; exact Hlen|].
  cbn [set_globals globals stack strict].
  split; [apply lookup_insert_eq|].
  split; [|split; [intros n Hn; apply lookup_insert_ne; congruence|split; reflexivity]].
  intros i e Hi.
  assert (Hi' : (i < length elev)%nat) by (apply lookup_lt_is_Some; eexists; exact Hi).
  rewrite table_get_int by (unfold INT_MAX in Hlen; lia).
  rewrite array_table_lookup, length_fmap.
  destruct (decide (1 <= 1 + Z.of_nat i <= Z.of_nat (length elev))) as [_|Hn]; [|lia].
  replace (Z.to_nat (1 + Z.of_nat i - 1)) with i by lia.
  rewrite list_lookup_fmap, Hi. reflexivity.
Qed.

(** ** Kill and Flush *)

(** X12.  The target of a kill is one variable shared by all requests: of two
    kill requests made before the connection sees either, the first is
    forgotten, and both events are judged against the target of the second.
    So a running script that only the first request names is not killed. *)
Theorem Kill_last_target_wins (a b : string) (srv : ArdbServer) :
  Continue (Kill b (Kill a srv)) = Continue (Kill b srv)
  /\ (forall f srv',
        m_pending srv = [] -> lua_executing_func (m_ctx srv) = Some f ->
        Continue (Kill b (Kill a srv)) = Ok srv' ->
        lua_kill (m_ctx srv') = (kill_matches b f || lua_kill (m_ctx srv))%bool).
Proof.
  assert (Hone : forall s, deliver [SCRIPT_KILL_EVENT] s = Ok (on_kill_event s)) by reflexivity.
  assert (Htwo : forall s, deliver [SCRIPT_KILL_EVENT; SCRIPT_KILL_EVENT] s
                           = Ok (on_kill_event s)).
  { intros s. cbn [deliver ScriptEventCallback]. res_step. rewrite on_kill_event_idem.
    reflexivity. }
  split.
  - unfold Continue, Kill.
    cbn [m_pending set_pending set_killing_func].
    rewrite <- (app_assoc (m_pending srv)). cbn [app].
    rewrite !deliver_app.
    replace (set_pending []
               (set_pending (m_pending srv ++ [SCRIPT_KILL_EVENT; SCRIPT_KILL_EVENT])
                  (set_killing_func b
                     (set_pending (m_pending srv ++ [SCRIPT_KILL_EVENT])
                        (set_killing_func a srv)))))
      with (set_pending []
              (set_pending (m_pending srv ++ [SCRIPT_KILL_EVENT]) (set_killing_func b srv)))
      by (destruct srv; reflexivity).
    destruct (deliver (m_pending srv) _) as [s| |]; res_step; try reflexivity.
    rewrite Hone, Htwo. reflexivity.
  - intros f srv' Hp Hf. unfold Continue, Kill.
    cbn [m_pending set_pending set_killing_func]. rewrite Hp. cbn [app].
    rewrite Htwo. res_step. intros [= <-].
    rewrite on_kill_event_spec.
    cbn [set_pending set_killing_func m_ctx m_killing_func add_continue]. rewrite Hf.
    destruct (kill_matches b f); reflexivity.
Qed.

(** X13.  A flush that reaches a connection on which no script is running
    replaces its interpreter by a newly initialised one and empties the script
    store, so that Exists answers false for every digest; the store of the
    data is not touched. *)
Theorem Flush_empties_cache (srv : ArdbServer) (l : lua_State) :
  Init = Ok l ->
  lua_executing_func (m_ctx srv) = None ->
  m_pending srv = [] ->
  exists srv',
    Continue (Flush srv) = Ok srv'
    /\ m_lua srv' = l /\ m_scripts srv' = ∅ /\ m_db srv' = m_db srv
    /\ m_pending srv' = []
    /\ forall sha, Exists sha srv' = false.
Proof.
  intros Hinit Hidle Hp. eexists. unfold Continue, Flush.
  cbn [m_pending set_pending]. rewrite Hp. cbn [app deliver ScriptEventCallback].
  cbn [set_pending m_ctx]. rewrite Hidle, Hinit. res_step.
  split; [reflexivity|].
  cbn [add_continue FlushScripts set_scripts set_lua set_pending m_lua m_scripts m_db m_pending].
  do 4 (split; [reflexivity|]). intros sha. rewrite Exists_spec.
  cbn [m_scripts add_continue FlushScripts set_scripts set_lua set_pending].
  rewrite lookup_empty. apply bool_decide_eq_false_2. intros [x Hx]. discriminate.
Qed.

(** ** Load and the script store *)

Lemma CreateLuaFunction_outcome (funcname body err : string) (srv : ArdbServer)
    (rc : Z) (err' : string) (srv' : ArdbServer) :
  CreateLuaFunction funcname body err srv = Ok (rc, err', srv') ->
  (rc = 0 /\ err' = err /\ m_scripts srv' !! funcname = Some body)
  \/ (rc = -1 /\ exists msg,
        err' = err +:+ "Error compiling script (new function): " +:+ msg +:+ NEWLINE
        \/ err' = err +:+ "Error running script (new function): " +:+ msg +:+ NEWLINE).
Proof.
  unfold CreateLuaFunction.
  destruct (luaL_loadbuffer _ _ _) as [st l].
  destruct (negb (st =? 0)).
  - destruct (lua_tolstring _ _) as [msg|]; cbn [of_option]; res_step; [|discriminate].
    destruct (lua_pop _ _) as [L| |]; res_step; try discriminate.
    intros [= <- <- <-]. right. split; [reflexivity|]. exists (c_str msg). left. reflexivity.
  - destruct (lua_pcall 0 0 _) as [[st2 srv2]| |]; res_step; try discriminate.
    destruct (negb (st2 =? 0)).
    + destruct (lua_tolstring _ _) as [msg|]; cbn [of_option]; res_step; [|discriminate].
      destruct (lua_pop _ _) as [L| |]; res_step; try discriminate.
      intros [= <- <- <-]. right. split; [reflexivity|]. exists (c_str msg). right. reflexivity.
    + intros [= <- <- <-]. left. split; [reflexivity|]. split; [reflexivity|].
      unfold SaveScript. cbn [set_scripts m_scripts]. apply lookup_insert_eq.
Qed.

(** X14.  When Load succeeds, what it hands back is the digest of the body,
    the body is in the script store under [f_] followed by the digest, and
    Exists answers true for the digest.  When Load fails, what it hands back
    is not the digest alone: the text of the error follows it. *)
Theorem Load_caches (func : string) (srv : ArdbServer) (rc : Z) (ret : string)
    (srv' : ArdbServer) :
  Load func srv = Ok (rc, ret, srv') ->
  (rc = 1 /\ ret = sha1_sum func
   /\ m_scripts srv' !! ("f_" +:+ sha1_sum func) = Some func
   /\ Exists (sha1_sum func) srv' = true)
  \/ (rc = 0 /\ exists msg,
        ret = sha1_sum func +:+ "Error compiling script (new function): " +:+ msg +:+ NEWLINE
        \/ ret = sha1_sum func +:+ "Error running script (new function): " +:+ msg +:+ NEWLINE).
Proof.
  unfold Load.
  destruct (CreateLuaFunction _ _ _ _) as [[[rc0 ret0] srv0]| |] eqn:Hc; res_step;
    try discriminate.
  intros [= <- <- <-].
  apply CreateLuaFunction_outcome in Hc as [(-> & -> & Hs)|(-> & msg & Hmsg)].
  - left. split; [reflexivity|]. split; [reflexivity|]. split; [exact Hs|].
    rewrite Exists_spec, Hs. apply bool_decide_eq_true_2. eexists. reflexivity.
  - right. split; [reflexivity|]. exists msg. exact Hmsg.
Qed.

(** ** Eval: a body that does not compile, and the arguments of a run *)

Lemma lua_getglobal_host (l : lua_State) (n : string) :
  lua_getglobal l n = Ok (set_stack (rawget (globals l) n :: stack l) l).
Proof.
  unfold lua_getglobal, global_get, mt__index, rawget.
  destruct (globals l !! n) as [v|]; [reflexivity|]. destruct (strict l); reflexivity.
Qed.

Lemma set_stack_stack (l : lua_State) : set_stack (stack l) l = l.
Proof. destruct l; reflexivity. Qed.

(** X15.  EVAL of a body for which no function is defined yet and whose
    function text the compiler refuses: Eval returns -1 with an error reply
    that carries "Error compiling script (new function): ", the message of
    the compiler and a newline; the interpreter, its stack included, and the
    script store are as before the call, so nothing is cached and nothing
    has run; only the shared generator has been reseeded. *)
Theorem Eval_compile_error (func : string) (keys args : list string) (reply : RedisReply)
    (srv : ArdbServer) (msg : string) :
  globals (m_lua srv) !! c_str ("f_" +:+ sha1_sum func) = None ->
  lua_compile ("function " +:+ ("f_" +:+ sha1_sum func) +:+ "() " +:+ func +:+ " end")
    = inl msg ->
  Eval func keys args false reply srv =
    Ok (-1,
        set_str ("Error compiling script (new function): " +:+ c_str msg +:+ NEWLINE)
          (set_type REDIS_REPLY_ERROR reply),
        set_rand (redisSrand48 0) srv).
Proof.
  intros Hundef Hc. unfold Eval. cbn [andb].
  rewrite lua_getglobal_host. res_step. rewrite lua_getglobal_host. res_step.
  cbn [set_rand m_lua set_stack globals stack]. unfold rawget at 1. rewrite Hundef.
  cbn [from_option id set_lua m_lua stack set_stack].
  unfold lua_isnil. rewrite lua_type_top. cbn [type_of].
  rewrite bool_decide_eq_true_2 by reflexivity.
  rewrite lua_pop_1. res_step.
  unfold Eval_define, CreateLuaFunction, luaL_loadbuffer.
  cbn [set_lua m_lua set_stack globals stack code]. rewrite Hc.
  cbn [Z.eqb negb LUA_ERRSYNTAX set_lua m_lua set_stack stack].
  rewrite lua_tolstring_top. cbn [of_option]. res_step.
  rewrite lua_pop_1. res_step. cbn [Z.eqb negb set_lua m_lua set_stack stack].
  rewrite lua_pop_1. res_step.
  f_equal. f_equal. destruct srv as [l db sc lim ctx cr kf pend rnd clk disp lg cont].
  cbn [set_rand set_lua m_lua m_db m_scripts lua_time_limit m_ctx m_ctx_reply m_killing_func
       m_pending m_rand m_clock m_dispatched m_log m_continues set_stack stack globals code
       strict hook gc_steps].
  destruct l; reflexivity.
Qed.

(** X16.  What the function of a run is called on: [KEYS] and [ARGV] are
    bound to the tables of the keys and of the arguments in their order; the
    start time is the time of the clock and the executing function is the
    name of the function without its two-character prefix; the kill flag is
    cleared; and the hook is installed, to run every 100000 instructions,
    exactly when the time limit is positive. *)
Theorem Eval_invoke_arguments (funcname : string) (keys args : list string)
    (srv : ArdbServer) :
  Z.of_nat (length keys) < INT_MAX -> Z.of_nat (length args) < INT_MAX ->
  exists pre,
    Eval_invoke funcname keys args srv =
      (lua_pcall 1 (-2) pre ≫= fun '(errid, srv1) =>
       Ok (errid, 0 <? lua_time_limit srv, srv1))
    /\ globals (m_lua pre) !! "KEYS" = Some (LTable (array_table (LString <$> keys)))
    /\ globals (m_lua pre) !! "ARGV" = Some (LTable (array_table (LString <$> args)))
    /\ (forall n, n <> "KEYS" -> n <> "ARGV" ->
                  globals (m_lua pre) !! n = globals (m_lua srv) !! n)
    /\ stack (m_lua pre) = stack (m_lua srv)
    /\ hook (m_lua pre) = (if 0 <? lua_time_limit srv then Some 100000 else hook (m_lua srv))
    /\ m_ctx pre = Build_LuaRunContext (m_clock srv) (Some (string_drop 2 (c_str funcname)))
                     (lua_timeout (m_ctx srv)) false.
Proof.
  intros Hk Ha. eexists. unfold Eval_invoke.
  rewrite luaSetGlobalArray_keys by exact Hk. res_step.
  rewrite luaSetGlobalArray_keys by exact Ha. res_step.
  split; [reflexivity|].
  destruct srv as [l db sc lim ctx cr kf pend rnd clk disp lg cont].
  cbn [set_rand set_lua set_ctx m_lua m_db m_scripts lua_time_limit m_ctx m_ctx_reply
       m_killing_func m_pending m_rand m_clock m_dispatched m_log m_continues].
  destruct (0 <? lim);
    cbn [set_rand set_lua set_ctx m_lua m_db m_scripts lua_time_limit m_ctx m_ctx_reply
         m_killing_func m_pending m_rand m_clock m_dispatched m_log m_continues
         set_globals set_hook globals stack hook c_str Ascii.eqb Bool.eqb
         set_time_start set_executing_func set_kill lua_time_start lua_executing_func
         lua_timeout lua_kill].
  all: split; [rewrite lookup_insert_ne by discriminate; apply lookup_insert_eq|].
  all: split; [apply lookup_insert_eq|].
  all: split; [intros n H1 H2; rewrite !lookup_insert_ne by congruence; reflexivity|].
  all: repeat split.
Qed.

(** ** The hook before the time limit *)

(** X17.  While a run has not reached the time limit and has not been flagged
    as slow, the hook does nothing at all: it does not give a turn to the I/O
    service, so the events that wait, a kill request that names the running
    function included, are not delivered, and the script goes on. *)
Theorem kill_waits_for_the_time_limit (srv : ArdbServer) :
  lua_timeout (m_ctx srv) = false ->
  lua_kill (m_ctx srv) = false ->
  elapsed_ms srv < lua_time_limit srv mod UINT64_MOD ->
  MaskCountHook srv = Ok (None, srv).
Proof.
  intros Ht Hk Hel. unfold MaskCountHook. fold (elapsed_ms srv).
  destruct (Z.leb_spec (lua_time_limit srv mod UINT64_MOD) (elapsed_ms srv)) as [Hle|_]; [lia|].
  cbn [andb]. rewrite Ht. res_step. rewrite Hk. reflexivity.
Qed.

(** ** The conversion of a script value, in general *)

(** X18.  For every script value whose tables have fewer than [INT_MAX - 1]
    entries, luaReplyToRedisReply removes exactly that value from the stack
    and fills the reply as the reference map of the specification says, with
    this difference: the message of an error or status table is first read
    as a C string, then has its line terminators replaced.  On messages
    without a NUL byte the two sanitations agree.  The conversion fails on
    one kind of value only: a number whose integer part is not a 64-bit
    integer. *)
Theorem luaReplyToRedisReply_refines (v : LuaValue) (L : lua_Stack) (fuel : nat) :
  tables_fit_int v = true -> (fuel_of v <= fuel)%nat ->
  luaReplyToRedisReply fuel (v :: L) RedisReply_new =
    match toWireReply code_sanitize v with
    | Some w => Ok (L, reply_of_wire w)
    | None => Undef
    end
  /\ (forall s, has_nul s = false -> code_sanitize s = spec_sanitize s)
  /\ (forall s, code_sanitize s = spec_sanitize (c_str s)).
Proof.
  intros Hfit Hfuel. split; [|split].
  - apply luaReplyToRedisReply_spec; assumption.
  - apply sanitize_no_nul.
  - reflexivity.
Qed.

(** ** What a bridge call leaves behind *)

(** X19.  Whatever a bridge call is given, when it returns or raises it has
    pushed one or two values on its arguments; and either the server is as before, or exactly one command has
    been handed to the executor: the store is the one the executor left, the
    reply of the connection is the reply of the command, and the command is
    the last of the commands dispatched.  The interpreter, the run context,
    the script store and the log are never touched. *)
Theorem CallArdb_frame (raise_error : bool) (ar : option lua_Debug) (L : lua_Stack)
    (srv : ArdbServer) (r : native_result) (L' : lua_Stack) (srv' : ArdbServer) :
  CallArdb raise_error ar L srv = Ok (r, L', srv') ->
  (exists pushed rest,
      L' = pushed ++ rest /\ length rest = length L /\ (1 <= length pushed <= 2)%nat)
  /\ (srv' = srv
      \/ exists cmd args db' reply,
           ProcessRedisCommand (m_db srv) cmd args = (db', reply)
           /\ srv' = set_ctx_reply reply (add_dispatched (cmd, args) (set_db db' srv)))
  /\ m_lua srv' = m_lua srv /\ m_ctx srv' = m_ctx srv /\ m_scripts srv' = m_scripts srv
  /\ m_log srv' = m_log srv.
Proof.
  assert (Hsame : forall e L1, length L1 = length L ->
            (exists pushed rest, error_table ar e :: L1 = pushed ++ rest
                                 /\ length rest = length L
                                 /\ (1 <= length pushed <= 2)%nat)
            /\ (srv = srv
                \/ exists cmd args db' reply,
                     ProcessRedisCommand (m_db srv) cmd args = (db', reply)
                     /\ srv = set_ctx_reply reply (add_dispatched (cmd, args) (set_db db' srv)))
            /\ m_lua srv = m_lua srv /\ m_ctx srv = m_ctx srv /\ m_scripts srv = m_scripts srv
            /\ m_log srv = m_log srv).
  { intros e L1 HL1.
    split; [exists [error_table ar e], L1; split; [reflexivity|split; [exact HL1|cbn; lia]]|].
    split; [left; reflexivity|]. repeat split. }
  unfold CallArdb.
  destruct (lua_gettop L =? 0).
  { rewrite luaPushError_spec. res_step. intros [= <- <- <-]. apply Hsame. reflexivity. }
  pose proof (length_build_cmdargs_loop (Z.to_nat (lua_gettop L)) L 0 []) as HL1.
  destruct (build_cmdargs_loop L (Z.to_nat (lua_gettop L)) 0 []) as [[j cmdargs] L1].
  cbn [snd] in HL1.
  destruct (negb (j =? lua_gettop L)).
  { rewrite luaPushError_spec. res_step. intros [= <- <- <-]. apply Hsame. exact HL1. }
  destruct (RedisCommandFrame cmdargs) as [name args].
  destruct (FindRedisCommandHandlerSetting (lower_string name)) as [flags|].
  2:{ rewrite luaPushError_spec. res_step. intros [= <- <- <-]. apply Hsame. exact HL1. }
  destruct (negb (Z.land flags ARDB_CMD_NOSCRIPT =? 0)).
  { rewrite luaPushError_spec. res_step. intros [= <- <- <-]. apply Hsame. exact HL1. }
  destruct (ProcessRedisCommand (m_db srv) (lower_string name) args) as [db' reply] eqn:Hproc.
  destruct (redisProtocolToLuaType_total reply L1) as (v & -> & _). res_step.
  set (srv1 := set_ctx_reply reply (add_dispatched (lower_string name, args) (set_db db' srv))).
  assert (Hdisp : (srv1 = srv
                   \/ exists cmd args0 db0 reply0,
                        ProcessRedisCommand (m_db srv) cmd args0 = (db0, reply0)
                        /\ srv1 = set_ctx_reply reply0
                                    (add_dispatched (cmd, args0) (set_db db0 srv)))
                  /\ m_lua srv1 = m_lua srv /\ m_ctx srv1 = m_ctx srv
                  /\ m_scripts srv1 = m_scripts srv /\ m_log srv1 = m_log srv).
  { split; [right; exists (lower_string name), args, db', reply; split;
              [exact Hproc|reflexivity]|].
    repeat split. }
  destruct (if (raise_error && negb (bool_decide (reply_type reply = REDIS_REPLY_ERROR)))%bool
            then false else raise_error).
  - unfold lua_pushstring. cbn [c_str Ascii.eqb Bool.eqb].
    destruct (lua_gettable (LString "err" :: v :: L1) (-2)) as [L2| |] eqn:Hg; res_step;
      try discriminate.
    unfold lua_gettable in Hg. rewrite lua_at_second in Hg.
    destruct v as [| | | |t| |]; try discriminate Hg. injection Hg as <-.
    destruct (table_get t (LString "err")); try discriminate.
    intros [= <- <- <-].
    split; [|exact Hdisp].
    eexists [_; _], L1. split; [reflexivity|split; [exact HL1|cbn; lia]].
  - intros [= <- <- <-]. split; [|exact Hdisp].
    exists [v], L1. split; [reflexivity|split; [exact HL1|cbn; lia]].
Qed.

(** ** Eval: a function that is already defined, and the reply *)

(** X20.  When the function of a script is already defined in the interpreter
    of the connection, EVAL of the body and EVALSHA of the digest (40
    characters) go straight to the run: no function is defined again, the
    script store is neither read nor written, and the run starts on the
    stack with the error handler and the function pushed. *)
Theorem Eval_defined_function (func : string) (keys args : list string)
    (isSHA1Func : bool) (reply : RedisReply) (srv : ArdbServer) (f : LuaValue) :
  let funcname := "f_" +:+ (if isSHA1Func then func else sha1_sum func) in
  (isSHA1Func = true -> String.length func = 40%nat) ->
  globals (m_lua srv) !! c_str funcname = Some f ->
  f <> LNil ->
  Eval func keys args isSHA1Func reply srv =
    Eval_run funcname keys args reply
      (set_lua (set_stack (f :: rawget (globals (m_lua srv)) ERR_HANDLER :: stack (m_lua srv)))
         (set_rand (redisSrand48 0) srv)).
Proof.
  intros funcname Hlen Hf Hnil. unfold Eval.
  assert (Hguard : (isSHA1Func && negb (Z.of_nat (String.length func) =? 40))%bool = false).
  { destruct isSHA1Func; [|reflexivity]. rewrite (Hlen eq_refl). reflexivity. }
  rewrite Hguard. fold funcname.
  rewrite lua_getglobal_host. res_step. rewrite lua_getglobal_host. res_step.
  assert (Hr : rawget (globals (m_lua srv)) (c_str funcname) = f)
    by (unfold rawget; rewrite Hf; reflexivity).
  cbn [set_rand m_lua set_stack globals stack set_lua]. rewrite !Hr.
  unfold lua_isnil. rewrite lua_type_top.
  rewrite bool_decide_eq_false_2 by (destruct f; try discriminate; congruence).
  reflexivity.
Qed.

Lemma length_substring_le (n m : nat) (s : string) :
  (String.length (String.substring n m s) <= m)%nat.
Proof.
  revert n m. induction s as [|c s IH]; intros n m.
  - destruct n, m; cbn; lia.
  - destruct n as [|n]; destruct m as [|m]; cbn [String.substring String.length]; try lia.
    + specialize (IH O m). lia.
    + apply IH.
    + apply IH.
Qed.

(** X21.  What Eval answers after the protected call.  When the call
    succeeded, the reply is emptied and then filled with the conversion of the
    value that the script returned, so that nothing of what the reply held
    before shows; the value and the error handler are taken off the stack.
    When the call failed, the reply is an error whose text is "Error running
    script (call to f_...): " followed by the message and a newline, cut to
    1022 bytes; the message and the handler are taken off the stack.  Eval
    returns 0 in both cases. *)
Theorem Eval_reply_outcomes (funcname : string) (reply : RedisReply) (srv : ArdbServer)
    (h : LuaValue) (L : lua_Stack) :
  (forall v w, stack (m_lua srv) = v :: h :: L -> tables_fit_int v = true ->
     toWireReply code_sanitize v = Some w ->
     Eval_reply funcname 0 reply srv = Ok (0, reply_of_wire w, set_lua (set_stack L) srv))
  /\ (forall errid msg, errid <> 0 -> stack (m_lua srv) = LString msg :: h :: L ->
        exists text,
          Eval_reply funcname errid reply srv =
            Ok (0, set_str text (set_type REDIS_REPLY_ERROR reply), set_lua (set_stack L) srv)
          /\ text = snprintf 1023
                      ("Error running script (call to " +:+ c_str funcname +:+ "): "
                       +:+ c_str msg +:+ NEWLINE)
          /\ (String.length text <= 1022)%nat).
Proof.
  split.
  - intros v w Hst Hfit Hw. unfold Eval_reply. cbn [Z.eqb negb]. rewrite Hst.
    unfold RedisReply_Clear.
    rewrite luaReplyToRedisReply_spec by (exact Hfit || lia). rewrite Hw. res_step.
    rewrite lua_pop_1. res_step. reflexivity.
  - intros errid msg Herr Hst. eexists. split; [|split; [reflexivity|]].
    + unfold Eval_reply. rewrite (proj2 (Z.eqb_neq errid 0) Herr). cbn [negb].
      rewrite Hst, lua_tolstring_top. cbn [of_option]. res_step.
      rewrite lua_pop_2. res_step. reflexivity.
    + unfold snprintf. apply length_substring_le.
Qed.

(** ** redis.sha1hex and math.randomseed *)

(** X22.  [redis.sha1hex] called with one argument that is a string or a
    number returns one value, the digest of the string (of the text of the
    number), read as a C string; called with no argument or with more than
    one it returns the table of the error "wrong number of arguments".  It
    changes nothing of the server. *)
Theorem SHA1Hex_outcomes (ar : option lua_Debug) (srv : ArdbServer) :
  (forall v s, arg_text v = Some s ->
     exists L',
       SHA1Hex ar [v] srv = Ok (NReturn 1, LString (c_str (sha1_sum s)) :: L', srv)
       /\ length L' = 1%nat)
  /\ (forall L, lua_gettop L <> 1 ->
        SHA1Hex ar L srv = Ok (NReturn 1, error_table ar "wrong number of arguments" :: L, srv)).
Proof.
  split.
  - intros v s Hv. exists (lua_tolstring_stack [v] 1).
    split; [|apply length_lua_tolstring_stack]. unfold SHA1Hex.
    change (lua_gettop [v]) with 1. cbn [Z.eqb Pos.eqb negb].
    assert (Hs : lua_tolstring [v] 1 = Some s) by (destruct v; exact Hv).
    rewrite Hs. cbn [of_option]. res_step. reflexivity.
  - intros L Htop. unfold SHA1Hex.
    rewrite (proj2 (Z.eqb_neq _ _) Htop). cbn [negb].
    rewrite luaPushError_spec. reflexivity.
Qed.

(** X23.  [math.randomseed(n)] with an integer in the range of [int] sets the
    state of the shared generator to the seed [n], returns no value and
    changes nothing else; with an argument that is not a number it raises
    the argument error "number expected, got ..." and leaves the generator as
    it was. *)
Theorem MathRandomSeed_outcomes (ar : option lua_Debug) (srv : ArdbServer) :
  (forall n, - 2 ^ 31 <= n < 2 ^ 31 ->
     MathRandomSeed ar [LNumber (lua_Number_of_Z n)] srv =
       Ok (NReturn 0, [LNumber (lua_Number_of_Z n)], set_rand (redisSrand48 n) srv))
  /\ (forall v, lua_isnumber [v] 1 = false ->
        MathRandomSeed ar [v] srv =
          Ok (NRaise (luaL_argerror 1 ("number expected, got " +:+ lua_typename (type_of v))),
              [v], srv)).
Proof.
  split.
  - intros n Hn. unfold MathRandomSeed.
    rewrite (luaL_checkint_of_Z n _ 1) by (try lia; reflexivity). res_step. reflexivity.
  - intros v Hv. unfold MathRandomSeed, luaL_checkint. rewrite Hv. res_step.
    reflexivity.
Qed.

(** ** C6: two runs of a script that draws random numbers *)

Lemma math_installed_inv (l : lua_State) :
  math_installed l = true ->
  exists t, globals l !! "math" = Some (LTable t)
            /\ t !! KStr "random" = Some (LCFunction FnMathRandom)
            /\ t !! KStr "randomseed" = Some (LCFunction FnMathRandomSeed).
Proof.
  unfold math_installed.
  destruct (globals l !! "math") as [[| | | |t| |]|]; try discriminate.
  destruct (t !! KStr "random") as [[| | | | | |[]]|] eqn:Hr; try discriminate.
  destruct (t !! KStr "randomseed") as [[| | | | | |[]]|] eqn:Hs; try discriminate.
  intros _. exists t. repeat split; assumption.
Qed.

Lemma math_installed_globals (l l' : lua_State) :
  globals l' !! "math" = globals l !! "math" -> math_installed l' = math_installed l.
Proof. intros H. unfold math_installed. rewrite H. reflexivity. Qed.

Lemma set_rand_set_rand (x y : Z) (s : ArdbServer) :
  set_rand x (set_rand y s) = set_rand x s.
Proof. reflexivity. Qed.

Lemma set_rand_m_rand (s : ArdbServer) : set_rand (m_rand s) s = s.
Proof. destruct s; reflexivity. Qed.

(** The two natives touch nothing but the generator, and return a count that
    is not negative. *)
Lemma MathRandom_frame (ar : option lua_Debug) (L L1 : lua_Stack) (s s1 : ArdbServer)
    (a : native_result) :
  MathRandom ar L s = Ok (a, L1, s1) ->
  (exists x, s1 = set_rand x s) /\ (forall n, a = NReturn n -> 0 <= n).
Proof.
  unfold MathRandom.
  destruct (redisLrand48 (m_rand s)) as [x seed].
  destruct (lua_gettop L) as [|[p|[p|p|]|]|p].
  all: repeat (match goal with
               | |- context [luaL_checkint ?st ?n] =>
                   destruct (luaL_checkint st n) as [[?|?]| |]; res_step
               | |- context [if ?c then _ else _] => destruct c
               end).
  all: try discriminate.
  all: intros [= <- <- <-]; (split; [eexists; reflexivity|]); intros n [= <-]; lia.
Qed.

Lemma MathRandomSeed_frame (ar : option lua_Debug) (L L1 : lua_Stack) (s s1 : ArdbServer)
    (a : native_result) :
  MathRandomSeed ar L s = Ok (a, L1, s1) ->
  (exists x, s1 = set_rand x s) /\ (forall n, a = NReturn n -> 0 <= n).
Proof.
  unfold MathRandomSeed.
  destruct (luaL_checkint L 1) as [[msg|seed]| |]; res_step; try discriminate.
  - intros [= <- <- <-]. split; [exists (m_rand s); symmetry; apply set_rand_m_rand|].
    intros n [=].
  - intros [= <- <- <-]. split; [eexists; reflexivity|]. intros n [= <-]. lia.
Qed.

(** A body that only draws leaves everything but the generator as it was, and
    ends by returning or raising. *)
Lemma exec_draws_frame (body : Script) :
  draws_only body ->
  forall s r s2,
    math_installed (m_lua s) = true ->
    exec body s = Ok (r, s2) ->
    (exists x, s2 = set_rand x s) /\ (forall L, r <> Yielded L).
Proof.
  induction 1 as [vs|line msg|line what k _ IH|line what k _ IH
                  |line what args k _ IH|line what args k _ IH];
    intros s r s2 Hm; cbn [exec].
  - intros [= <- <-]. split; [exists (m_rand s); symmetry; apply set_rand_m_rand|].
    discriminate.
  - intros [= <- <-]. split; [exists (m_rand s); symmetry; apply set_rand_m_rand|].
    discriminate.
  - destruct (global_get _ _ _ _) as [msg|v]; [|apply IH; exact Hm].
    intros [= <- <-]. split; [exists (m_rand s); symmetry; apply set_rand_m_rand|].
    discriminate.
  - destruct (global_get _ _ _ _) as [msg|v]; [|apply IH; exact Hm].
    intros [= <- <-]. split; [exists (m_rand s); symmetry; apply set_rand_m_rand|].
    discriminate.
  - destruct (math_installed_inv _ Hm) as (t & Hg & Hr & _).
    unfold global_get. rewrite Hg, Hr. cbn [run_native].
    destruct (MathRandom _ _ s) as [[[a L1] s1]| |] eqn:E; res_step; try discriminate.
    apply MathRandom_frame in E as [[x ->] Ha].
    destruct a as [n|msg].
    + destruct (Z.ltb_spec n 0) as [Hneg|_]; [specialize (Ha n eq_refl); lia|].
      intros Hex. apply IH in Hex as [[y ->] Hy]; [|exact Hm].
      split; [exists y; reflexivity|exact Hy].
    + intros [= <- <-]. split; [exists x; reflexivity|discriminate].
  - destruct (math_installed_inv _ Hm) as (t & Hg & _ & Hr).
    unfold global_get. rewrite Hg, Hr. cbn [run_native].
    destruct (MathRandomSeed _ _ s) as [[[a L1] s1]| |] eqn:E; res_step; try discriminate.
    apply MathRandomSeed_frame in E as [[x ->] Ha].
    destruct a as [n|msg].
    + destruct (Z.ltb_spec n 0) as [Hneg|_]; [specialize (Ha n eq_refl); lia|].
      intros Hex. apply IH in Hex as [[y ->] Hy]; [|exact Hm].
      split; [exists y; reflexivity|exact Hy].
    + intros [= <- <-]. split; [exists x; reflexivity|discriminate].
Qed.

(** What a body that only draws does is determined by [KEYS], [ARGV] and the
    state of the generator. *)
Lemma exec_draws_ran (body : Script) (vk va : LuaValue) :
  draws_only body ->
  forall s s',
    math_installed (m_lua s) = true -> math_installed (m_lua s') = true ->
    globals (m_lua s) !! "KEYS" = Some vk -> globals (m_lua s') !! "KEYS" = Some vk ->
    globals (m_lua s) !! "ARGV" = Some va -> globals (m_lua s') !! "ARGV" = Some va ->
    m_rand s = m_rand s' ->
    ran (exec body s) = ran (exec body s').
Proof.
  induction 1 as [vs|line msg|line what k _ IH|line what k _ IH
                  |line what args k _ IH|line what args k _ IH];
    intros s s' Hm Hm' Hk Hk' Ha Ha' Hr; cbn [exec].
  - unfold ran. res_step. rewrite Hr. reflexivity.
  - unfold ran. res_step. rewrite Hr. reflexivity.
  - unfold global_get. rewrite Hk, Hk'. apply IH; assumption.
  - unfold global_get. rewrite Ha, Ha'. apply IH; assumption.
  - destruct (math_installed_inv _ Hm) as (t & Hg & Hf & _).
    destruct (math_installed_inv _ Hm') as (t' & Hg' & Hf' & _).
    unfold global_get. rewrite Hg, Hg', Hf, Hf'. cbn [run_native].
    pose proof (MathRandom_generator (Some (script_dbg line)) (rev args) s s' Hr) as Hd.
    destruct (MathRandom _ _ s) as [[[a L1] s1]| |] eqn:E;
      destruct (MathRandom _ _ s') as [[[a' L1'] s1']| |] eqn:E';
      try discriminate Hd; res_step; try reflexivity.
    injection Hd as -> -> Hr1.
    apply MathRandom_frame in E as [[x ->] _]. apply MathRandom_frame in E' as [[x' ->] _].
    destruct a' as [n|msg].
    + destruct (n <? 0); [unfold ran; res_step; rewrite Hr1; reflexivity|].
      apply IH; assumption.
    + unfold ran. res_step. rewrite Hr1. reflexivity.
  - destruct (math_installed_inv _ Hm) as (t & Hg & _ & Hf).
    destruct (math_installed_inv _ Hm') as (t' & Hg' & _ & Hf').
    unfold global_get. rewrite Hg, Hg', Hf, Hf'. cbn [run_native].
    pose proof (MathRandomSeed_generator (Some (script_dbg line)) (rev args) s s' Hr) as Hd.
    destruct (MathRandomSeed _ _ s) as [[[a L1] s1]| |] eqn:E;
      destruct (MathRandomSeed _ _ s') as [[[a' L1'] s1']| |] eqn:E';
      try discriminate Hd; res_step; try reflexivity.
    injection Hd as -> -> Hr1.
    apply MathRandomSeed_frame in E as [[x ->] _].
    apply MathRandomSeed_frame in E' as [[x' ->] _].
    destruct a' as [n|msg].
    + destruct (n <? 0); [unfold ran; res_step; rewrite Hr1; reflexivity|].
      apply IH; assumption.
    + unfold ran. res_step. rewrite Hr1. reflexivity.
Qed.

(** The conversion of the returned value reads the value on top of the stack
    and removes it: what lies below plays no part. *)
Lemma luaReplyToRedisReply_below (fuel : nat) :
  (forall v L reply,
     luaReplyToRedisReply fuel (v :: L) reply =
       ('(_, r) ← luaReplyToRedisReply fuel [v] reply; Ok (L, r)))
  /\ (forall t L reply j,
        reply_elements fuel (LTable t :: L) reply j =
          ('(_, r) ← reply_elements fuel [LTable t] reply j; Ok (LTable t :: L, r))).
Proof.
  induction fuel as [|fuel [IHv IHe]]; [split; reflexivity|]. split.
  - intros v L reply. cbn [luaReplyToRedisReply]. rewrite !lua_type_top.
    destruct v as [|b|d|s|t|f|f]; cbn [type_of].
    + reflexivity.
    + rewrite !lua_toboolean_top. reflexivity.
    + rewrite !lua_tonumber_top. destruct (lua_Number_to_longlong d); reflexivity.
    + rewrite !lua_tolstring_top. reflexivity.
    + unfold lua_pushstring. cbn [c_str Ascii.eqb Bool.eqb].
      rewrite !lua_gettable_second. res_step. rewrite !lua_type_top.
      destruct (decide (type_of (table_get t (LString "err")) = LUA_TSTRING)) as [He|He].
      { destruct (table_get t (LString "err")) as [| | |e| | |]; try discriminate He.
        rewrite !lua_tolstring_top. reflexivity. }
      rewrite !lua_pop_1. res_step.
      rewrite !lua_gettable_second. res_step. rewrite !lua_type_top.
      destruct (decide (type_of (table_get t (LString "ok")) = LUA_TSTRING)) as [Ho|Ho].
      { destruct (table_get t (LString "ok")) as [| | |o| | |]; try discriminate Ho.
        rewrite !lua_tolstring_top. reflexivity. }
      rewrite !lua_pop_1. res_step.
      rewrite (IHe t L), (IHe t []).
      destruct (reply_elements fuel [LTable t] _ 1) as [[L1 r]| |]; reflexivity.
    + reflexivity.
    + reflexivity.
  - intros t L reply j. cbn [reply_elements].
    destruct (INT_MAX <=? j); [reflexivity|].
    unfold lua_pushnumber. rewrite !lua_gettable_second. res_step. rewrite !lua_type_top.
    destruct (decide (type_of (table_get t (LNumber (lua_Number_of_Z j))) = LUA_TNIL));
      [reflexivity|].
    rewrite (IHv _ (LTable t :: L)), (IHv _ [LTable t]).
    destruct (luaReplyToRedisReply fuel [_] RedisReply_new) as [[L1 r]| |]; res_step;
      try reflexivity.
    apply IHe.
Qed.

Lemma adjust_results_1 (vs : list LuaValue) : adjust_results 1 vs = [hd LNil vs].
Proof. destruct vs; reflexivity. Qed.

(** The protected call of Eval, when the function on the stack has a body. *)
Lemma lua_pcall_body (name : string) (body : Script) (rest : lua_Stack) (srv : ArdbServer) :
  stack (m_lua srv) = LFunction name :: LFunction ERR_HANDLER :: rest ->
  code (m_lua srv) !! name = Some body ->
  lua_pcall 1 (-2) srv =
    (r ← exec body (set_lua (set_stack (LFunction ERR_HANDLER :: rest)) srv);
     match r with
     | (Returned vs, s) =>
         Ok (0, set_lua (fun l => set_stack (hd LNil vs :: stack l) l) s)
     | (Yielded L, s) => Ok (0, set_lua (fun l => set_stack (L ++ stack l) l) s)
     | (Raised ar msg, s) =>
         Ok (LUA_ERRRUN,
             set_lua (fun l => set_stack (LString (redis_err_handler ar msg) :: stack l) l) s)
     end).
Proof.
  intros Hst Hc. unfold lua_pcall. rewrite Hst. cbn [Z.eqb]. rewrite lua_at_second.
  unfold call_value. change (code (m_lua (set_lua _ srv))) with (code (m_lua srv)).
  rewrite Hc.
  destruct (exec body _) as [[[vs|ar msg|L] s]| |]; res_step; try reflexivity.
  rewrite adjust_results_1. reflexivity.
Qed.

(** The reply of Eval is read off the status of the call and the value on top
    of the stack. *)
Lemma Eval_reply_outputs (funcname : string) (errid : Z) (reply : RedisReply)
    (srv : ArdbServer) (v h : LuaValue) (rest : lua_Stack) :
  stack (m_lua srv) = v :: h :: rest ->
  outputs (Eval_reply funcname errid reply srv) =
    if negb (errid =? 0) then
      msg ← of_option (lua_tolstring [v] (-1));
      Ok (0, set_str (snprintf 1023
                        ("Error running script (call to " +:+ c_str funcname +:+ "): "
                         +:+ c_str msg +:+ NEWLINE))
               (set_type REDIS_REPLY_ERROR reply))
    else
      '(_, r) ← luaReplyToRedisReply (fuel_of v) [v] RedisReply_new; Ok (0, r).
Proof.
  intros Hst. unfold Eval_reply, outputs. rewrite Hst.
  destruct (negb (errid =? 0)).
  - unfold lua_tolstring. rewrite !lua_at_top.
    destruct v; cbn [of_option]; res_step; try reflexivity.
  - unfold RedisReply_Clear.
    rewrite (proj1 (luaReplyToRedisReply_below (fuel_of v)) v (h :: rest)).
    destruct (luaReplyToRedisReply (fuel_of v) [v] RedisReply_new) as [[L r]| |];
      reflexivity.
Qed.

Lemma m_lua_Eval_cleanup (delhook : bool) (srv : ArdbServer) :
  stack (m_lua (Eval_cleanup delhook srv)) = stack (m_lua srv)
  /\ globals (m_lua (Eval_cleanup delhook srv)) = globals (m_lua srv)
  /\ code (m_lua (Eval_cleanup delhook srv)) = code (m_lua srv).
Proof.
  unfold Eval_cleanup.
  destruct delhook; cbn [set_ctx set_lua m_ctx m_lua set_executing_func lua_timeout];
    destruct (lua_timeout (m_ctx srv)); repeat split.
Qed.

(** Eval from line 728 to the protected call. *)
Lemma Eval_invoke_pre (funcname : string) (keys args : list string) (srv : ArdbServer) :
  Z.of_nat (length keys) < INT_MAX -> Z.of_nat (length args) < INT_MAX ->
  exists pre,
    Eval_invoke funcname keys args srv =
      (lua_pcall 1 (-2) pre ≫= fun '(errid, srv1) =>
       Ok (errid, 0 <? lua_time_limit srv, srv1))
    /\ stack (m_lua pre) = stack (m_lua srv)
    /\ code (m_lua pre) = code (m_lua srv)
    /\ globals (m_lua pre)
       = <["ARGV" := LTable (array_table (LString <$> args))]>
           (<["KEYS" := LTable (array_table (LString <$> keys))]> (globals (m_lua srv)))
    /\ m_rand pre = m_rand srv.
Proof.
  intros Hk Ha. eexists. unfold Eval_invoke.
  rewrite luaSetGlobalArray_keys by exact Hk. res_step.
  rewrite luaSetGlobalArray_keys by exact Ha. res_step.
  split; [reflexivity|].
  destruct (0 <? lua_time_limit _); repeat split.
Qed.

(** From line 728 on, on a connection where the function only draws: the
    [int] and the reply are the same from any two such states, and the
    connection is left ready for a further run. *)
Lemma Eval_run_prepared (name : string) (body : Script) (keys args : list string)
    (reply : RedisReply) (sp : ArdbServer) :
  draws_only body ->
  Z.of_nat (length keys) < INT_MAX -> Z.of_nat (length args) < INT_MAX ->
  name <> "KEYS" -> name <> "ARGV" ->
  prepared name body sp ->
  (forall sp', prepared name body sp' ->
     outputs (Eval_run name keys args reply sp) = outputs (Eval_run name keys args reply sp'))
  /\ (forall rc reply1 srv1,
        Eval_run name keys args reply sp = Ok (rc, reply1, srv1) -> ready name body srv1).
Proof.
  intros Hbody Hk Ha Hn1 Hn2.
  assert (Hshape : forall s, prepared name body s ->
            exists pre rest,
              Eval_run name keys args reply s =
                (x ← exec body (set_lua (set_stack (LFunction ERR_HANDLER :: rest)) pre);
                 '(errid, s1) ← match x with
                                | (Returned vs, s) =>
                                    Ok (0, set_lua (fun l => set_stack (hd LNil vs :: stack l) l) s)
                                | (Yielded L, s) =>
                                    Ok (0, set_lua (fun l => set_stack (L ++ stack l) l) s)
                                | (Raised ar msg, s) =>
                                    Ok (LUA_ERRRUN,
                                        set_lua (fun l => set_stack
                                                   (LString (redis_err_handler ar msg)
                                                      :: stack l) l) s)
                                end;
                 Eval_reply name errid reply (Eval_cleanup (0 <? lua_time_limit s) s1))
              /\ math_installed (m_lua pre) = true
              /\ globals (m_lua pre) !! "KEYS"
                 = Some (LTable (array_table (LString <$> keys)))
              /\ globals (m_lua pre) !! "ARGV"
                 = Some (LTable (array_table (LString <$> args)))
              /\ globals (m_lua pre) !! ERR_HANDLER = Some (LFunction ERR_HANDLER)
              /\ globals (m_lua pre) !! name = Some (LFunction name)
              /\ code (m_lua pre) !! name = Some body
              /\ m_rand pre = redisSrand48 0).
  { intros s (Hr & [rest Hst] & Hc & Hg & Hh & Hm).
    destruct (Eval_invoke_pre name keys args s Hk Ha) as (pre & Hinv & Hst1 & Hc1 & Hg1 & Hr1).
    exists pre, rest. split.
    - unfold Eval_run. rewrite Hinv.
      rewrite (lua_pcall_body name body rest pre)
        by (rewrite ?Hst1, ?Hc1; assumption).
      destruct (exec body _) as [[[vs|ar msg|L] s2]| |]; reflexivity.
    - rewrite Hg1, Hc1, Hr1.
      split; [|split; [|split; [|split; [|split; [|split]]]]]; try assumption.
      + rewrite <- Hm. apply math_installed_globals. rewrite Hg1.
        rewrite !lookup_insert_ne by discriminate. reflexivity.
      + rewrite lookup_insert_ne by discriminate. apply lookup_insert_eq.
      + apply lookup_insert_eq.
      + rewrite !lookup_insert_ne by discriminate. exact Hh.
      + rewrite !lookup_insert_ne by congruence. exact Hg. }
  intros Hp.
  destruct (Hshape sp Hp) as (pre & rest & Hrun & Hm & Hgk & Hga & Hh & Hg & Hc & Hr).
  set (S0 := set_lua (set_stack (LFunction ERR_HANDLER :: rest)) pre) in *.
  assert (Hframe : forall x s2, exec body S0 = Ok (x, s2) ->
            (exists y, s2 = set_rand y S0) /\ (forall L, x <> Yielded L))
    by (intros x s2; apply exec_draws_frame; [exact Hbody|exact Hm]).
  split.
  - intros sp' Hp'.
    destruct (Hshape sp' Hp') as (pre' & rest' & Hrun' & Hm' & Hgk' & Hga' & _ & _ & _ & Hr').
    set (S0' := set_lua (set_stack (LFunction ERR_HANDLER :: rest')) pre') in *.
    assert (Hframe' : forall x s2, exec body S0' = Ok (x, s2) ->
              (exists y, s2 = set_rand y S0') /\ (forall L, x <> Yielded L))
      by (intros x s2; apply exec_draws_frame; [exact Hbody|exact Hm']).
    pose proof (exec_draws_ran body _ _ Hbody S0 S0' Hm Hm' Hgk Hgk' Hga Hga'
                  (eq_trans Hr (eq_sym Hr'))) as Hran.
    rewrite Hrun, Hrun'.
    destruct (exec body S0) as [[x s2]| |] eqn:E;
      destruct (exec body S0') as [[x' s2']| |] eqn:E';
      try discriminate Hran; try reflexivity.
    injection Hran as -> _.
    destruct (Hframe _ _ eq_refl) as [[y ->] Hy].
    destruct (Hframe' _ _ eq_refl) as [[y' ->] _].
    res_step.
    destruct x' as [vs|ar msg|L]; [| |exfalso; exact (Hy L eq_refl)]; res_step.
    + rewrite (Eval_reply_outputs name 0 reply _ (hd LNil vs) (LFunction ERR_HANDLER) rest)
        by (rewrite (proj1 (m_lua_Eval_cleanup _ _)); reflexivity).
      rewrite (Eval_reply_outputs name 0 reply _ (hd LNil vs) (LFunction ERR_HANDLER) rest')
        by (rewrite (proj1 (m_lua_Eval_cleanup _ _)); reflexivity).
      reflexivity.
    + rewrite (Eval_reply_outputs name LUA_ERRRUN reply _ _ (LFunction ERR_HANDLER) rest)
        by (rewrite (proj1 (m_lua_Eval_cleanup _ _)); reflexivity).
      rewrite (Eval_reply_outputs name LUA_ERRRUN reply _ _ (LFunction ERR_HANDLER) rest')
        by (rewrite (proj1 (m_lua_Eval_cleanup _ _)); reflexivity).
      reflexivity.
  - intros rc reply1 srv1. rewrite Hrun.
    destruct (exec body S0) as [[x s2]| |] eqn:E; res_step; try discriminate.
    destruct (Hframe _ _ eq_refl) as [[y ->] Hy].
    assert (Hkeep : forall errid s1,
              globals (m_lua s1) = globals (m_lua pre) -> code (m_lua s1) = code (m_lua pre) ->
              Eval_reply name errid reply (Eval_cleanup (0 <? lua_time_limit sp) s1)
                = Ok (rc, reply1, srv1) ->
              ready name body srv1).
    { intros errid s1 Hg1 Hc1 Hrep. apply Eval_reply_keeps in Hrep as [L ->].
      destruct (m_lua_Eval_cleanup (0 <? lua_time_limit sp) s1) as (_ & Hg2 & Hc2).
      unfold ready. cbn [set_lua m_lua set_stack globals code].
      rewrite Hg2, Hc2, Hg1, Hc1.
      split; [|split; [exact Hh|right; split; [exact Hg|exact Hc]]].
      rewrite <- Hm. apply math_installed_globals.
      cbn [set_stack globals]. rewrite Hg2, Hg1. reflexivity. }
    destruct x as [vs|ar msg|L]; [| |exfalso; exact (Hy L eq_refl)]; res_step;
      apply Hkeep; reflexivity.
Qed.

(** The chunk of a script may define its function: the protection of globals
    lets the main chunk create globals. *)
Lemma global_set_main (l : lua_State) (w n : string) (v : LuaValue) :
  globals l !! n = None -> v <> LNil ->
  global_set l (Some WhatMain) w n v = inr (set_globals (<[n := v]> (globals l)) l).
Proof.
  intros Hn Hv. unfold global_set. rewrite Hn.
  assert (Hraw : rawset (globals l) n v = <[n := v]> (globals l))
    by (destruct v; try reflexivity; congruence).
  destruct (strict l); [|rewrite Hraw; reflexivity].
  unfold mt__newindex. rewrite (bool_decide_eq_true_2 (WhatMain = WhatMain)) by reflexivity.
  cbn [negb andb]. rewrite Hraw. reflexivity.
Qed.

Lemma f_name_distinct (x : string) :
  "f_" +:+ x <> "KEYS" /\ "f_" +:+ x <> "ARGV" /\ "f_" +:+ x <> "math"
  /\ "f_" +:+ x <> ERR_HANDLER.
Proof. repeat split; discriminate. Qed.

(** Eval on a connection that is ready for the script: it reaches line 728,
    defining the function first when it is not defined yet. *)
Lemma Eval_of_ready (func : string) (keys args : list string) (reply : RedisReply)
    (line : Z) (body : Script) (srv : ArdbServer) :
  let funcname := "f_" +:+ sha1_sum func in
  lua_compile ("function " +:+ funcname +:+ "() " +:+ func +:+ " end")
    = inr (SDefine line WhatMain funcname body (SReturn [])) ->
  has_nul (sha1_sum func) = false ->
  ready funcname body srv ->
  exists sp,
    Eval func keys args false reply srv = Eval_run funcname keys args reply sp
    /\ prepared funcname body sp.
Proof.
  intros funcname Hcomp Hnul (Hm & Hh & Hdef).
  assert (Hcs : c_str funcname = funcname).
  { apply c_str_no_nul. subst funcname. cbn [has_nul String.append]. exact Hnul. }
  destruct (f_name_distinct (sha1_sum func)) as (_ & _ & Hn3 & Hn4). fold funcname in Hn3, Hn4.
  unfold Eval. cbn [andb]. fold funcname. rewrite Hcs.
  change (m_lua (set_rand (redisSrand48 0) srv)) with (m_lua srv).
  rewrite (lua_getglobal_bound _ _ _ Hh). res_step.
  destruct Hdef as [Habs|[Hg Hc]].
  - rewrite lua_getglobal_unbound by exact Habs. res_step.
    cbn [set_lua m_lua set_stack stack].
    unfold lua_isnil. rewrite lua_type_top. cbn [type_of].
    rewrite bool_decide_eq_true_2 by reflexivity. rewrite lua_pop_1. res_step.
    unfold Eval_define.
    erewrite CreateLuaFunction_plain by exact Hcomp.
    rewrite global_set_main by (first [exact Habs|discriminate]).
    res_step. cbn [negb Z.eqb].
    rewrite Hcs, (lua_getglobal_bound _ _ (LFunction funcname))
      by (cbn [SaveScript set_scripts set_lua m_lua set_code set_globals globals];
          apply lookup_insert_eq).
    res_step. eexists. split; [reflexivity|].
    unfold prepared.
    cbn [SaveScript set_scripts set_lua set_rand m_lua m_rand set_code set_globals
         set_stack globals code stack].
    split; [reflexivity|]. split; [eexists; reflexivity|].
    split; [apply lookup_insert_eq|]. split; [apply lookup_insert_eq|].
    split; [rewrite lookup_insert_ne by congruence; exact Hh|].
    rewrite <- Hm. apply math_installed_globals.
    cbn [set_stack set_globals set_code globals].
    rewrite lookup_insert_ne by congruence. reflexivity.
  - rewrite (lua_getglobal_bound _ _ (LFunction funcname)) by exact Hg. res_step.
    cbn [set_lua m_lua set_stack stack].
    unfold lua_isnil. rewrite lua_type_top. cbn [type_of].
    rewrite bool_decide_eq_false_2 by discriminate.
    eexists. split; [reflexivity|].
    unfold prepared. cbn [set_lua set_rand m_lua m_rand set_stack globals code stack].
    split; [reflexivity|]. split; [eexists; reflexivity|].
    split; [exact Hc|]. split; [exact Hg|]. split; [exact Hh|].
    rewrite <- Hm. apply math_installed_globals. reflexivity.
Qed.

(** C6, amended (two runs of a script that draws).  For a script whose text
    compiles to the definition of its function and nothing else, and whose
    function only draws: after an Eval of it on a connection whose environment
    is as Init left it, the next Eval with the same KEYS and ARGV, run on the
    state that the first one left, hands back the same [int] and the same
    reply, whether the first run had to define the function or not, and
    whatever other connections have drawn from the shared generator in
    between; and it leaves the connection fit for a further run, so that the
    same holds of every later run. *)
Theorem Eval_two_runs (func : string) (keys args : list string) (reply : RedisReply)
    (line : Z) (body : Script) (srv : ArdbServer) (rc : Z) (reply1 : RedisReply)
    (srv1 : ArdbServer) :
  let funcname := "f_" +:+ sha1_sum func in
  lua_compile ("function " +:+ funcname +:+ "() " +:+ func +:+ " end")
    = inr (SDefine line WhatMain funcname body (SReturn [])) ->
  has_nul (sha1_sum func) = false ->
  draws_only body ->
  Z.of_nat (length keys) < INT_MAX -> Z.of_nat (length args) < INT_MAX ->
  ready funcname body srv ->
  Eval func keys args false reply srv = Ok (rc, reply1, srv1) ->
  (exists srv2,
      Eval func keys args false reply srv1 = Ok (rc, reply1, srv2)
      /\ ready funcname body srv2)
  /\ (forall x, exists srv2,
        Eval func keys args false reply (set_rand x srv1) = Ok (rc, reply1, srv2)
        /\ ready funcname body srv2).
Proof.
  intros funcname Hcomp Hnul Hbody Hk Ha Hready Hrun.
  destruct (f_name_distinct (sha1_sum func)) as (Hn1 & Hn2 & _). fold funcname in Hn1, Hn2.
  destruct (Eval_of_ready func keys args reply line body srv Hcomp Hnul Hready)
    as (sp & Heval & Hp).
  fold funcname in Heval, Hp.
  destruct (Eval_run_prepared funcname body keys args reply sp Hbody Hk Ha Hn1 Hn2 Hp)
    as [Hsame Hnext].
  rewrite Heval in Hrun.
  assert (Hready1 : ready funcname body srv1) by (exact (Hnext _ _ _ Hrun)).
  assert (Hlater : forall x, exists srv2,
            Eval func keys args false reply (set_rand x srv1) = Ok (rc, reply1, srv2)
            /\ ready funcname body srv2);
    [|split; [rewrite <- (set_rand_m_rand srv1); apply Hlater|exact Hlater]].
  intros x.
  assert (Hreadyx : ready funcname body (set_rand x srv1)) by exact Hready1.
  destruct (Eval_of_ready func keys args reply line body (set_rand x srv1) Hcomp Hnul Hreadyx)
    as (sp1 & Heval1 & Hp1).
  fold funcname in Heval1, Hp1.
  pose proof (Hsame sp1 Hp1) as Hout. rewrite Hrun in Hout.
  destruct (Eval_run_prepared funcname body keys args reply sp1 Hbody Hk Ha Hn1 Hn2 Hp1)
    as [_ Hnext1].
  rewrite Heval1.
  destruct (Eval_run funcname keys args reply sp1) as [[[rc2 reply2] srv2]| |];
    try discriminate Hout.
  injection Hout as -> ->. exists srv2. split; [reflexivity|].
  exact (Hnext1 _ _ _ eq_refl).
Qed.

End Properties.

(** * The properties on the small host *)

(** C2, counterexample.  A status reply whose line holds a line terminator
    comes back with a space in its place, and an array that holds the integer
    2^53 + 1 comes back holding 2^53: neither reply is an Integer, and neither
    is reproduced. *)
Lemma roundtrip_not_exact :
  let v1 := Demo.reply_status msg_with_crlf in
  let v2 := Build_RedisReply REDIS_REPLY_ARRAY 0 ""
              [Build_RedisReply REDIS_REPLY_INTEGER (2 ^ 53 + 1) "" []] in
  (reply_type v1 <> REDIS_REPLY_INTEGER
   /\ (redisProtocolToLuaType [] v1 ≫= fun L =>
       @luaReplyToRedisReply Demo.host 10 L (@RedisReply_new Demo.host))
        = Ok ([], Demo.reply_status "a b")
   /\ wire_view (Demo.reply_status "a b") <> wire_view v1)
  /\ (reply_type v2 <> REDIS_REPLY_INTEGER
      /\ (redisProtocolToLuaType [] v2 ≫= fun L =>
          @luaReplyToRedisReply Demo.host 10 L (@RedisReply_new Demo.host))
           = Ok ([], reply_of_wire (Array [Integer (2 ^ 53)]))
      /\ wire_view (reply_of_wire (Array [Integer (2 ^ 53)])) <> wire_view v2).
Proof.
  cbv zeta. repeat split; try discriminate; vm_compute; reflexivity.
Qed.

(** C2, witness: an array of a status, a bulk string, a nil, an integer and an
    empty array. *)
Lemma roundtrip_preserved_witness :
  exists r',
    (redisProtocolToLuaType []
       (reply_of_wire (Array [Status "OK"; BulkString "x"; Nil; Integer 5; Array []]))
     ≫= fun L => @luaReplyToRedisReply Demo.host 20 L (@RedisReply_new Demo.host))
      = Ok ([], r')
    /\ wire_view r'
       = wire_view (reply_of_wire (Array [Status "OK"; BulkString "x"; Nil; Integer 5; Array []])).
Proof.
  apply (@roundtrip_preserved Demo.host
           (reply_of_wire (Array [Status "OK"; BulkString "x"; Nil; Integer 5; Array []]))
           [] 20%nat).
  - discriminate.
  - vm_compute. reflexivity.
  - vm_compute. lia.
Defined.

(** C3 (NOSCRIPT).  EVALSHA of a 40-character digest that was never loaded, on
    a connection whose interpreter has no function for it and whose store has
    no record for it (Exists answers false): Eval does not answer NOSCRIPT.
    It tests the result of GetScript with [!], so a missing record sends it
    on to define a function from an empty body; the run returns 0 with a Nil
    reply and the empty body is saved under the digest, after which Exists
    answers true.  An argument that is not 40 characters long is answered with
    NOSCRIPT. *)
Theorem evalsha_unknown_digest_is_not_refused :
  @Exists Demo.host DemoState.digest_a (DemoState.srv0 5000) = false
  /\ globals (m_lua (DemoState.srv0 5000)) !! ("f_" +:+ DemoState.digest_a) = None
  /\ (exists srv',
        DemoState.eval DemoState.digest_a [] [] true 5000 = Ok (0, Nil, srv')
        /\ m_scripts srv' !! ("f_" +:+ DemoState.digest_a) = Some ""
        /\ @Exists Demo.host DemoState.digest_a srv' = true
        /\ m_dispatched srv' = [])
  /\ (exists srv',
        DemoState.eval "abc" [] [] true 5000 = Ok (-1, Error NOSCRIPT_MSG, srv')).
Proof.
  split; [vm_compute; reflexivity|]. split; [vm_compute; reflexivity|]. split.
  - assert (H : match DemoState.eval DemoState.digest_a [] [] true 5000 with
                | Ok (rc, reply, srv') =>
                    Some (rc, reply, m_scripts srv' !! ("f_" +:+ DemoState.digest_a),
                          @Exists Demo.host DemoState.digest_a srv', m_dispatched srv')
                | _ => None
                end = Some (0, Nil, Some "", true, []))
      by (vm_compute; reflexivity).
    destruct (DemoState.eval DemoState.digest_a [] [] true 5000) as [[[rc reply] srv']| |];
      [|discriminate H|discriminate H].
    exists srv'. injection H as -> -> -> -> ->. repeat split.
  - assert (H : match DemoState.eval "abc" [] [] true 5000 with
                | Ok (rc, reply, _) => Some (rc, reply)
                | _ => None
                end = Some (-1, Error NOSCRIPT_MSG))
      by (vm_compute; reflexivity).
    destruct (DemoState.eval "abc" [] [] true 5000) as [[[rc reply] srv']| |];
      [|discriminate H|discriminate H].
    exists srv'. injection H as -> ->. reflexivity.
Qed.

(** C4, counterexample.  [redis.call('nosuch', {})]: "nosuch" names no
    registered command, yet what the call hands back is the error about its
    arguments, as one returned value: the arguments are checked before the
    command is looked up. *)
Lemma unknown_command_with_a_table_argument :
  @FindRedisCommandHandlerSetting Demo.host (lower_string "nosuch") = None
  /\ @CallArdb Demo.host false None [LTable ∅; LString "nosuch"] (DemoState.srv0 5000)
     = Ok (NReturn 1,
           [error_table None "Lua redis() command arguments must be strings or integers";
            LTable ∅; LString "nosuch"],
           DemoState.srv0 5000).
Proof.
  split; [vm_compute; reflexivity|].
  generalize (DemoState.srv0 5000). intros srv. vm_compute. reflexivity.
Qed.

(** C4, witness: [redis.call('nosuch')] and [redis.pcall('EVAL', 1)] on the
    small host, where [nosuch] is not registered and [eval] is flagged
    no-script; the number among the arguments is a string afterwards. *)
Lemma CallArdb_gating_witness :
  @CallArdb Demo.host false None [LString "nosuch"] (DemoState.srv0 5000)
    = Ok (NReturn (-1),
          [error_table None "Unknown Redis command called from Lua script";
           LString "nosuch"],
          DemoState.srv0 5000)
  /\ @CallArdb Demo.host true None [Demo.one; LString "EVAL"] (DemoState.srv0 5000)
       = Ok (NReturn (-1),
             [error_table None "This Redis command is not allowed from scripts";
              LString (@lua_number2str Demo.host (lua_Number_of_Z 1)); LString "EVAL"],
             DemoState.srv0 5000).
Proof.
  split.
  - refine (proj1 (@CallArdb_gating Demo.host false None [LString "nosuch"]
                     (DemoState.srv0 5000) "nosuch" [] _) _).
    + repeat constructor.
    + vm_compute. reflexivity.
  - refine (proj2 (@CallArdb_gating Demo.host true None [LString "EVAL"; Demo.one]
                     (DemoState.srv0 5000) "EVAL"
                     [@lua_number2str Demo.host (lua_Number_of_Z 1)] _) 1 _ _).
    + repeat constructor.
    + vm_compute. reflexivity.
    + vm_compute. discriminate.
Defined.

(** C5, counterexample.  A body that does not compile: Load fails, the first
    time and the second, and what it hands back is not the digest.  And a
    body that closes the function and goes on at the top level of the chunk:
    Load succeeds the first time and fails the second. *)
Lemma Load_is_not_idempotent_for_every_body :
  (exists ret srv1 ret2 srv2,
      @Load Demo.host "(" (DemoState.srv0 5000) = Ok (0, ret, srv1)
      /\ ret <> Demo.sha1_sum "("
      /\ @Load Demo.host "(" srv1 = Ok (0, ret2, srv2))
  /\ (exists ret srv1 ret2 srv2,
        @Load Demo.host
          "end if redis.call('get','k') then error('again') end redis.call('set','k','1') function g()"
          (DemoState.srv0 5000) = Ok (1, ret, srv1)
        /\ @Load Demo.host
             "end if redis.call('get','k') then error('again') end redis.call('set','k','1') function g()"
             srv1 = Ok (0, ret2, srv2)).
Proof.
  split.
  - assert (H : match @Load Demo.host "(" (DemoState.srv0 5000) with
                | Ok (rc, ret, srv1) =>
                    match @Load Demo.host "(" srv1 with
                    | Ok (rc2, _, _) =>
                        Some (rc, bool_decide (ret = Demo.sha1_sum "("), rc2)
                    | _ => None
                    end
                | _ => None
                end = Some (0, false, 0))
      by (vm_compute; reflexivity).
    destruct (@Load Demo.host "(" (DemoState.srv0 5000)) as [[[rc ret] srv1]| |];
      [|discriminate H|discriminate H].
    destruct (@Load Demo.host "(" srv1) as [[[rc2 ret2] srv2]| |] eqn:E2;
      [|discriminate H|discriminate H].
    injection H as -> Hne ->. exists ret, srv1, ret2, srv2.
    split; [reflexivity|]. split; [|exact E2].
    intros Heq. rewrite bool_decide_eq_false in Hne. exact (Hne Heq).
  - set (body := "end if redis.call('get','k') then error('again') end redis.call('set','k','1') function g()").
    assert (H : match @Load Demo.host body (DemoState.srv0 5000) with
                | Ok (rc, ret, srv1) =>
                    match @Load Demo.host body srv1 with
                    | Ok (rc2, _, _) => Some (rc, rc2)
                    | _ => None
                    end
                | _ => None
                end = Some (1, 0))
      by (vm_compute; reflexivity).
    destruct (@Load Demo.host body (DemoState.srv0 5000)) as [[[rc ret] srv1]| |];
      [|discriminate H|discriminate H].
    destruct (@Load Demo.host body srv1) as [[[rc2 ret2] srv2]| |] eqn:E2;
      [|discriminate H|discriminate H].
    injection H as -> ->. exists ret, srv1, ret2, srv2. split; [reflexivity|exact E2].
Qed.

(** C5, witness: the script of the specification's example, loaded twice. *)
Lemma Load_twice_witness :
  match @Load Demo.host "return {1,2,'three'}" (DemoState.srv0 5000) with
  | Ok (rc, ret, srv1) =>
      rc = 1 /\ ret = Demo.sha1_sum "return {1,2,'three'}"
      /\ @Load Demo.host "return {1,2,'three'}" srv1 = Ok (1, ret, srv1)
  | _ => False
  end.
Proof.
  pose proof (@Load_twice Demo.host "return {1,2,'three'}" (DemoState.srv0 5000)) as H.
  assert (Hrc : match @Load Demo.host "return {1,2,'three'}" (DemoState.srv0 5000) with
                | Ok (rc, _, _) => Some rc
                | _ => None
                end = Some 1)
    by (vm_compute; reflexivity).
  destruct (@Load Demo.host "return {1,2,'three'}" (DemoState.srv0 5000))
    as [[[rc ret] srv1]| |]; [|discriminate Hrc|discriminate Hrc].
  injection Hrc as ->. split; [reflexivity|].
  eapply H; [vm_compute; reflexivity|reflexivity].
Defined.




(** C6, counterexample.  The body [return math.random(1000000) end
    math.random() function g()] closes the function that CreateLuaFunction
    opens, so [math.random()] runs at the top level of the chunk, once, when
    the function is defined.  The first EVAL defines the function, so the
    function draws the second number after the reseeding; the next EVAL finds
    the function defined and the function draws the first: the same body,
    KEYS and ARGV give two different replies. *)
Lemma random_reply_differs_between_runs :
  exists reply1 srv1 reply2 srv2,
    @Eval Demo.host "return math.random(1000000) end math.random() function g()" [] []
      false (@RedisReply_new Demo.host) (DemoState.srv0 5000) = Ok (0, reply1, srv1)
    /\ @Eval Demo.host "return math.random(1000000) end math.random() function g()" [] []
         false (@RedisReply_new Demo.host) srv1 = Ok (0, reply2, srv2)
    /\ wire_view reply1 = Integer 749902
    /\ wire_view reply2 = Integer 170829.
Proof.
  assert (H : match @Eval Demo.host
                      "return math.random(1000000) end math.random() function g()" [] []
                      false (@RedisReply_new Demo.host) (DemoState.srv0 5000) with
              | Ok (rc, r, s1) =>
                  match @Eval Demo.host
                          "return math.random(1000000) end math.random() function g()" [] []
                          false (@RedisReply_new Demo.host) s1 with
                  | Ok (rc2, r2, _) => Some (rc, wire_view r, rc2, wire_view r2)
                  | _ => None
                  end
              | _ => None
              end = Some (0, Integer 749902, 0, Integer 170829))
    by (vm_compute; reflexivity).
  destruct (@Eval Demo.host "return math.random(1000000) end math.random() function g()"
              [] [] false (@RedisReply_new Demo.host) (DemoState.srv0 5000))
    as [[[rc r] s1]| |]; [|discriminate H|discriminate H].
  destruct (@Eval Demo.host "return math.random(1000000) end math.random() function g()"
              [] [] false (@RedisReply_new Demo.host) s1)
    as [[[rc2 r2] s2]| |] eqn:E2; [|discriminate H|discriminate H].
  injection H as -> Hr -> Hr2. exists r, s1, r2, s2.
  split; [reflexivity|]. split; [exact E2|]. split; assumption.
Qed.

(** C6, witness: [return math.random(10)] on a fresh connection, twice. *)
Lemma Eval_two_runs_witness :
  match @Eval Demo.host "return math.random(10)" [] [] false (@RedisReply_new Demo.host)
          (DemoState.srv0 5000) with
  | Ok (rc, reply1, srv1) =>
      rc = 0 /\ wire_view reply1 = Integer 2
      /\ exists srv2,
           @Eval Demo.host "return math.random(10)" [] [] false (@RedisReply_new Demo.host)
             srv1 = Ok (rc, reply1, srv2)
  | _ => False
  end.
Proof.
  assert (H : match @Eval Demo.host "return math.random(10)" [] [] false
                      (@RedisReply_new Demo.host) (DemoState.srv0 5000) with
              | Ok (rc, r, _) => Some (rc, wire_view r)
              | _ => None
              end = Some (0, Integer 2))
    by (vm_compute; reflexivity).
  destruct (@Eval Demo.host "return math.random(10)" [] [] false
              (@RedisReply_new Demo.host) (DemoState.srv0 5000))
    as [[[rc r] s1]| |] eqn:E; [|discriminate H|discriminate H].
  injection H as -> Hr. split; [reflexivity|]. split; [exact Hr|].
  destruct (proj1 (@Eval_two_runs Demo.host "return math.random(10)" [] []
                     (@RedisReply_new Demo.host) 1
                     (SCallField 1 WhatLua "math" "random" [LNumber (lua_Number_of_Z 10)]
                        SReturn)
                     (DemoState.srv0 5000) 0 r s1
                     ltac:(vm_compute; reflexivity) ltac:(vm_compute; reflexivity)
                     ltac:(apply draws_random; intros rs; apply draws_return)
                     ltac:(vm_compute; reflexivity) ltac:(vm_compute; reflexivity)
                     ltac:(split; [vm_compute; reflexivity
                                  |split; [vm_compute; reflexivity
                                          |left; vm_compute; reflexivity]])
                     E)) as [srv2 [H2 _]].
  exists srv2. exact H2.
Defined.



(** C10, witness: the command [fail] of the small host, which the executor
    answers with the error "ERR failed", through [redis.pcall] and through
    [redis.call]. *)
Lemma call_returns_pcall_raises_witness :
  let srv := DemoState.srv0 5000 in
  let srv' := set_ctx_reply (Demo.reply_error "ERR failed")
                (add_dispatched ("fail", []) srv) in
  @exec Demo.host (SCallField 1 WhatLua "redis" "pcall" [LString "fail"] SReturn) srv
    = Ok (Raised (Some (script_dbg 1)) "ERR failed", srv')
  /\ @exec Demo.host (SCallField 1 WhatLua "redis" "call" [LString "fail"] SReturn) srv
       = Ok (Returned [LTable {[ KStr "err" := LString "ERR failed" ]}], srv').
Proof.
  intros srv srv'.
  assert (H1 : globals (m_lua srv) !! "redis" = Some (LTable (@redis_table Demo.host)))
    by (vm_compute; reflexivity).
  assert (H3 : @build_cmdargs Demo.host (rev [LString "fail"])
                 (Z.to_nat (lua_gettop (rev [LString "fail"]))) 0 []
               = (lua_gettop (rev [LString "fail"]), ["fail"]))
    by (vm_compute; reflexivity).
  assert (H4 : @FindRedisCommandHandlerSetting Demo.host (lower_string "fail") = Some 0)
    by (vm_compute; reflexivity).
  assert (H6 : @ProcessRedisCommand Demo.host (m_db srv) (lower_string "fail") []
               = (∅, Build_RedisReply REDIS_REPLY_ERROR 0 "ERR failed" []))
    by (vm_compute; reflexivity).
  pose proof (@call_returns_pcall_raises Demo.host 1 WhatLua [LString "fail"] SReturn srv
                "fail" [] 0 ∅ 0 "ERR failed" []
                H1 ltac:(discriminate) H3 H4 eq_refl H6) as (_ & _ & _ & _ & _ & Hp & Hc).
  split; [exact Hp|exact Hc].
Defined.

(** ** Further properties on the small host *)

(** X1, on an array that holds an integer, a status, a nil and an array. *)
Lemma redisProtocolToLuaType_pushes_one_witness :
  redisProtocolToLuaType [LBoolean true]
    (reply_of_wire (Array [Integer 7; Status "OK"; Nil; Array [BulkString "x"]]))
  = Ok [toScriptValue
          (wire_view
             (reply_of_wire (Array [Integer 7; Status "OK"; Nil; Array [BulkString "x"]])));
        LBoolean true].
Proof.
  apply (proj2 (redisProtocolToLuaType_pushes_one
                  (reply_of_wire (Array [Integer 7; Status "OK"; Nil; Array [BulkString "x"]]))
                  [LBoolean true])).
  vm_compute. reflexivity.
Defined.

(** X2, on the table [{"a", 5, nil, "lost", name = "x"}]. *)
Lemma luaReplyToRedisReply_stops_at_first_hole_witness :
  @luaReplyToRedisReply Demo.host 10
    [LTable (<[KInt 1 := LString "a"]>
               (<[KInt 2 := LNumber (lua_Number_of_Z 5)]>
                  (<[KInt 4 := LString "lost"]> (<[KStr "name" := LString "x"]> ∅))))]
    (@RedisReply_new Demo.host)
  = Ok ([], reply_of_wire (Array [BulkString "a"; Integer 5])).
Proof.
  apply (@luaReplyToRedisReply_stops_at_first_hole Demo.host _
           [LString "a"; LNumber (lua_Number_of_Z 5)]).
  - vm_compute. reflexivity.
  - vm_compute. lia.
  - intros s. vm_compute. discriminate.
  - intros s. vm_compute. discriminate.
  - intros [|[|i]] v Hv; cbn in Hv; inversion Hv; subst; vm_compute; reflexivity.
  - repeat constructor.
  - vm_compute. reflexivity.
Defined.

(** X3, on the integer 2^53 - 1. *)
Lemma roundtrip_integer_witness :
  (redisProtocolToLuaType [] (Build_RedisReply REDIS_REPLY_INTEGER (2 ^ 53 - 1) "" [])
   ≫= fun L' => @luaReplyToRedisReply Demo.host 1 L' (@RedisReply_new Demo.host))
    = Ok ([], reply_of_wire (Integer (2 ^ 53 - 1))).
Proof.
  apply (@roundtrip_integer Demo.host); [vm_compute; reflexivity|lia].
Defined.

(** X4, on [redis.pcall("get", {})]: the second argument is a table. *)
Lemma CallArdb_rejects_arguments_witness :
  exists L',
    @CallArdb Demo.host true None [LTable ∅; LString "get"] (DemoState.srv0 5000)
    = Ok (NReturn 1,
          error_table None "Lua redis() command arguments must be strings or integers" :: L',
          DemoState.srv0 5000)
    /\ length L' = length [LTable ∅; LString "get"].
Proof.
  refine (proj2 (@CallArdb_rejects_arguments Demo.host true None
                   [LTable ∅; LString "get"] (DemoState.srv0 5000)) 2 _ _).
  - unfold lua_gettop. cbn [length]. lia.
  - vm_compute. reflexivity.
Defined.

(** X5, on [redis.call("SET", "k", "v")] with the store empty. *)
Lemma CallArdb_dispatches_witness :
  exists L',
    @CallArdb Demo.host false None (rev [LString "SET"; LString "k"; LString "v"])
      (DemoState.srv0 5000)
    = Ok (NReturn 1,
          toScriptValue (wire_view (Demo.reply_status "OK")) :: L',
          set_ctx_reply (Demo.reply_status "OK")
            (add_dispatched (lower_string "SET", ["k"; "v"])
               (@set_db Demo.host (<["k" := "v"]> ∅) (DemoState.srv0 5000))))
    /\ length L' = length [LString "SET"; LString "k"; LString "v"].
Proof.
  apply (@CallArdb_dispatches Demo.host false None
           [LString "SET"; LString "k"; LString "v"] (DemoState.srv0 5000)
           "SET" ["k"; "v"] 0).
  - repeat constructor.
  - vm_compute. reflexivity.
  - reflexivity.
  - vm_compute. reflexivity.
  - discriminate.
  - reflexivity.
Defined.

(** X6, on [redis.log(2, "disk", "is", "full")]. *)
Lemma Log_writes_joined_message_witness :
  exists L',
    @Log Demo.host None
      (rev [LNumber (lua_Number_of_Z 2); LString "disk"; LString "is"; LString "full"])
      (DemoState.srv0 5000)
    = Ok (NReturn 0, L',
          add_log (LogUser 2 (c_str (String.concat " " ["disk"; "is"; "full"])))
            (DemoState.srv0 5000)).
Proof.
  apply (@Log_writes_joined_message Demo.host None (lua_Number_of_Z 2) 2
           (LString "disk") [LString "is"; LString "full"] "disk" ["is"; "full"]).
  - vm_compute. reflexivity.
  - reflexivity.
  - cbn. lia.
  - repeat constructor.
Defined.

(** X7, on [redis.log(9, "x")]: the levels of the small host are 0 to 6. *)
Lemma Log_rejects_witness :
  @Log Demo.host None [LString "x"; LNumber (lua_Number_of_Z 9)] (DemoState.srv0 5000)
  = Ok (NReturn 1,
        [error_table None "Invalid debug level."; LString "x"; LNumber (lua_Number_of_Z 9)],
        DemoState.srv0 5000).
Proof.
  refine (proj2 (proj2 (@Log_rejects Demo.host None
                          [LString "x"; LNumber (lua_Number_of_Z 9)]
                          (DemoState.srv0 5000))) 9 _ _ _ _ _).
  - unfold lua_gettop. cbn [length]. lia.
  - vm_compute. reflexivity.
  - vm_compute. reflexivity.
  - reflexivity.
  - right. cbn. lia.
Defined.

(** X8, on [redis.status_reply("a\r\nb")]. *)
Lemma single_field_table_reply_witness :
  exists t,
    @StatusReplyCommand Demo.host None [LString msg_with_crlf] (DemoState.srv0 5000)
    = Ok (NReturn 1, [t; LString msg_with_crlf], DemoState.srv0 5000)
    /\ @luaReplyToRedisReply Demo.host 5 [t] (@RedisReply_new Demo.host)
       = Ok ([], reply_of_wire (Status (code_sanitize msg_with_crlf))).
Proof.
  exact (proj1 (proj2 (@single_field_table_reply Demo.host msg_with_crlf None
                         (DemoState.srv0 5000) 5 (le_n 5)))).
Defined.

(** X9, on [math.random(0)]. *)
Lemma MathRandom_draws_once_witness :
  @MathRandom Demo.host None [LNumber (lua_Number_of_Z 0)] (DemoState.srv0 5000)
  = Ok (NRaise (@luaL_argerror Demo.host 1 "interval is empty"),
        [LNumber (lua_Number_of_Z 0)],
        set_rand (snd (redisLrand48 (m_rand (DemoState.srv0 5000)))) (DemoState.srv0 5000)).
Proof.
  refine (proj1 (proj2 (proj2 (@MathRandom_draws_once Demo.host None []
                                 (DemoState.srv0 5000)))) 0 _).
  lia.
Defined.

(** X10, on the small host, whose [math] is the empty table. *)
Lemma Init_environment_witness :
  exists l,
    @Init Demo.host = Ok l
    /\ stack l = [] /\ strict l = true
    /\ globals l !! "loadfile" = None
    /\ globals l !! "redis" = Some (LTable (@redis_table Demo.host))
    /\ globals l !! "ardb" = Some (LTable (@redis_table Demo.host))
    /\ globals l !! "math"
       = Some (LTable (<[KStr "randomseed" := LCFunction FnMathRandomSeed]>
                         (<[KStr "random" := LCFunction FnMathRandom]> ∅)))
    /\ globals l !! ERR_HANDLER = Some (LFunction ERR_HANDLER)
    /\ (forall n, n <> "loadfile" -> n <> "redis" -> n <> "ardb" -> n <> "math" ->
                  n <> ERR_HANDLER -> globals l !! n = @library_globals Demo.host !! n).
Proof.
  apply (@Init_environment Demo.host ∅). vm_compute. reflexivity.
Defined.

(** X11, on an interpreter whose [KEYS] holds two entries of an earlier run. *)
Lemma luaSetGlobalArray_binds_witness :
  let l := set_globals
             {[ "KEYS" := LTable (array_table [LString "old1"; LString "old2"]) ]}
             lua_open in
  exists l',
    luaSetGlobalArray l "KEYS" ["k"] = Ok l'
    /\ globals l' !! c_str "KEYS" = Some (LTable (array_table (LString <$> ["k"])))
    /\ (forall (i : nat) e, ["k"] !! i = Some e ->
          table_get (array_table (LString <$> ["k"]))
            (LNumber (lua_Number_of_Z (1 + Z.of_nat i)))
          = LString e)
    /\ (forall n, n <> c_str "KEYS" -> globals l' !! n = globals l !! n)
    /\ stack l' = stack l /\ strict l' = strict l.
Proof.
  intros l. apply luaSetGlobalArray_binds. vm_compute. reflexivity.
Defined.

(** X12, on a connection that runs the function [abc]: a request that names
    it, followed by a request that names another function. *)
Lemma Kill_last_target_wins_witness :
  let srv := set_ctx (set_executing_func (Some "abc")) (DemoState.srv0 5000) in
  (kill_matches "abc" "abc" = true /\ kill_matches "xyz" "abc" = false)
  /\ forall srv',
       @Continue Demo.host (Kill "xyz" (Kill "abc" srv)) = Ok srv' ->
       lua_kill (m_ctx srv') = (kill_matches "xyz" "abc" || lua_kill (m_ctx srv))%bool.
Proof.
  intros srv. split; [split; vm_compute; reflexivity|]. intros srv'.
  apply (proj2 (@Kill_last_target_wins Demo.host "abc" "xyz" srv) "abc" srv');
    vm_compute; reflexivity.
Defined.

(** X13, on the connection of the small host with one saved script. *)
Lemma Flush_empties_cache_witness :
  let srv := @SaveScript Demo.host "f_abc" "return 1" (DemoState.srv0 5000) in
  @Exists Demo.host "abc" srv = true
  /\ exists srv',
       @Continue Demo.host (Flush srv) = Ok srv'
       /\ m_lua srv' = DemoState.lua0 /\ m_scripts srv' = ∅ /\ m_db srv' = m_db srv
       /\ m_pending srv' = []
       /\ forall sha, @Exists Demo.host sha srv' = false.
Proof.
  intros srv. split; [vm_compute; reflexivity|].
  assert (Hok : match @Init Demo.host with Ok _ => true | _ => false end = true)
    by (vm_compute; reflexivity).
  apply (@Flush_empties_cache Demo.host srv DemoState.lua0).
  - unfold DemoState.lua0. destruct (@Init Demo.host); [reflexivity|discriminate|discriminate].
  - vm_compute. reflexivity.
  - vm_compute. reflexivity.
Defined.

(** X14, on the script [return {1,2,'three'}], which Load accepts, and on the
    text [(], which does not compile. *)
Lemma Load_caches_witness :
  match @Load Demo.host "return {1,2,'three'}" (DemoState.srv0 5000) with
  | Ok (rc, ret, srv') =>
      rc = 1 /\ ret = Demo.sha1_sum "return {1,2,'three'}"
      /\ m_scripts srv' !! ("f_" +:+ Demo.sha1_sum "return {1,2,'three'}")
         = Some "return {1,2,'three'}"
      /\ @Exists Demo.host (Demo.sha1_sum "return {1,2,'three'}") srv' = true
  | _ => False
  end.
Proof.
  pose proof (@Load_caches Demo.host "return {1,2,'three'}" (DemoState.srv0 5000)) as H.
  assert (Hrc : match @Load Demo.host "return {1,2,'three'}" (DemoState.srv0 5000) with
                | Ok (rc, _, _) => Some rc
                | _ => None
                end = Some 1)
    by (vm_compute; reflexivity).
  destruct (@Load Demo.host "return {1,2,'three'}" (DemoState.srv0 5000))
    as [[[rc ret] srv']| |]; [|discriminate Hrc|discriminate Hrc].
  injection Hrc as ->.
  destruct (H 1 ret srv' eq_refl) as [Hgood|[Hbad _]]; [exact Hgood|discriminate Hbad].
Defined.

(** X15, on the text [(], which the compiler of the small host refuses. *)
Lemma Eval_compile_error_witness :
  @Eval Demo.host "(" [] [] false (@RedisReply_new Demo.host) (DemoState.srv0 5000) =
    Ok (-1,
        set_str ("Error compiling script (new function): "
                 +:+ c_str "user_script:1: syntax error" +:+ NEWLINE)
          (set_type REDIS_REPLY_ERROR (@RedisReply_new Demo.host)),
        set_rand (redisSrand48 0) (DemoState.srv0 5000)).
Proof.
  apply (@Eval_compile_error Demo.host); vm_compute; reflexivity.
Defined.

(** X16, on one key and two arguments. *)
Lemma Eval_invoke_arguments_witness :
  let srv := DemoState.srv0 5000 in
  exists pre,
    @Eval_invoke Demo.host "f_abc" ["k1"] ["a1"; "a2"] srv =
      (lua_pcall 1 (-2) pre ≫= fun '(errid, srv1) =>
       Ok (errid, 0 <? lua_time_limit srv, srv1))
    /\ globals (m_lua pre) !! "KEYS" = Some (LTable (array_table (LString <$> ["k1"])))
    /\ globals (m_lua pre) !! "ARGV" = Some (LTable (array_table (LString <$> ["a1"; "a2"])))
    /\ (forall n, n <> "KEYS" -> n <> "ARGV" ->
                  globals (m_lua pre) !! n = globals (m_lua srv) !! n)
    /\ stack (m_lua pre) = stack (m_lua srv)
    /\ hook (m_lua pre) = (if 0 <? lua_time_limit srv then Some 100000 else hook (m_lua srv))
    /\ m_ctx pre = Build_LuaRunContext (m_clock srv) (Some (string_drop 2 (c_str "f_abc")))
                     (lua_timeout (m_ctx srv)) false.
Proof.
  intros srv. apply (@Eval_invoke_arguments Demo.host); vm_compute; reflexivity.
Defined.

(** X17, half a second into a run with a limit of five seconds, with a kill
    request for every script waiting. *)
Lemma kill_waits_for_the_time_limit_witness :
  let srv := Kill "all"
               (set_clock 1500
                  (set_ctx (set_executing_func (Some "abc"))
                     (set_ctx (set_time_start 1000) (DemoState.srv0 5000)))) in
  m_pending srv = [SCRIPT_KILL_EVENT]
  /\ kill_matches (m_killing_func srv) "abc" = true
  /\ @MaskCountHook Demo.host srv = Ok (None, srv).
Proof.
  intros srv. split; [vm_compute; reflexivity|]. split; [vm_compute; reflexivity|].
  apply (@kill_waits_for_the_time_limit Demo.host); vm_compute; reflexivity.
Defined.

(** X18, on the table [{1, "two", {ok = "fine"}, false}]. *)
Lemma luaReplyToRedisReply_refines_witness :
  @luaReplyToRedisReply Demo.host 20
    [LTable (array_table [LNumber (lua_Number_of_Z 1); LString "two";
                          LTable {[ KStr "ok" := LString "fine" ]}; LBoolean false])]
    (@RedisReply_new Demo.host)
  = Ok ([], reply_of_wire (Array [Integer 1; BulkString "two"; Status "fine"; Nil])).
Proof.
  refine (eq_trans
            (proj1 (@luaReplyToRedisReply_refines Demo.host
                      (LTable (array_table [LNumber (lua_Number_of_Z 1); LString "two";
                                            LTable {[ KStr "ok" := LString "fine" ]};
                                            LBoolean false]))
                      [] 20 _ _)) _).
  - vm_compute. reflexivity.
  - vm_compute. lia.
  - vm_compute. reflexivity.
Defined.

(** X19, on [redis.call("set", "k", "v")]. *)
Lemma CallArdb_frame_witness :
  match @CallArdb Demo.host false None (rev [LString "set"; LString "k"; LString "v"])
          (DemoState.srv0 5000) with
  | Ok (r, L', srv') =>
      (exists pushed rest,
          L' = pushed ++ rest
          /\ length rest = length (rev [LString "set"; LString "k"; LString "v"])
          /\ (1 <= length pushed <= 2)%nat)
      /\ (srv' = DemoState.srv0 5000
          \/ exists cmd args db' reply,
               @ProcessRedisCommand Demo.host (m_db (DemoState.srv0 5000)) cmd args
               = (db', reply)
               /\ srv' = set_ctx_reply reply
                           (add_dispatched (cmd, args) (set_db db' (DemoState.srv0 5000))))
      /\ m_lua srv' = m_lua (DemoState.srv0 5000)
      /\ m_ctx srv' = m_ctx (DemoState.srv0 5000)
      /\ m_scripts srv' = m_scripts (DemoState.srv0 5000)
      /\ m_log srv' = m_log (DemoState.srv0 5000)
  | _ => False
  end.
Proof.
  pose proof (@CallArdb_frame Demo.host false None
                (rev [LString "set"; LString "k"; LString "v"]) (DemoState.srv0 5000)) as H.
  assert (Hok : match @CallArdb Demo.host false None
                        (rev [LString "set"; LString "k"; LString "v"])
                        (DemoState.srv0 5000) with
                | Ok _ => true
                | _ => false
                end = true)
    by (vm_compute; reflexivity).
  destruct (@CallArdb Demo.host false None (rev [LString "set"; LString "k"; LString "v"])
              (DemoState.srv0 5000)) as [[[r L'] srv']| |];
    [|discriminate Hok|discriminate Hok].
  exact (H r L' srv' eq_refl).
Defined.

(** X20, on EVALSHA of a digest whose function is defined. *)
Lemma Eval_defined_function_witness :
  let srv := set_lua (set_globals {[ "f_" +:+ DemoState.digest_a
                                       := LFunction ("f_" +:+ DemoState.digest_a) ]})
               (DemoState.srv0 5000) in
  @Eval Demo.host DemoState.digest_a [] [] true (@RedisReply_new Demo.host) srv =
    @Eval_run Demo.host ("f_" +:+ DemoState.digest_a) [] [] (@RedisReply_new Demo.host)
      (set_lua
         (set_stack (LFunction ("f_" +:+ DemoState.digest_a)
                       :: rawget (globals (m_lua srv)) ERR_HANDLER :: stack (m_lua srv)))
         (set_rand (redisSrand48 0) srv)).
Proof.
  intros srv.
  apply (@Eval_defined_function Demo.host DemoState.digest_a [] [] true
           (@RedisReply_new Demo.host) srv (LFunction ("f_" +:+ DemoState.digest_a))).
  - intros _. vm_compute. reflexivity.
  - vm_compute. reflexivity.
  - discriminate.
Defined.

(** X21, on a run that returned the string [x] and on a run that failed with
    the message [boom]. *)
Lemma Eval_reply_outcomes_witness :
  let done := set_lua (set_stack [LString "x"; LFunction ERR_HANDLER]) (DemoState.srv0 5000) in
  let failed :=
    set_lua (set_stack [LString "boom"; LFunction ERR_HANDLER]) (DemoState.srv0 5000) in
  @Eval_reply Demo.host "f_abc" 0 (Demo.reply_error "old") done
  = Ok (0, reply_of_wire (BulkString "x"), set_lua (set_stack []) done)
  /\ exists text,
       @Eval_reply Demo.host "f_abc" 2 (Demo.reply_error "old") failed =
         Ok (0, set_str text (set_type REDIS_REPLY_ERROR (Demo.reply_error "old")),
             set_lua (set_stack []) failed)
       /\ text = snprintf 1023
                   ("Error running script (call to " +:+ c_str "f_abc" +:+ "): "
                    +:+ c_str "boom" +:+ NEWLINE)
       /\ (String.length text <= 1022)%nat.
Proof.
  intros done failed. split.
  - apply (proj1 (@Eval_reply_outcomes Demo.host "f_abc" (Demo.reply_error "old") done
                    (LFunction ERR_HANDLER) []) (LString "x") (BulkString "x")); reflexivity.
  - apply (proj2 (@Eval_reply_outcomes Demo.host "f_abc" (Demo.reply_error "old") failed
                    (LFunction ERR_HANDLER) [])); [discriminate|reflexivity].
Defined.

(** X22, on [redis.sha1hex("abc")] and on [redis.sha1hex()]. *)
Lemma SHA1Hex_outcomes_witness :
  (exists L',
      @SHA1Hex Demo.host None [LString "abc"] (DemoState.srv0 5000)
      = Ok (NReturn 1, LString (c_str (Demo.sha1_sum "abc")) :: L', DemoState.srv0 5000)
      /\ length L' = 1%nat)
  /\ @SHA1Hex Demo.host None [] (DemoState.srv0 5000)
     = Ok (NReturn 1, [error_table None "wrong number of arguments"], DemoState.srv0 5000).
Proof.
  split.
  - apply (proj1 (@SHA1Hex_outcomes Demo.host None (DemoState.srv0 5000))). reflexivity.
  - apply (proj2 (@SHA1Hex_outcomes Demo.host None (DemoState.srv0 5000))). discriminate.
Defined.

(** X23, on [math.randomseed(42)] and on [math.randomseed({})]. *)
Lemma MathRandomSeed_outcomes_witness :
  @MathRandomSeed Demo.host None [LNumber (lua_Number_of_Z 42)] (DemoState.srv0 5000)
  = Ok (NReturn 0, [LNumber (lua_Number_of_Z 42)],
        set_rand (redisSrand48 42) (DemoState.srv0 5000))
  /\ @MathRandomSeed Demo.host None [LTable ∅] (DemoState.srv0 5000)
     = Ok (NRaise (@luaL_argerror Demo.host 1
                     ("number expected, got " +:+ lua_typename (type_of (LTable ∅)))),
           [LTable ∅], DemoState.srv0 5000).
Proof.
  split.
  - apply (proj1 (@MathRandomSeed_outcomes Demo.host None (DemoState.srv0 5000))). lia.
  - apply (proj2 (@MathRandomSeed_outcomes Demo.host None (DemoState.srv0 5000))). reflexivity.
Defined.
